(** * Sleep sound-level analysis: a shallow embedding of
      [sleep_analyzer.py] (class [SleepAnalyzer]) and
      [hypothesis_test.py] (class [HypothesisTest]).

    Decibel values and every quantity derived from them are Python /
    numpy binary64 numbers in the source.  They are embedded as exact
    rationals: a finite float is the rational it denotes, and the
    special values that the source can produce (the [nan] of [0 / 0]
    and of statistics over too few samples, the [inf] of [c / 0]) are
    explicit constructors.  The dictionary of [calculate_statistics]
    is computed in exact arithmetic; where a property depends on the
    rounding of an operation, the operation is given with its rounding
    as well (module [Rounded], and the rounding argument of
    [test_hypothesis2]), for any round-to-nearest function and for
    [Binary64.round], binary64's own.

    pandas, numpy and scipy are libraries outside the repository:
    [Series.rolling], [Series.mean], [Series.std], [np.mean] and the
    frame construction of [compare_conditions] follow their documented
    behaviour; [scipy.stats.pearsonr] is a parameter. *)

From stdpp Require Import base gmap strings.
From Stdlib Require Import List Bool ZArith QArith Qround Qabs Qpower Lia Lqa
  Sorted.
From Stdlib Require Import Reals Qreals.
Import ListNotations.

Local Open Scope Q_scope.

(** ** Numbers *)

Module Float.

(** A binary64 value as the source can observe it. *)
Inductive float64 : Type :=
| NaN
| Inf (negative : bool)
| Fin (q : Q).

(** "The same value": [nan] is the same value as [nan] here (this is
    not the IEEE [==], under which [nan] differs from itself). *)
Definition same (x y : float64) : Prop :=
  match x, y with
  | NaN, NaN => True
  | Inf s, Inf t => s = t
  | Fin p, Fin q => p == q
  | _, _ => False
  end.

Definition is_finite (x : float64) : bool :=
  match x with Fin _ => true | _ => false end.

Definition Qltb (x y : Q) : bool := negb (Qle_bool y x).

(** numpy true division of two integers ([np.int64 / int]): a warning
    and [nan] or [inf] on a zero divisor, never an exception. *)
Definition np_div (a b : Z) : float64 :=
  if (b =? 0)%Z
  then (if (a =? 0)%Z then NaN else Inf (a <? 0)%Z)
  else Fin (inject_Z a / inject_Z b).

(** [x * k] for a finite, non-zero constant [k]. *)
Definition fscale (x : float64) (k : Q) : float64 :=
  match x with
  | NaN => NaN
  | Inf s => Inf (xorb s (Qltb k 0))
  | Fin q => Fin (q * k)
  end.

(** [x - y], the exact difference. *)
Definition fsub (x y : float64) : float64 :=
  match x, y with
  | NaN, _ | _, NaN => NaN
  | Inf s, Inf t => if eqb s t then NaN else Inf s
  | Inf s, Fin _ => Inf s
  | Fin _, Inf t => Inf (negb t)
  | Fin p, Fin q => Fin (p - q)
  end.

(** [x - y] as binary64 computes it: the exact difference rounded by
    [rnd], the round-to-nearest of the format ([Binary64.round]
    below). *)
Definition fsub_rnd (rnd : Q -> Q) (x y : float64) : float64 :=
  match fsub x y with
  | Fin d => Fin (rnd d)
  | v => v
  end.

(** [abs(x) >= t] for a finite [t]; every comparison with [nan] is
    false. *)
Definition abs_ge (x : float64) (t : Q) : bool :=
  match x with
  | NaN => false
  | Inf _ => true
  | Fin q => Qle_bool t (Qabs q)
  end.

End Float.

(** ** Rounding to binary64

    Round to nearest, ties to even, with the 53 bits of a binary64
    significand.  The exponent range is not modelled: no quantity of
    the source comes near the overflow or underflow threshold. *)

Module Binary64.

Definition pow2 (e : Z) : Q := 2 ^ e.

(** The integer nearest to [y], the even one of two equally near. *)
Definition nearest_even (y : Q) : Z :=
  let f := Qfloor y in
  match Qcompare (y - inject_Z f) (1 # 2) with
  | Lt => f
  | Gt => (f + 1)%Z
  | Eq => if Z.even f then f else (f + 1)%Z
  end.

(** For [x > 0], the exponent [e] of the unit in the last place:
    [2^52 <= x / 2^e < 2^53].  The bit lengths of numerator and
    denominator give it up to one. *)
Definition ulp_exponent (x : Q) : Z :=
  let e0 := (Z.log2 (Qnum x) - Z.log2 (Zpos (Qden x)) - 52)%Z in
  if Qle_bool (pow2 52) (x / pow2 e0) then e0 else (e0 - 1)%Z.

Definition round_pos (x : Q) : Q :=
  let e := ulp_exponent x in
  inject_Z (nearest_even (x / pow2 e)) * pow2 e.

Definition round (x : Q) : Q :=
  match Qcompare x 0 with
  | Eq => 0
  | Gt => round_pos x
  | Lt => - round_pos (- x)
  end.

End Binary64.
Import Float.

(** ** Reductions over a column *)

Definition count_true (l : list bool) : nat :=
  length (filter (fun b => b) l).

Definition Qsum (l : list Q) : Q := fold_right Qplus 0 l.

Definition Qlen {A} (l : list A) : Q := inject_Z (Z.of_nat (length l)).

(** [Series.mean()]: [nan] on an empty column. *)
Definition Series_mean (l : list Q) : float64 :=
  match l with
  | [] => NaN
  | _ => Fin (Qsum l / Qlen l)
  end.

Definition Qmax (x y : Q) : Q := if Qle_bool x y then y else x.
Definition Qmin (x y : Q) : Q := if Qle_bool x y then x else y.

(** [Series.max()] and [Series.min()]: [nan] on an empty column. *)
Definition Series_max (l : list Q) : float64 :=
  match l with
  | [] => NaN
  | x :: t => Fin (fold_left Qmax t x)
  end.

Definition Series_min (l : list Q) : float64 :=
  match l with
  | [] => NaN
  | x :: t => Fin (fold_left Qmin t x)
  end.

(** ** Streak analysis ([calculate_statistics], the loop over
       [self.data['is_noise']]) *)

Module Streak.

(** One iteration of the loop; the state is
    [(current_streak, consecutive_noise)]. *)
Definition step (st : nat * list nat) (is_noise : bool) : nat * list nat :=
  let '(current_streak, consecutive_noise) := st in
  if is_noise
  then (S current_streak, consecutive_noise)
  else (0%nat,
        if (0 <? current_streak)%nat
        then consecutive_noise ++ [current_streak]
        else consecutive_noise).

(** The [if current_streak > 0: ... append] after the loop. *)
Definition flush (st : nat * list nat) : list nat :=
  let '(current_streak, consecutive_noise) := st in
  if (0 <? current_streak)%nat
  then consecutive_noise ++ [current_streak]
  else consecutive_noise.

Definition consecutive_noise (flags : list bool) : list nat :=
  flush (fold_left step flags (0%nat, [])).

(** [np.mean(consecutive_noise) * interval if consecutive_noise else 0] *)
Definition avg_seconds (runs : list nat) (interval : Q) : Q :=
  match runs with
  | [] => 0
  | _ => (inject_Z (Z.of_nat (fold_right Nat.add 0%nat runs)) / Qlen runs)
         * interval
  end.

(** [max(consecutive_noise) * interval if consecutive_noise else 0] *)
Definition max_seconds (runs : list nat) (interval : Q) : Q :=
  match runs with
  | [] => 0
  | _ => inject_Z (Z.of_nat (fold_right Nat.max 0%nat runs)) * interval
  end.

(** *** The specification side: run-length encoding.

    [rle] groups a list of flags into maximal blocks of equal
    consecutive flags; the streaks are the lengths of the [true]
    blocks, in order. *)
Fixpoint rle (l : list bool) : list (bool * nat) :=
  match l with
  | [] => []
  | b :: t =>
      match rle t with
      | (b', k) :: r =>
          if eqb b b' then (b, S k) :: r else (b, 1%nat) :: (b', k) :: r
      | [] => [(b, 1%nat)]
      end
  end.

Definition unrle (g : list (bool * nat)) : list bool :=
  flat_map (fun p => repeat (fst p) (snd p)) g.

Definition true_runs (l : list bool) : list nat :=
  map snd (filter fst (rle l)).

(** Blocks are maximal: neighbouring blocks carry different flags. *)
Fixpoint alternating (g : list (bool * nat)) : Prop :=
  match g with
  | p :: ((q :: _) as r) => fst p <> fst q /\ alternating r
  | _ => True
  end.

End Streak.

(** ** Variance and standard deviation

    [Series.std()] is pandas' [nanops.nanstd]: the square root of
    [nanvar] with the default [ddof = 1].  A square root is kept
    symbolically, as the value whose square is the radicand. *)

Inductive root : Type :=
| Sqrt (radicand : float64).

(** [nanops.nanvar]: [count = len(values)], [d = count - ddof]; when
    [count <= ddof] the result is [nan]; otherwise
    [avg = values.sum() / count], [sqr = (avg - values) ** 2],
    [result = sqr.sum() / d]. *)
Definition nanvar (ddof : nat) (values : list Q) : float64 :=
  let count := length values in
  if (count <=? ddof)%nat then NaN
  else
    let avg := Qsum values / Qlen values in
    let sqr := map (fun x => (avg - x) * (avg - x)) values in
    Fin (Qsum sqr / inject_Z (Z.of_nat (count - ddof))).

Definition Series_std (values : list Q) : root := Sqrt (nanvar 1 values).

(** [lo < s] and [s < hi] for a root [s] and non-negative finite
    bounds; false on [nan]. *)
Definition root_gt (s : root) (lo : Q) : bool :=
  match s with
  | Sqrt (Fin v) => Qltb (lo * lo) v
  | Sqrt (Inf false) => true
  | Sqrt _ => false
  end.

Definition root_lt (s : root) (hi : Q) : bool :=
  match s with
  | Sqrt (Fin v) => Qltb v (hi * hi)
  | Sqrt _ => false
  end.

(** The real number a root denotes, [None] for [nan] (and for the
    root of an infinity, which no column produces). *)
Definition root_value (s : root) : option R :=
  match s with
  | Sqrt (Fin v) => Some (sqrt (Q2R v))
  | Sqrt _ => None
  end.

(** ** Exceptions *)

Inductive exn : Type :=
| KeyError (key : string)
| IndexError
| ZeroDivisionError
| ValueError
| TypeError
| OSError.

Inductive outcome (A : Type) : Type :=
| Return (a : A)
| Raise (e : exn).
Arguments Return {A} a.
Arguments Raise {A} e.

(** ** Rolling windows ([Series.rolling(window, center=True,
       min_periods=1)]) *)

Module Rolling.

(** [np.clip] *)
Definition clip (x lo hi : Z) : Z := Z.min (Z.max x lo) hi.

(** pandas' [FixedWindowIndexer.get_window_bounds] with [center=True]
    and the default [closed='right']:
    [offset = (window_size - 1) // 2],
    [end = i + 1 + offset], [start = end - window_size], both clipped
    to [0, num_values]. *)
Definition window_bounds (window_size num_values i : Z) : Z * Z :=
  let offset := ((window_size - 1) / 2)%Z in
  let end_ := (i + 1 + offset)%Z in
  let start := (end_ - window_size)%Z in
  (clip start 0 num_values, clip end_ 0 num_values).

(** [values[start:end]] for [0 <= start], [0 <= end]. *)
Definition slice {A} (start end_ : Z) (values : list A) : list A :=
  firstn (Z.to_nat (end_ - start)) (skipn (Z.to_nat start) values).

Definition window (window_size : Z) (values : list Q) (i : nat) : list Q :=
  let '(start, end_) :=
    window_bounds window_size (Z.of_nat (length values)) (Z.of_nat i) in
  slice start end_ values.

(** The windows of a column, one per position; pandas refuses a
    negative window and [min_periods > window] with a [ValueError]. *)
Definition windows (window_size : Z) (min_periods : nat) (values : list Q)
  : outcome (list (list Q)) :=
  if (window_size <? 0)%Z || (window_size <? Z.of_nat min_periods)%Z
  then Raise ValueError
  else Return (map (window window_size values) (seq 0 (length values))).

(** [.mean()]: [nan] where the window holds fewer than [min_periods]
    observations. *)
Definition mean (window_size : Z) (min_periods : nat) (values : list Q)
  : outcome (list float64) :=
  match windows window_size min_periods values with
  | Raise e => Raise e
  | Return ws =>
      Return (map (fun w => if (length w <? min_periods)%nat then NaN
                            else Series_mean w) ws)
  end.

(** [.std()]: [ddof = 1]; [nan] where the window holds fewer than
    [min_periods] observations or no more than [ddof]. *)
Definition std (window_size : Z) (min_periods : nat) (values : list Q)
  : outcome (list root) :=
  match windows window_size min_periods values with
  | Raise e => Raise e
  | Return ws =>
      Return (map (fun w => if (length w <? min_periods)%nat then Sqrt NaN
                            else Series_std w) ws)
  end.

End Rolling.

(** ** The analyzer's state *)

(** [self.data]: the column ['dB'] and the columns [preprocess_data]
    adds. *)
Record DataFrame : Type := mkDataFrame {
  dB : list Q;
  dB_smoothed : option (list float64);
  is_noise : option (list bool);
  is_rem : option (list bool)
}.

(** One entry of ['시간대별_품질'] (keys ['hour'], ['avg_db'],
    ['deep_sleep_%'], ['restless_%']). *)
Record HourBucket : Type := mkHourBucket {
  hour : Z;
  avg_db : float64;
  hour_deep_sleep_pct : float64;
  hour_restless_pct : float64
}.

(** The ten keys of the dictionary literal assigned to [self.stats]:
    ['총_측정_횟수'], ['총_측정_시간_분'], ['소음_구간_횟수'],
    ['소음_구간_비율_%'], ['평균_dB'], ['최대_dB'], ['최소_dB'],
    ['표준편차_dB'], ['연속_소음_구간_평균_길이_초'],
    ['최장_연속_소음_구간_초']. *)
Record Scalars : Type := mkScalars {
  total_samples : nat;
  total_duration_minutes : Q;
  noise_sample_count : nat;
  noise_ratio_pct : float64;
  mean_db : float64;
  max_db : float64;
  min_db : float64;
  stddev_db : root;
  avg_noise_streak_seconds : Q;
  max_noise_streak_seconds : Q
}.

(** ['깊은수면_비율_%'], ['얕은수면_비율_%'], ['뒤척임_비율_%'],
    ['수면방해_비율_%']. *)
Record Bands : Type := mkBands {
  deep_sleep_pct : float64;
  light_sleep_pct : float64;
  restless_pct : float64;
  disturbed_pct : float64
}.

(** [self.stats]: the literal, then the keys added one statement at a
    time; a key not yet added is [None].  ['폰_사용_시간_분'] and
    ['게임_시간_분'] are added by [HypothesisTest.analyze_condition]. *)
Record Stats : Type := mkStats {
  scalars : Scalars;
  rem_sleep_pct : option float64;
  first_hour_noise_ratio_pct : option float64;
  bands : option Bands;
  hourly_quality : option (list HourBucket);
  phone_usage_minutes : option Q;
  game_minutes : option Q
}.

(** [stats = None] is the empty dictionary of [__init__]. *)
Record SleepAnalyzer : Type := mkSleepAnalyzer {
  threshold_db : Q;
  data : option DataFrame;
  stats : option Stats;
  measurement_interval : Q
}.

(** [SleepAnalyzer(threshold_db=40)] *)
Definition init (threshold : Q) : SleepAnalyzer :=
  mkSleepAnalyzer threshold None None 1.

Definition default_threshold_db : Q := 40.

(** The interval rule of [load_data]: the time between the first two
    records when positive, else 1. *)
Definition infer_interval (time_diff : option Q) : Q :=
  match time_diff with
  | Some d => if Qltb 0 d then d else 1
  | None => 1
  end.

(** What a successful [load_data] leaves in the analyzer, given the
    parsed ['dB'] column and the seconds between the first two
    timestamps ([None] without a usable time column): the interval is
    inferred only from a frame of more than one record. *)
Definition load_data (self : SleepAnalyzer) (column : list Q)
  (time_diff : option Q) : SleepAnalyzer :=
  mkSleepAnalyzer (threshold_db self)
                  (Some (mkDataFrame column None None None))
                  (stats self)
                  (match column with
                   | _ :: _ :: _ => infer_interval time_diff
                   | _ => 1
                   end).

Definition set_data (self : SleepAnalyzer) (df : DataFrame) : SleepAnalyzer :=
  mkSleepAnalyzer (threshold_db self) (Some df) (stats self)
                  (measurement_interval self).

Definition set_stats (self : SleepAnalyzer) (st : Stats) : SleepAnalyzer :=
  mkSleepAnalyzer (threshold_db self) (data self) (Some st)
                  (measurement_interval self).

(** ** [preprocess_data] *)

Definition default_window_size : Z := 5.

Definition rem_flag (avg : float64) (x : Q) (s : root) : bool :=
  match avg with
  | Fin m => Qltb x m && root_gt s (3 # 2) && root_lt s 4
  | _ => false
  end.

Definition preprocess_data (self : SleepAnalyzer) (window_size : Z)
  : outcome unit * SleepAnalyzer :=
  match data self with
  | None => (Return tt, self)
  | Some df =>
      match Rolling.mean window_size 1 (dB df) with
      | Raise e => (Raise e, self)
      | Return smoothed =>
          let noise := map (fun x => Qle_bool (threshold_db self) x) (dB df) in
          match Rolling.std 60 1 (dB df) with
          | Raise e =>
              (Raise e,
               set_data self (mkDataFrame (dB df) (Some smoothed) (Some noise)
                                          (is_rem df)))
          | Return window_std =>
              let avg_db := Series_mean (dB df) in
              let rem := map (fun p => rem_flag avg_db (fst p) (snd p))
                             (combine (dB df) window_std) in
              (Return tt,
               set_data self (mkDataFrame (dB df) (Some smoothed) (Some noise)
                                          (Some rem)))
          end
      end
  end.

(** ** [calculate_statistics] *)

(** [int(x)]: truncation toward zero. *)
Definition int_of (x : Q) : Z :=
  if Qle_bool 0 x then Qfloor x else Qceiling x.

(** [series.iloc[:stop]]; a negative [stop] counts from the end. *)
Definition iloc_until {A} (stop : Z) (l : list A) : list A :=
  if (0 <=? stop)%Z then firstn (Z.to_nat stop) l
  else firstn (length l - Z.to_nat (- stop)) l.

(** [(count / total) * 100] with [count] a numpy integer. *)
Definition pct (count total : Z) : float64 := fscale (np_div count total) 100.

(** The four band tests on one decibel value. *)
Definition in_deep (x : Q) : bool := Qltb x 30.
Definition in_light (x : Q) : bool := Qle_bool 30 x && Qltb x 35.
Definition in_restless (x : Q) : bool := Qle_bool 35 x && Qltb x 40.
Definition in_disturbed (x : Q) : bool := Qle_bool 40 x.

(** [(mask).sum()] *)
Definition count_if (p : Q -> bool) (l : list Q) : Z :=
  Z.of_nat (length (filter p l)).

Definition band_percentages (values : list Q) : Bands :=
  let total_records := Z.of_nat (length values) in
  let deep_sleep := count_if in_deep values in
  let light_sleep := count_if in_light values in
  let restless := count_if in_restless values in
  let disturbed := count_if in_disturbed values in
  mkBands (pct deep_sleep total_records) (pct light_sleep total_records)
          (pct restless total_records) (pct disturbed total_records).

(** [np.arange(len(self.data)) * self.measurement_interval / 3600] *)
Definition time_hours (n : nat) (interval : Q) : list Q :=
  map (fun i => inject_Z (Z.of_nat i) * interval / 3600) (seq 0 n).

(** [range(k)] *)
Definition range (k : Z) : list Z := map Z.of_nat (seq 0 (Z.to_nat k)).

(** [self.data.loc[hour_mask, 'dB']] for
    [hour_mask = (time_hours >= hour) & (time_hours < hour + 1)]. *)
Definition hour_data (times values : list Q) (h : Z) : list Q :=
  map snd
      (filter (fun p => Qle_bool (inject_Z h) (fst p)
                        && Qltb (fst p) (inject_Z (h + 1)))
              (combine times values)).

Definition hour_entry (times values : list Q) (h : Z) : list HourBucket :=
  let hd := hour_data times values h in
  match hd with
  | [] => []
  | _ =>
      [mkHourBucket h (Series_mean hd)
         (pct (count_if in_deep hd) (Z.of_nat (length hd)))
         (pct (count_if in_restless hd) (Z.of_nat (length hd)))]
  end.

(** The loop [for hour in range(int(np.ceil(time_hours[-1])))];
    [time_hours[-1]] raises [IndexError] on an empty array. *)
Definition hourly (values : list Q) (interval : Q)
  : outcome (list HourBucket) :=
  let times := time_hours (length values) interval in
  match rev times with
  | [] => Raise IndexError
  | last :: _ =>
      Return (flat_map (hour_entry times values) (range (Qceiling last)))
  end.

Definition with_rem (st : Stats) (v : float64) : Stats :=
  mkStats (scalars st) (Some v) (first_hour_noise_ratio_pct st) (bands st)
          (hourly_quality st) (phone_usage_minutes st) (game_minutes st).

Definition with_first_hour (st : Stats) (v : float64) : Stats :=
  mkStats (scalars st) (rem_sleep_pct st) (Some v) (bands st)
          (hourly_quality st) (phone_usage_minutes st) (game_minutes st).

Definition with_bands (st : Stats) (b : Bands) : Stats :=
  mkStats (scalars st) (rem_sleep_pct st) (first_hour_noise_ratio_pct st)
          (Some b) (hourly_quality st) (phone_usage_minutes st)
          (game_minutes st).

Definition with_hourly (st : Stats) (h : list HourBucket) : Stats :=
  mkStats (scalars st) (rem_sleep_pct st) (first_hour_noise_ratio_pct st)
          (bands st) (Some h) (phone_usage_minutes st) (game_minutes st).

Definition with_experiment (st : Stats) (phone game : Q) : Stats :=
  mkStats (scalars st) (rem_sleep_pct st) (first_hour_noise_ratio_pct st)
          (bands st) (hourly_quality st) (Some phone) (Some game).

(** [analyze_condition], after the analysis: with a non-empty
    [experiment_info] the two experiment keys are set from it, 0 where
    it has no such key. *)
Definition add_experiment_info (stats_result : Stats)
  (experiment_info : option (gmap string Q)) : Stats :=
  match experiment_info with
  | Some info =>
      if decide (info = ∅) then stats_result
      else with_experiment stats_result
             (default 0 (info !! "폰사용시간(분)"%string))
             (default 0 (info !! "게임시간(분)"%string))
  | None => stats_result
  end.

(** The dictionary literal assigned to [self.stats]. *)
Definition scalar_stats (values : list Q) (flags : list bool) (interval : Q)
  : Scalars :=
  let total_records := length values in
  let noise_records := count_true flags in
  let noise_ratio := pct (Z.of_nat noise_records) (Z.of_nat total_records) in
  let consecutive_noise := Streak.consecutive_noise flags in
  let total_seconds := inject_Z (Z.of_nat total_records) * interval in
  mkScalars total_records (total_seconds / 60) noise_records noise_ratio
            (Series_mean values) (Series_max values) (Series_min values)
            (Series_std values)
            (Streak.avg_seconds consecutive_noise interval)
            (Streak.max_seconds consecutive_noise interval).

(** [first_hour_noise / first_hour_count * 100], after
    [first_hour_records = int(3600 / interval)] and
    [first_hour_count = min(first_hour_records, total_records)]. *)
Definition first_hour_ratio (flags : list bool) (total_records : nat)
  (interval : Q) : float64 :=
  let first_hour_records := int_of (3600 / interval) in
  let first_hour_count := Z.min first_hour_records (Z.of_nat total_records) in
  let first_hour_noise := count_true (iloc_until first_hour_count flags) in
  pct (Z.of_nat first_hour_noise) first_hour_count.

(** The method returns [None] when no data is loaded, the dictionary
    otherwise; when a statement raises, [self.stats] keeps what was
    stored up to that statement. *)
Definition calculate_statistics (self : SleepAnalyzer)
  : outcome (option Stats) * SleepAnalyzer :=
  match data self with
  | None => (Return None, self)
  | Some df =>
      match is_noise df with
      | None => (Raise (KeyError "is_noise"), self)
      | Some flags =>
          let interval := measurement_interval self in
          let total_records := length (dB df) in
          let st0 := mkStats (scalar_stats (dB df) flags interval)
                             None None None None None None in
          let st1 :=
            match is_rem df with
            | Some rem =>
                with_rem st0 (pct (Z.of_nat (count_true rem))
                                  (Z.of_nat total_records))
            | None => st0
            end in
          if Qeq_bool interval 0
          then (Raise ZeroDivisionError, set_stats self st1)
          else
            let st2 :=
              with_first_hour st1
                (first_hour_ratio flags total_records interval) in
            let st3 := with_bands st2 (band_percentages (dB df)) in
            match hourly (dB df) interval with
            | Raise e => (Raise e, set_stats self st3)
            | Return hourly_quality =>
                let st4 := with_hourly st3 hourly_quality in
                (Return (Some st4), set_stats self st4)
            end
      end
  end.

(** A frame as [preprocess_data] leaves it: every column as long as
    ['dB'], the noise column present. *)
Definition annotated (df : DataFrame) (flags : list bool) : Prop :=
  is_noise df = Some flags /\ length flags = length (dB df).

(** ** [HypothesisTest] *)

Module HypothesisTest.

(** [self.condition_stats] maps a condition name to the dictionary
    [calculate_statistics] returned for it (with the experiment keys
    added by [analyze_condition]); [self.results], the analyzers per
    condition, is used for plotting only. *)
Record t : Type := mk {
  threshold_db : Q;
  condition_stats : gmap string Stats
}.

(** [self.condition_stats[condition_name] = stats_result] *)
Definition register (self : t) (condition_name : string) (stats_result : Stats)
  : t :=
  mk (threshold_db self)
     (<[condition_name := stats_result]> (condition_stats self)).

(** The entries of [key_metrics], in the order of the source:
    ['소음_구간_비율_%'], ['평균_dB'], ['최대_dB'],
    ['연속_소음_구간_평균_길이_초'], ['수면초반1시간_소음비율_%'],
    ['폰_사용_시간_분']. *)
Inductive metric : Type :=
| NoiseRatio
| MeanDb
| MaxDb
| AvgStreak
| FirstHourNoiseRatio
| PhoneUsageMinutes.

Definition key_metrics : list metric :=
  [NoiseRatio; MeanDb; MaxDb; AvgStreak; FirstHourNoiseRatio;
   PhoneUsageMinutes].

(** The value under a key of a condition's dictionary, [None] when the
    key is absent. *)
Definition get (m : metric) (st : Stats) : option float64 :=
  match m with
  | NoiseRatio => Some (noise_ratio_pct (scalars st))
  | MeanDb => Some (mean_db (scalars st))
  | MaxDb => Some (max_db (scalars st))
  | AvgStreak => Some (Fin (avg_noise_streak_seconds (scalars st)))
  | FirstHourNoiseRatio => first_hour_noise_ratio_pct st
  | PhoneUsageMinutes => option_map Fin (phone_usage_minutes st)
  end.

(** [m in comparison_df.columns]: the columns of
    [pd.DataFrame(self.condition_stats).T] are the keys that occur in
    some condition. *)
Definition is_column (stats : gmap string Stats) (m : metric) : bool :=
  existsb (fun kv => match get m (snd kv) with
                    | Some _ => true
                    | None => false
                    end)
          (map_to_list stats).

(** A cell of the frame: [nan] where the condition lacks the key. *)
Definition cell (st : Stats) (m : metric) : float64 :=
  match get m st with
  | Some v => v
  | None => NaN
  end.

(** The returned frame: its columns and, per condition name, the row
    of cells in column order. *)
Record ComparisonTable : Type := mkTable {
  columns : list metric;
  rows : gmap string (list float64)
}.

(** [compare_conditions]: [None] (after a message) with fewer than two
    conditions, the frame restricted to [available_metrics]
    otherwise. *)
Definition compare_conditions (self : t) : option ComparisonTable :=
  if (size (condition_stats self) <? 2)%nat then None
  else
    let available_metrics :=
      filter (is_column (condition_stats self)) key_metrics in
    Some (mkTable available_metrics
            ((fun st => map (cell st) available_metrics)
               <$> condition_stats self)).

(** ['가설_판정']: ['지지'] or ['기각']. *)
Inductive verdict : Type :=
| Supported
| Rejected.

(** The dictionary [test_hypothesis2] returns: the data lists, the
    correlation keys (present with two or more usage values) and the
    keys of the A/B comparison (present when both conditions exist). *)
Record H2Result : Type := mkH2 {
  phone_times : list Q;
  noise_ratios : list float64;
  pearson : option (float64 * float64);
  noise_A : option float64;
  noise_B : option float64;
  difference_pct_points : option float64;
  decision : option verdict
}.

Definition default_significance_threshold : Q := 5.

Section Hypothesis2.

(** [scipy.stats.pearsonr], an external routine: the coefficient and
    its p-value. *)
Variable pearsonr : list Q -> list float64 -> float64 * float64.

(** The rounding of binary64 arithmetic ([Binary64.round]); the one
    arithmetic operation of the method is the subtraction. *)
Variable rnd : Q -> Q.

Definition usage_data (stats : gmap string Stats) : list (Q * float64) :=
  flat_map (fun kv =>
              match phone_usage_minutes (snd kv) with
              | Some p => [(p, noise_ratio_pct (scalars (snd kv)))]
              | None => []
              end)
           (map_to_list stats).

Definition test_hypothesis2 (self : t) (significance_threshold : Q)
  : H2Result :=
  let usage := usage_data (condition_stats self) in
  let phone_times := map fst usage in
  let noise_ratios := map snd usage in
  let correlation :=
    if (2 <=? length phone_times)%nat
    then Some (pearsonr phone_times noise_ratios)
    else None in
  match condition_stats self !! "A"%string,
        condition_stats self !! "B"%string with
  | Some stats_A, Some stats_B =>
      let noise_A := noise_ratio_pct (scalars stats_A) in
      let noise_B := noise_ratio_pct (scalars stats_B) in
      let difference := fsub_rnd rnd noise_B noise_A in
      mkH2 phone_times noise_ratios correlation
           (Some noise_A) (Some noise_B) (Some difference)
           (Some (if abs_ge difference significance_threshold
                  then Supported else Rejected))
  | _, _ =>
      mkH2 phone_times noise_ratios correlation None None None None
  end.

End Hypothesis2.

End HypothesisTest.

(** A loaded, preprocessed, non-empty analyzer: the state in which the
    callers of the source invoke [calculate_statistics]. *)
Definition ready (self : SleepAnalyzer) (df : DataFrame) (flags : list bool)
  : Prop :=
  data self = Some df /\ annotated df flags /\ dB df <> []
  /\ 0 < measurement_interval self.

(** ** Rounded arithmetic

    The exact embedding above leaves rounding out.  Here the
    percentages and the first-hour ratio are given with every
    operation followed by a rounding function [rnd], to be read as
    binary64 round-to-nearest. *)

Module Rounded.

(** The unit roundoff of binary64, 2^-53. *)
Definition unit_roundoff : Q := 1 # 9007199254740992.

(** [(count / total) * 100], both operations rounded. *)
Definition pct (rnd : Q -> Q) (count total : Z) : Q :=
  rnd (rnd (inject_Z count / inject_Z total) * 100).

(** [d + l + r + x], added from left to right. *)
Definition sum4 (rnd : Q -> Q) (d l r x : Q) : Q :=
  rnd (rnd (rnd (d + l) + r) + x).

Definition band_sum (rnd : Q -> Q) (values : list Q) : Q :=
  let total_records := Z.of_nat (length values) in
  sum4 rnd (pct rnd (count_if in_deep values) total_records)
           (pct rnd (count_if in_light values) total_records)
           (pct rnd (count_if in_restless values) total_records)
           (pct rnd (count_if in_disturbed values) total_records).

Fixpoint pw (b : Q) (k : nat) : Q :=
  match k with
  | O => 1
  | S k' => b * pw b k'
  end.

(** [x] is the exact value [t] up to [k] roundings. *)
Definition within (k : nat) (x t : Q) : Prop :=
  t * pw (1 - unit_roundoff) k <= x /\ x <= t * pw (1 + unit_roundoff) k.

(** What the properties use of a round to nearest with 53 bits: it
    respects equality of rationals, errs by at most the unit roundoff
    (relative to the exact value), is monotone and odd, and leaves
    every number with a significand of at most 53 bits as it is.
    [Binary64.round] has all of it (lemma [binary64_round]). *)
Record round_to_nearest (rnd : Q -> Q) : Prop := mkNearest {
  nearest_proper : forall x y, x == y -> rnd x == rnd y;
  nearest_relative : forall q, Qabs (rnd q - q) <= unit_roundoff * Qabs q;
  nearest_monotone : forall x y, x <= y -> rnd x <= rnd y;
  nearest_opp : forall x, rnd (- x) == - rnd x;
  nearest_representable :
    forall m k : Z, (Z.abs m <= 2 ^ 53)%Z ->
                    rnd (inject_Z m * Binary64.pow2 k)
                    == inject_Z m * Binary64.pow2 k
}.

(** [(count / total) * 100] as the float the source stores: numpy's
    [nan] or [inf] for a zero total, the twice rounded value
    otherwise. *)
Definition fpct (rnd : Q -> Q) (count total : Z) : float64 :=
  match np_div count total with
  | Fin _ => Fin (pct rnd count total)
  | v => fscale v 100
  end.

(** The first-hour ratio with its roundings:
    [first_hour_records = int(3600 / interval)] takes the integer part
    of the rounded quotient. *)
Definition first_hour_ratio (rnd : Q -> Q) (flags : list bool)
  (total_records : nat) (interval : Q) : float64 :=
  let first_hour_records := int_of (rnd (3600 / interval)) in
  let first_hour_count := Z.min first_hour_records (Z.of_nat total_records) in
  let first_hour_noise := count_true (iloc_until first_hour_count flags) in
  fpct rnd (Z.of_nat first_hour_noise) first_hour_count.

End Rounded.

(** ** Specification-side quantities *)

(** The specification's wording: the mean, and the sum of squared
    deviations from it. *)
Definition mean_of (values : list Q) : Q := Qsum values / Qlen values.

Definition sum_sq_dev (values : list Q) : Q :=
  Qsum (map (fun x => (x - mean_of values) * (x - mean_of values)) values).

(** The dictionary a ready analyzer gets. *)
Definition stats_of (df : DataFrame) (flags : list bool) (interval : Q)
  (hq : list HourBucket) : Stats :=
  mkStats (scalar_stats (dB df) flags interval)
          (option_map (fun rem => pct (Z.of_nat (count_true rem))
                                      (Z.of_nat (length (dB df))))
                      (is_rem df))
          (Some (first_hour_ratio flags (length (dB df)) interval))
          (Some (band_percentages (dB df)))
          (Some hq) None None.

(** ** Example analyzers and registries *)

(** The series of the run-length example of the specification, as
    decibel values against the default threshold. *)
Definition example_series : list Q :=
  [30; 45; 45; 30; 45; 30; 30; 45; 45; 45].

Definition example_flags : list bool :=
  [false; true; true; false; true; false; false; true; true; true].

Definition example_loaded : SleepAnalyzer :=
  load_data (init default_threshold_db) example_series (Some 5).

Definition example_analyzer : SleepAnalyzer :=
  snd (preprocess_data example_loaded default_window_size).

Definition example_frame : DataFrame :=
  match data example_analyzer with
  | Some df => df
  | None => mkDataFrame [] None None None
  end.

(** An analyzer whose file held a header and no record, after
    [preprocess_data()]. *)
Definition empty_analyzer : SleepAnalyzer :=
  snd (preprocess_data (load_data (init default_threshold_db) [] None)
                       default_window_size).

Definition empty_frame : DataFrame :=
  mkDataFrame [] (Some []) (Some []) (Some []).

(** One sample; and two samples an hour apart. *)
Definition single_sample_analyzer : SleepAnalyzer :=
  snd (preprocess_data (load_data (init default_threshold_db) [25] None)
                       default_window_size).

Definition hour_apart_analyzer : SleepAnalyzer :=
  snd (preprocess_data
         (load_data (init default_threshold_db) [25; 45] (Some 3600))
         default_window_size).

(** The binary64 numbers nearest to 0.1 and to 5.1. *)
Definition double_0_1 : Q := 3602879701896397 # 36028797018963968.
Definition double_5_1 : Q := 2871044762448691 # 562949953421312.

(** A condition's dictionary with a given noise ratio; the other
    entries play no part in the A/B comparison. *)
Definition condition_with_noise_ratio (ratio : Q) : Stats :=
  mkStats
    (mkScalars 10 (5 # 6) 6 (Fin ratio) (Fin 40) (Fin 45) (Fin 30)
               (Sqrt (Fin 60)) 10 15)
    None (Some (Fin ratio)) None (Some []) None None.

Definition registry_AB (ratio_A ratio_B : Q) : HypothesisTest.t :=
  HypothesisTest.register
    (HypothesisTest.register (HypothesisTest.mk default_threshold_db ∅) "A"
                              (condition_with_noise_ratio ratio_A))
    "B" (condition_with_noise_ratio ratio_B).

(** * The rest of the two classes and their callers *)

(** ** [print_statistics], [generate_report] and the threshold setting *)

(** [if not self.stats: self.calculate_statistics()]: the statistics
    are computed only while [self.stats] is the empty dictionary; the
    returned value is dropped. *)
Definition ensure_stats (self : SleepAnalyzer) : outcome unit * SleepAnalyzer :=
  match stats self with
  | Some _ => (Return tt, self)
  | None =>
      match calculate_statistics self with
      | (Return _, self') => (Return tt, self')
      | (Raise e, self') => (Raise e, self')
      end
  end.

(** What [print_statistics] shows of a dictionary: every entry but the
    list-valued one (['시간대별_품질']), which the loop skips. *)
Definition printed_entries (st : Stats) : Stats :=
  mkStats (scalars st) (rem_sleep_pct st) (first_hour_noise_ratio_pct st)
          (bands st) None (phone_usage_minutes st) (game_minutes st).

(** [print_statistics]: the entries printed between the two rules
    ([None]: nothing but the header, the dictionary being empty). *)
Definition print_statistics (self : SleepAnalyzer)
  : outcome (option Stats) * SleepAnalyzer :=
  match ensure_stats self with
  | (Raise e, self') => (Raise e, self')
  | (Return _, self') => (Return (option_map printed_entries (stats self')), self')
  end.

(** [os.path.join(save_dir, name)] for a relative [name] (POSIX);
    character 47 is the separator ['/']. *)
Definition path_join (save_dir name : string) : string :=
  match String.get (String.length save_dir - 1) save_dir with
  | None => name
  | Some c =>
      if Ascii.eqb c (Ascii.ascii_of_nat 47) then (save_dir ++ name)%string
      else (save_dir ++ "/" ++ name)%string
  end.

(** The text [generate_report] writes, without the timestamp line: the
    condition of the title, the threshold line and one line per entry
    of [self.stats]. *)
Record Report : Type := mkReport {
  report_condition : string;
  report_threshold : Q;
  report_entries : option Stats
}.

(** The file system as [generate_report] meets it: whether
    [os.makedirs(save_dir, exist_ok=True)] and [open(report_file, 'w')]
    with the writes that follow succeed is the environment's. *)
Record FileSystem : Type := mkFileSystem {
  makedirs : string -> outcome unit;
  open_write : string -> outcome unit
}.

(** [os.makedirs(path, exist_ok=True)]: the empty path is refused
    whatever the environment ([FileNotFoundError], an [OSError]). *)
Definition os_makedirs (fs : FileSystem) (path : string) : outcome unit :=
  if String.eqb path "" then Raise OSError else makedirs fs path.

(** [generate_report]: the file name returned and the text written.
    The statistics are ensured first, then the directory is made, then
    the file is opened and written. *)
Definition generate_report (fs : FileSystem) (self : SleepAnalyzer)
  (condition_name : string) (save_dir : string)
  : outcome (string * Report) * SleepAnalyzer :=
  match ensure_stats self with
  | (Raise e, self') => (Raise e, self')
  | (Return _, self') =>
      match os_makedirs fs save_dir with
      | Raise e => (Raise e, self')
      | Return _ =>
          let report_file :=
            path_join save_dir ("report_" ++ condition_name ++ ".txt") in
          match open_write fs report_file with
          | Raise e => (Raise e, self')
          | Return _ =>
              (Return (report_file,
                       mkReport condition_name (threshold_db self')
                                (stats self')),
               self')
          end
      end
  end.

(** A file system on which every directory can be made and every file
    written. *)
Definition writable_fs : FileSystem :=
  mkFileSystem (fun _ => Return tt) (fun _ => Return tt).

(** [self.analyzer.threshold_db = new_threshold] *)
Definition set_threshold (self : SleepAnalyzer) (new_threshold : Q)
  : SleepAnalyzer :=
  mkSleepAnalyzer new_threshold (data self) (stats self)
                  (measurement_interval self).

(** [SleepAnalysisApp.change_settings] of [menu_app.py], for the
    number typed in ([None]: Enter alone): the threshold is replaced
    and the data preprocessed again; nothing else is recomputed.  The
    statements sit in a [try] whose handler catches the [ValueError]
    that is all [preprocess_data] can raise. *)
Definition change_settings (analyzer : option SleepAnalyzer)
  (new_threshold : option Q) : option SleepAnalyzer :=
  match analyzer, new_threshold with
  | Some self, Some t =>
      Some (snd (preprocess_data (set_threshold self t) default_window_size))
  | _, _ => analyzer
  end.

(** The noise column [preprocess_data] computes. *)
Definition noise_flags (threshold : Q) (values : list Q) : list bool :=
  map (fun x => Qle_bool threshold x) values.

(** The three columns [preprocess_data] computes, as functions of the
    ['dB'] column, the threshold and the window. *)
Definition smoothed_column (window_size : Z) (values : list Q) : list float64 :=
  map (fun win => if (length win <? 1)%nat then NaN else Series_mean win)
      (map (Rolling.window window_size values) (seq 0 (length values))).

Definition rolling_std_column (values : list Q) : list root :=
  map (fun win => if (length win <? 1)%nat then Sqrt NaN else Series_std win)
      (map (Rolling.window 60 values) (seq 0 (length values))).

Definition rem_flags (values : list Q) : list bool :=
  map (fun p => rem_flag (Series_mean values) (fst p) (snd p))
      (combine values (rolling_std_column values)).

Definition preprocessed (self : SleepAnalyzer) (df : DataFrame)
  (window_size : Z) : SleepAnalyzer :=
  set_data self
    (mkDataFrame (dB df) (Some (smoothed_column window_size (dB df)))
                 (Some (noise_flags (threshold_db self) (dB df)))
                 (Some (rem_flags (dB df)))).

(** ** Sums and means in binary64 *)

Module RoundedSum.

(** A float sum of a list.  [Series.sum] and [np.sum] add the values
    in an order of their own (numpy: the first value plus the sum of
    the rest, which is taken from left to right starting at 0 for
    fewer than eight values and in blocks of partial sums otherwise;
    bottleneck: from left to right): in each case a tree of rounded
    additions over the values, with leaves 0 where an accumulator
    starts at 0. *)
Inductive fsum (rnd : Q -> Q) : list Q -> Q -> Prop :=
| fsum_nil : fsum rnd [] 0
| fsum_one (x : Q) : fsum rnd [x] x
| fsum_add (l l1 l2 : list Q) (s1 s2 : Q) :
    Permutation l (l1 ++ l2) -> fsum rnd l1 s1 -> fsum rnd l2 s2 ->
    fsum rnd l (rnd (s1 + s2)).

(** The sum taken from left to right, starting at 0. *)
Definition sum_seq (rnd : Q -> Q) (l : list Q) : Q :=
  fold_left (fun acc x => rnd (acc + x)) l 0.

(** [the_sum / count] *)
Definition fmean (rnd : Q -> Q) (s : Q) (n : nat) : Q :=
  rnd (s / inject_Z (Z.of_nat n)).

(** What is used of [np.mean] on a list of floats: [nan] (and a
    warning) on the empty list, and on finite values a float sum of
    them over their number. *)
Definition is_np_mean (rnd : Q -> Q) (np_mean : list float64 -> float64)
  : Prop :=
  np_mean [] = NaN
  /\ forall xs : list Q,
       xs <> [] ->
       exists s, fsum rnd xs s
                 /\ np_mean (map Fin xs) = Fin (fmean rnd s (length xs)).

End RoundedSum.

(** ** [HypothesisTest]: [analyze_condition] and [test_hypothesis1] *)

(** ['폰_사용_시간_분' in stats] for an item of [condition_stats]. *)
Definition has_usage (kv : string * Stats) : bool :=
  match phone_usage_minutes (snd kv) with Some _ => true | None => false end.

Module Tester.
Import HypothesisTest.

(** The object with [self.results], the analyzer kept per condition. *)
Record state : Type := mkState {
  tester : HypothesisTest.t;
  results : gmap string SleepAnalyzer
}.

(** [HypothesisTest(threshold_db)] *)
Definition new (threshold : Q) : state :=
  mkState (HypothesisTest.mk threshold ∅) ∅.

(** [analyze_condition] for a file that [load_data] could read, given
    as its parsed ['dB'] column and the seconds between its first two
    timestamps.  [preprocess_data()] runs with the default window and
    cannot raise.  The dictionary returned by [calculate_statistics]
    is the analyzer's own [stats] object, so the experiment keys added
    to it show in the analyzer kept under [self.results] as well.
    [calculate_statistics] returns [None] only when no data is loaded,
    which does not happen after a successful [load_data]; the files
    that cannot be read or have no ['dB'] column are those of
    [analyze_file] below. *)
Definition analyze_condition (self : state) (column : list Q)
  (time_diff : option Q) (condition_name : string)
  (experiment_info : option (gmap string Q))
  : outcome (option Stats) * state :=
  let analyzer := load_data (init (threshold_db (tester self)))
                            column time_diff in
  let analyzer := snd (preprocess_data analyzer default_window_size) in
  match calculate_statistics analyzer with
  | (Raise e, _) => (Raise e, self)
  | (Return None, _) => (Return None, self)
  | (Return (Some stats_result), analyzer') =>
      let stats_result := add_experiment_info stats_result experiment_info in
      (Return (Some stats_result),
       mkState (register (tester self) condition_name stats_result)
               (<[condition_name := set_stats analyzer' stats_result]>
                  (results self)))
  end.


(** A CSV file as [load_data] meets it: one it cannot read (missing,
    not a CSV, ...: the failure is printed and [None] returned), or one
    read into a frame, with its ['dB'] column (after ['Decibel'] is
    renamed; [None] when the frame has no such column) parsed as
    numbers and the seconds between its first two timestamps. *)
Inductive CsvFile : Type :=
| Unreadable
| Readable (dB_column : option (list Q)) (time_diff : option Q).

(** [if experiment_info:] *)
Definition truthy (experiment_info : option (gmap string Q)) : bool :=
  match experiment_info with
  | Some info => if decide (info = ∅) then false else true
  | None => false
  end.

(** The tester with the entries of [condition_stats] that are [None]:
    [unset] holds their names, [condition_stats (tester loaded)] the
    entries that are dictionaries. *)
Record full_state : Type := mkFull {
  loaded : state;
  unset : gset string
}.

Definition new_full (threshold : Q) : full_state := mkFull (new threshold) ∅.

(** [analyze_condition(csv_file, condition_name, experiment_info)].
    After a failed [load_data] the analyzer has no data:
    [preprocess_data()] returns, [calculate_statistics()] returns
    [None], the assignment of the experiment keys to [None] raises
    [TypeError], and without experiment information [None] is stored
    under the name.  On a frame without ['dB'] column
    [preprocess_data()] raises [KeyError]. *)
Definition analyze_file (self : full_state) (csv_file : CsvFile)
  (condition_name : string) (experiment_info : option (gmap string Q))
  : outcome (option Stats) * full_state :=
  let fresh := init (threshold_db (tester (loaded self))) in
  let preprocessed :=
    match csv_file with
    | Unreadable => Return fresh
    | Readable None _ => Raise (KeyError "dB")
    | Readable (Some column) time_diff =>
        Return (snd (preprocess_data (load_data fresh column time_diff)
                                     default_window_size))
    end in
  match preprocessed with
  | Raise e => (Raise e, self)
  | Return analyzer =>
      match calculate_statistics analyzer with
      | (Raise e, _) => (Raise e, self)
      | (Return None, analyzer') =>
          if truthy experiment_info then (Raise TypeError, self)
          else
            (Return None,
             mkFull (mkState (mk (threshold_db (tester (loaded self)))
                                 (delete condition_name
                                    (condition_stats (tester (loaded self)))))
                             (<[condition_name := analyzer']>
                                (results (loaded self))))
                    ({[condition_name]} ∪ unset self))
      | (Return (Some stats_result), analyzer') =>
          let stats_result :=
            add_experiment_info stats_result experiment_info in
          (Return (Some stats_result),
           mkFull (mkState (register (tester (loaded self)) condition_name
                                     stats_result)
                           (<[condition_name := set_stats analyzer' stats_result]>
                              (results (loaded self))))
                  (unset self ∖ {[condition_name]}))
      end
  end.

(** The dictionary [test_hypothesis1] returns: ['조건별_소음비율'] and
    ['평균_소음비율_%'] (the two text entries are constant). *)
Record H1Result : Type := mkH1 {
  noise_ratio_by_condition : gmap string float64;
  average_noise_ratio : float64
}.

(** [test_hypothesis1] on a registry of dictionaries; [np_mean] is
    numpy's mean. *)
Definition test_hypothesis1 (np_mean : list float64 -> float64) (self : t)
  : H1Result :=
  let ratios := (fun st => noise_ratio_pct (scalars st))
                  <$> condition_stats self in
  mkH1 ratios (np_mean (snd <$> map_to_list ratios)).

(** [test_hypothesis1] on the tester as it is: subscripting an entry
    that is [None] raises [TypeError]. *)
Definition test_hypothesis1_run (np_mean : list float64 -> float64)
  (self : full_state) : outcome H1Result :=
  if decide (unset self = ∅)
  then Return (test_hypothesis1 np_mean (tester (loaded self)))
  else Raise TypeError.

(** A mean that adds from left to right. *)
Definition mean_left_to_right (rnd : Q -> Q) (l : list float64) : float64 :=
  match l with
  | [] => NaN
  | _ =>
      match fold_left (fun acc v =>
                         match acc, v with
                         | Some xs, Fin x => Some (xs ++ [x])
                         | _, _ => None
                         end) l (Some []) with
      | Some xs => Fin (RoundedSum.fmean rnd (RoundedSum.sum_seq rnd xs)
                                         (length xs))
      | None => NaN
      end
  end.

(** Every registered noise ratio is a finite percentage. *)
Definition ratios_in_range (self : t) : Prop :=
  map_Forall (fun _ st => exists r, noise_ratio_pct (scalars st) = Fin r
                                    /\ 0 <= r <= 100)
             (condition_stats self).

End Tester.

(** ** [plot_comparison]: the points and labels of the scatter panel *)

Module Scatter.

(** The point of a condition: its phone usage and its noise ratio. *)
Definition point (p : Q) (st : Stats) : Q * float64 :=
  (p, noise_ratio_pct (scalars st)).

(** [phone_times] and [noise_ratios_scatter], filled by the loop over
    [conditions] (the items of [condition_stats] in dictionary
    order), as one list of points. *)
Definition points (conditions : list (string * Stats)) : list (Q * float64) :=
  flat_map (fun kv => match phone_usage_minutes (snd kv) with
                      | Some p => [point p (snd kv)]
                      | None => []
                      end)
           conditions.

(** [for i, c in enumerate(conditions)], from index [i] on: a
    condition with phone usage is labelled at
    [(phone_times[i], noise_ratios_scatter[i])], the index being that
    of the condition among all conditions.  The result is the labels
    drawn and how the loop ended. *)
Fixpoint annotate_from (pts : list (Q * float64)) (i : nat)
  (conditions : list (string * Stats))
  : list (string * (Q * float64)) * outcome unit :=
  match conditions with
  | [] => ([], Return tt)
  | (c, st) :: rest =>
      match phone_usage_minutes st with
      | None => annotate_from pts (S i) rest
      | Some _ =>
          match nth_error pts i with
          | None => ([], Raise IndexError)
          | Some p =>
              let '(drawn, r) := annotate_from pts (S i) rest in
              ((c, p) :: drawn, r)
          end
      end
  end.

(** The labelling happens under [if phone_times:]. *)
Definition annotate (conditions : list (string * Stats))
  : list (string * (Q * float64)) * outcome unit :=
  match points conditions with
  | [] => ([], Return tt)
  | pts => annotate_from pts 0 conditions
  end.

(** The number of conditions that carry phone usage. *)
Definition usage_count (conditions : list (string * Stats)) : nat :=
  length (filter has_usage conditions).

(** The label a condition with phone usage should get. *)
Definition own_labels (conditions : list (string * Stats))
  : list (string * (Q * float64)) :=
  flat_map (fun kv => match phone_usage_minutes (snd kv) with
                      | Some p => [(fst kv, point p (snd kv))]
                      | None => []
                      end)
           conditions.

(** A condition that carries phone usage. *)
Definition carries (kv : string * Stats) : Prop :=
  phone_usage_minutes (snd kv) <> None.

(** The conditions with phone usage come first. *)
Definition usage_first (conditions : list (string * Stats)) : Prop :=
  exists with_usage without,
    conditions = with_usage ++ without
    /\ Forall carries with_usage
    /\ Forall (fun kv => phone_usage_minutes (snd kv) = None) without.

End Scatter.

(** ** [app.py]: the best and the worst hour of [show_graphs] *)

Module App.

(** [x > y] on floats; false when either is [nan]. *)
Definition fgt (x y : float64) : bool :=
  match x, y with
  | NaN, _ | _, NaN => false
  | Inf s, Inf t => negb s && t
  | Inf s, Fin _ => negb s
  | Fin _, Inf t => t
  | Fin p, Fin q => Qltb q p
  end.

(** [max(items, key=...)]: the first item whose key no later item
    exceeds; [ValueError] on an empty list. *)
Definition py_max {A} (key : A -> float64) (items : list A) : outcome A :=
  match items with
  | [] => Raise ValueError
  | x :: rest =>
      Return (fold_left (fun best y => if fgt (key y) (key best) then y
                                       else best)
                        rest x)
  end.

(** [best_hour] and [worst_hour], computed when the dictionary has the
    hourly list. *)
Definition show_graphs_hours (st : Stats)
  : outcome (option (HourBucket * HourBucket)) :=
  match hourly_quality st with
  | None => Return None
  | Some hourly_data =>
      match py_max hour_deep_sleep_pct hourly_data with
      | Raise e => Raise e
      | Return best_hour =>
          match py_max hour_restless_pct hourly_data with
          | Raise e => Raise e
          | Return worst_hour => Return (Some (best_hour, worst_hour))
          end
      end
  end.

(** What [max] returns: the first of the items with the largest key.
    Every key before it is smaller, none after it is larger, and the
    keys are finite numbers. *)
Definition first_max {A} (key : A -> float64) (items : list A) (r : A)
  : Prop :=
  exists before after q,
    items = before ++ r :: after
    /\ key r = Fin q
    /\ (forall b, In b before -> exists p, key b = Fin p /\ p < q)
    /\ (forall b, In b after -> exists p, key b = Fin p /\ p <= q).

(** The duration the upload page and the data-info menu compute:
    [len(df) / 720] hours, a division of two integers. *)
Definition upload_hours (rnd : Q -> Q) (n : nat) : Q :=
  rnd (inject_Z (Z.of_nat n) / 720).

(** ['총_측정_시간_분'] as [calculate_statistics] computes it:
    [total_seconds = total_records * self.measurement_interval], then
    [total_seconds / 60]. *)
Definition duration_minutes (rnd : Q -> Q) (n : nat) (interval : Q) : Q :=
  rnd (rnd (inject_Z (Z.of_nat n) * interval) / 60).

(** The duration the analysis page and the report compute:
    [stats['총_측정_시간_분'] / 60] hours. *)
Definition analysis_hours (rnd : Q -> Q) (minutes : Q) : Q :=
  rnd (minutes / 60).

(** [f"{x:.1f}"] for a float [x], in tenths: the decimal nearest to the
    value of the float, a tie going to the even digit. *)
Definition shown_tenths (x : Q) : Z := Binary64.nearest_even (x * 10).

(** The analyzer the upload page builds on "start analysis":
    [SleepAnalyzer(threshold_db=...)], [analyzer.data = df],
    [analyzer.preprocess_data()]; [load_data] is not called. *)
Definition start_analysis (threshold : Q) (column : list Q) : SleepAnalyzer :=
  snd (preprocess_data
         (set_data (init threshold) (mkDataFrame column None None None))
         default_window_size).

End App.

(** ** [plot_data] and [plot_additional_analysis]: what is drawn *)

Module Plot.

(** [a[k]] on an array: a negative [k] counts from the end; out of
    range raises [IndexError]. *)
Definition py_index {A} (a : list A) (k : Z) : outcome A :=
  let n := Z.of_nat (length a) in
  let j := if (k <? 0)%Z then (n + k)%Z else k in
  if (j <? 0)%Z then Raise IndexError
  else match nth_error a (Z.to_nat j) with
       | Some x => Return x
       | None => Raise IndexError
       end.

(** One [axvspan]: its two ends on the time axis, and whether it
    carries the legend label. *)
Record Span : Type := mkSpan {
  span_from : Q;
  span_to : Q;
  span_labelled : bool
}.

(** The loop [for i in range(len(rem_mask))] from index [i] on, with
    the variables [in_rem], [rem_start], [rem_count], followed by the
    [if in_rem:] after the loop; the result is the spans drawn. *)
Fixpoint spans_from (time_hours : list Q) (rem_mask : list bool) (i : nat)
  (in_rem : bool) (rem_start : Q) (rem_count : nat) : outcome (list Span) :=
  match rem_mask with
  | [] =>
      if in_rem
      then match py_index time_hours (-1) with
           | Raise e => Raise e
           | Return t => Return [mkSpan rem_start t (rem_count =? 0)%nat]
           end
      else Return []
  | m :: rest =>
      if m && negb in_rem
      then match py_index time_hours (Z.of_nat i) with
           | Raise e => Raise e
           | Return t => spans_from time_hours rest (S i) true t rem_count
           end
      else if negb m && in_rem
      then match py_index time_hours (Z.of_nat i - 1) with
           | Raise e => Raise e
           | Return t =>
               match spans_from time_hours rest (S i) false rem_start
                                (S rem_count) with
               | Raise e => Raise e
               | Return spans =>
                   Return (mkSpan rem_start t (rem_count =? 0)%nat :: spans)
               end
           end
      else spans_from time_hours rest (S i) in_rem rem_start rem_count
  end.

(** [in_rem = False; rem_start = 0; rem_count = 0] *)
Definition rem_spans (time_hours : list Q) (rem_mask : list bool)
  : outcome (list Span) :=
  spans_from time_hours rem_mask 0 false 0 0.




(** The position-level reading of the span loop, with [cur] the
    length of the run open at [i]: the first and the last position of
    every maximal run of set flags. *)
Fixpoint runs (mask : list bool) (i cur : nat) : list (nat * nat) :=
  match mask with
  | [] => if (0 <? cur)%nat then [((i - cur)%nat, (i - 1)%nat)] else []
  | true :: rest => runs rest (S i) (S cur)
  | false :: rest =>
      (if (0 <? cur)%nat then [((i - cur)%nat, (i - 1)%nat)] else [])
      ++ runs rest (S i) 0
  end.

(** The spans of a list of runs on a time axis [t], the first one
    labelled when no span was drawn before. *)
Fixpoint decorate (t : nat -> Q) (rem_count : nat) (l : list (nat * nat))
  : list Span :=
  match l with
  | [] => []
  | (a, b) :: r =>
      mkSpan (t a) (t b) (rem_count =? 0)%nat :: decorate t (S rem_count) r
  end.

(** The time of sample [i], [i * interval / 3600]. *)
Definition time_at (interval : Q) (i : nat) : Q :=
  inject_Z (Z.of_nat i) * interval / 3600.

(** pandas' [FixedWindowIndexer.get_window_bounds] with the default
    [center=False]: [end = i + 1], [start = end - window_size], both
    clipped to [0, num_values]. *)
Definition trailing_bounds (window_size num_values i : Z) : Z * Z :=
  let end_ := (i + 1)%Z in
  let start := (end_ - window_size)%Z in
  (Rolling.clip start 0 num_values, Rolling.clip end_ 0 num_values).

Definition trailing_window (window_size : Z) (values : list Q) (i : nat)
  : list Q :=
  let '(start, end_) :=
    trailing_bounds window_size (Z.of_nat (length values)) (Z.of_nat i) in
  Rolling.slice start end_ values.

(** [series.rolling(window=window).mean()]: [min_periods] defaults to
    the window, so a window that is not full gives [nan]. *)
Definition rolling_mean (window_size : Z) (values : list Q) : list float64 :=
  map (fun i => let w := trailing_window window_size values i in
                if (Z.of_nat (length w) <? window_size)%Z then NaN
                else Series_mean w)
      (seq 0 (length values)).

(** [max(100, int(600 / self.measurement_interval))] *)
Definition rolling_window (interval : Q) : Z :=
  Z.max 100 (int_of (600 / interval)).

(** [series.cumsum()] of a boolean column, from a running total. *)
Fixpoint cumsum_from (acc : nat) (flags : list bool) : list nat :=
  match flags with
  | [] => []
  | b :: rest =>
      let acc' := (acc + (if b then 1 else 0))%nat in
      acc' :: cumsum_from acc' rest
  end.

Definition cumsum (flags : list bool) : list nat := cumsum_from 0 flags.

(** The two computed panels of [plot_additional_analysis]. *)
Record Panels : Type := mkPanels {
  rolling_average : list (Q * float64);
  cumulative_noise : list (Q * nat)
}.

(** [plot_additional_analysis]: [None] (and a message) without data;
    [ZeroDivisionError] at [600 / self.measurement_interval] for a
    zero interval; [KeyError] when the noise column is missing. *)
Definition plot_additional_analysis (self : SleepAnalyzer)
  : outcome (option Panels) :=
  match data self with
  | None => Return None
  | Some df =>
      let interval := measurement_interval self in
      let times := time_hours (length (dB df)) interval in
      if Qeq_bool interval 0 then Raise ZeroDivisionError
      else
        let window := rolling_window interval in
        let rolling := rolling_mean window (dB df) in
        match is_noise df with
        | None => Raise (KeyError "is_noise")
        | Some flags =>
            Return (Some (mkPanels (combine times rolling)
                                   (combine times (cumsum flags))))
        end
  end.

End Plot.

(** ** [convert_dbmeter.py]: the clock of a dBMeter line *)

Module Convert.

(** ['오전'] and ['오후'] *)
Inductive meridiem : Type := AM | PM.

(** The [if am_pm == 'PM' and hour != 12: ... elif ...] of
    [convert_dbmeter_data]. *)
Definition to_24h (am_pm : meridiem) (hour : Z) : Z :=
  match am_pm with
  | PM => if negb (hour =? 12)%Z then (hour + 12)%Z else hour
  | AM => if (hour =? 12)%Z then 0%Z else hour
  end.

(** [datetime(...)] accepts an hour in [0..23] and raises
    [ValueError] otherwise; the line is then skipped. *)
Definition datetime_hour (hour : Z) : outcome Z :=
  if (0 <=? hour)%Z && (hour <=? 23)%Z then Return hour
  else Raise ValueError.

Definition parse_hour (am_pm : meridiem) (hour : Z) : outcome Z :=
  datetime_hour (to_24h am_pm hour).

End Convert.

(** * Properties *)

(** ** Rounding to binary64 *)

Module Binary64Facts.
Import Binary64.

Lemma two_nonzero : ~ 2 == 0.
Proof. intros H. discriminate H. Qed.

Lemma pow2_pos (e : Z) : 0 < pow2 e.
Proof. apply Qpower_0_lt. reflexivity. Qed.

Lemma pow2_nonzero (e : Z) : ~ pow2 e == 0.
Proof. intros H. pose proof (pow2_pos e) as Hp. rewrite H in Hp. discriminate. Qed.

Lemma pow2_add (a b : Z) : pow2 (a + b) == pow2 a * pow2 b.
Proof. apply Qpower_plus, two_nonzero. Qed.

Lemma pow2_le (a b : Z) : (a <= b)%Z -> pow2 a <= pow2 b.
Proof. intros H. apply Qpower_le_compat_l; [exact H|discriminate]. Qed.

Lemma pow2_lt (a b : Z) : (a < b)%Z -> pow2 a < pow2 b.
Proof. intros H. apply Qpower_lt_compat_l; [exact H|reflexivity]. Qed.

Lemma pow2_Z (n : Z) : (0 <= n)%Z -> inject_Z (2 ^ n) == pow2 n.
Proof. intros H. now apply Zpower_Qpower. Qed.

Lemma pow2_one : pow2 1 == 2.
Proof. reflexivity. Qed.

(** [x] scaled by its unit: [x / 2^e] as a product. *)
Lemma scaled_le (x : Q) (e k : Z) :
  pow2 k * pow2 e <= x <-> pow2 k <= x / pow2 e.
Proof.
  split; intros H.
  - apply Qle_shift_div_l; [apply pow2_pos|exact H].
  - apply Qmult_le_r with (z := / pow2 e).
    + apply Qinv_lt_0_compat, pow2_pos.
    + setoid_replace (pow2 k * pow2 e * / pow2 e) with (pow2 k)
        using relation Qeq by (field; apply pow2_nonzero).
      exact H.
Qed.

Lemma scaled_lt (x : Q) (e k : Z) :
  x < pow2 k * pow2 e <-> x / pow2 e < pow2 k.
Proof.
  split; intros H.
  - apply Qlt_shift_div_r; [apply pow2_pos|exact H].
  - apply Qmult_lt_r with (z := / pow2 e).
    + apply Qinv_lt_0_compat, pow2_pos.
    + setoid_replace (pow2 k * pow2 e * / pow2 e) with (pow2 k)
        using relation Qeq by (field; apply pow2_nonzero).
      exact H.
Qed.

Lemma log2_bounds (n : Z) :
  (0 < n)%Z ->
  pow2 (Z.log2 n) <= inject_Z n /\ inject_Z n < pow2 (Z.log2 n + 1).
Proof.
  intros Hn. destruct (Z.log2_spec n Hn) as [Hlo Hhi].
  pose proof (Z.log2_nonneg n) as Hnn.
  rewrite <- !pow2_Z by lia. rewrite <- Zle_Qle, <- Zlt_Qlt.
  split; [exact Hlo|]. replace (Z.log2 n + 1)%Z with (Z.succ (Z.log2 n)) by lia.
  exact Hhi.
Qed.

(** The first guess of the exponent is right or one too large. *)
Lemma first_guess (x : Q) :
  0 < x ->
  let e0 := (Z.log2 (Qnum x) - Z.log2 (Zpos (Qden x)) - 52)%Z in
  pow2 51 * pow2 e0 < x /\ x < pow2 53 * pow2 e0.
Proof.
  intros Hx e0. destruct x as [n d].
  assert (Hn : (0 < n)%Z).
  { unfold Qlt in Hx. simpl in Hx. lia. }
  cbn [Qnum Qden] in e0.
  destruct (log2_bounds n Hn) as [Hn1 Hn2].
  destruct (log2_bounds (Zpos d) ltac:(lia)) as [Hd1 Hd2].
  set (a := Z.log2 n) in *. set (b := Z.log2 (Zpos d)) in *.
  assert (Hdpos : 0 < inject_Z (Zpos d)) by reflexivity.
  rewrite (Qmake_Qdiv n d).
  rewrite <- !pow2_add. split.
  - apply Qlt_shift_div_l; [exact Hdpos|].
    apply Qlt_le_trans with (pow2 (51 + e0) * pow2 (b + 1)).
    + apply Qmult_lt_l; [apply pow2_pos|exact Hd2].
    + rewrite <- pow2_add.
      replace (51 + e0 + (b + 1))%Z with a by (unfold e0; lia). exact Hn1.
  - apply Qlt_shift_div_r; [exact Hdpos|].
    apply Qlt_le_trans with (pow2 (53 + e0) * pow2 b).
    + rewrite <- pow2_add.
      replace (53 + e0 + b)%Z with (a + 1)%Z by (unfold e0; lia). exact Hn2.
    + apply Qmult_le_l; [apply pow2_pos|exact Hd1].
Qed.

(** The exponent of the unit in the last place: the significand
    [x / 2^e] has 53 bits. *)
Lemma ulp_exponent_bracket (x : Q) :
  0 < x ->
  pow2 52 * pow2 (ulp_exponent x) <= x
  /\ x < pow2 53 * pow2 (ulp_exponent x).
Proof.
  intros Hx. destruct (first_guess x Hx) as [Hlo Hhi].
  unfold ulp_exponent.
  set (e0 := (Z.log2 (Qnum x) - Z.log2 (Zpos (Qden x)) - 52)%Z) in *.
  destruct (Qle_bool (pow2 52) (x / pow2 e0)) eqn:E.
  - apply Qle_bool_iff in E. split; [now apply scaled_le|exact Hhi].
  - assert (Hlt : x / pow2 e0 < pow2 52).
    { apply Qnot_le_lt. intros H. apply Qle_bool_iff in H. congruence. }
    apply scaled_lt in Hlt.
    rewrite <- !pow2_add in *.
    replace (52 + (e0 - 1))%Z with (51 + e0)%Z by lia.
    replace (53 + (e0 - 1))%Z with (52 + e0)%Z by lia.
    split; [now apply Qlt_le_weak|exact Hlt].
Qed.

(** The bracket determines the exponent. *)
Lemma bracket_order (x y : Q) (e f : Z) :
  pow2 52 * pow2 e <= x -> y < pow2 53 * pow2 f -> x <= y -> (e <= f)%Z.
Proof.
  intros Hx Hy Hxy.
  destruct (Z.le_gt_cases e f) as [H|H]; [exact H|exfalso].
  assert (Hp : pow2 53 * pow2 f <= pow2 52 * pow2 e).
  { rewrite <- !pow2_add. apply pow2_le. lia. }
  lra.
Qed.

Lemma nearest_even_error (y : Q) :
  Qabs (inject_Z (nearest_even y) - y) <= 1 # 2.
Proof.
  unfold nearest_even.
  pose proof (Qfloor_le y) as Hlo. pose proof (Qlt_floor y) as Hhi.
  rewrite inject_Z_plus in Hhi. change (inject_Z 1) with 1 in Hhi.
  set (f := Qfloor y) in *.
  apply Qabs_Qle_condition.
  destruct (Qcompare_spec (y - inject_Z f) (1 # 2)) as [H|H|H].
  - destruct (Z.even f); [|rewrite inject_Z_plus; change (inject_Z 1) with 1];
      split; lra.
  - split; lra.
  - rewrite inject_Z_plus. change (inject_Z 1) with 1. split; lra.
Qed.

Lemma nearest_even_Z (y : Q) (z : Z) : y == inject_Z z -> nearest_even y = z.
Proof.
  intros H. unfold nearest_even.
  rewrite (Qfloor_comp _ _ H), Qfloor_Z.
  assert (Hlt : y - inject_Z z < 1 # 2) by (rewrite H; lra).
  destruct (Qcompare_spec (y - inject_Z z) (1 # 2)) as [H1|H1|H1];
    [exfalso; lra|reflexivity|exfalso; lra].
Qed.

Lemma nearest_even_mono (y1 y2 : Q) :
  y1 <= y2 -> (nearest_even y1 <= nearest_even y2)%Z.
Proof.
  intros Hle. unfold nearest_even.
  pose proof (Qfloor_resp_le _ _ Hle) as Hf.
  pose proof (Qfloor_le y1) as Hlo1. pose proof (Qlt_floor y1) as Hhi1.
  pose proof (Qfloor_le y2) as Hlo2. pose proof (Qlt_floor y2) as Hhi2.
  rewrite inject_Z_plus in Hhi1, Hhi2.
  change (inject_Z 1) with 1 in Hhi1, Hhi2.
  set (f1 := Qfloor y1) in *. set (f2 := Qfloor y2) in *.
  destruct (Z.eq_dec f1 f2) as [Heq|Hne].
  - rewrite <- Heq in *.
    destruct (Qcompare_spec (y1 - inject_Z f1) (1 # 2)) as [H1|H1|H1];
      destruct (Qcompare_spec (y2 - inject_Z f1) (1 # 2)) as [H2|H2|H2];
      try destruct (Z.even f1); try lia; exfalso; lra.
  - assert (Hlt : (f1 + 1 <= f2)%Z) by lia.
    destruct (Qcompare_spec (y1 - inject_Z f1) (1 # 2)) as [H1|H1|H1];
      destruct (Qcompare_spec (y2 - inject_Z f2) (1 # 2)) as [H2|H2|H2];
      try destruct (Z.even f1); try destruct (Z.even f2); lia.
Qed.


Lemma pow2_52 : pow2 52 == 4503599627370496.
Proof. reflexivity. Qed.

Lemma pow2_53 : pow2 53 == 9007199254740992.
Proof. reflexivity. Qed.

Lemma scaled_back (x : Q) (e : Z) : x / pow2 e * pow2 e == x.
Proof. field. apply pow2_nonzero. Qed.

(** The rounded significand keeps its 53 bits. *)
Lemma round_pos_bounds (x : Q) :
  0 < x ->
  pow2 52 * pow2 (ulp_exponent x) <= round_pos x
  /\ round_pos x <= pow2 53 * pow2 (ulp_exponent x).
Proof.
  intros Hx. destruct (ulp_exponent_bracket x Hx) as [Hlo Hhi].
  unfold round_pos. set (e := ulp_exponent x) in *.
  apply scaled_le in Hlo. apply scaled_lt in Hhi.
  pose proof (pow2_pos e) as He.
  split; (apply Qmult_le_compat_r; [|now apply Qlt_le_weak]).
  - rewrite <- (pow2_Z 52) in * by lia.
    pose proof (nearest_even_mono _ _ Hlo) as H.
    rewrite (nearest_even_Z _ (2 ^ 52)) in H by reflexivity.
    now rewrite <- Zle_Qle.
  - rewrite <- (pow2_Z 53) in * by lia.
    pose proof (nearest_even_mono _ _ (Qlt_le_weak _ _ Hhi)) as H.
    rewrite (nearest_even_Z (inject_Z (2 ^ 53)) (2 ^ 53)) in H by reflexivity.
    now rewrite <- Zle_Qle.
Qed.

Lemma round_pos_positive (x : Q) : 0 < x -> 0 < round_pos x.
Proof.
  intros Hx. destruct (round_pos_bounds x Hx) as [Hlo _].
  apply Qlt_le_trans with (2 := Hlo).
  apply Qmult_lt_0_compat; apply pow2_pos.
Qed.

Lemma round_pos_error (x : Q) :
  0 < x -> Qabs (round_pos x - x) <= (1 # 9007199254740992) * x.
Proof.
  intros Hx. destruct (ulp_exponent_bracket x Hx) as [Hlo _].
  unfold round_pos. set (e := ulp_exponent x) in *.
  pose proof (nearest_even_error (x / pow2 e)) as Herr.
  pose proof (pow2_pos e) as He.
  set (m := inject_Z (nearest_even (x / pow2 e))) in *.
  rewrite pow2_52 in Hlo.
  assert (Heq : m * pow2 e - x == (m - x / pow2 e) * pow2 e).
  { field. apply pow2_nonzero. }
  rewrite Heq, Qabs_Qmult, (Qabs_pos (pow2 e)) by (now apply Qlt_le_weak).
  apply Qle_trans with ((1 # 2) * pow2 e).
  - apply Qmult_le_compat_r; [exact Herr|now apply Qlt_le_weak].
  - lra.
Qed.

Lemma round_pos_mono (x y : Q) :
  0 < x -> x <= y -> round_pos x <= round_pos y.
Proof.
  intros Hx Hxy. assert (Hy : 0 < y) by lra.
  destruct (ulp_exponent_bracket x Hx) as [Hxlo Hxhi].
  destruct (ulp_exponent_bracket y Hy) as [Hylo Hyhi].
  pose proof (bracket_order x y _ _ Hxlo Hyhi Hxy) as He.
  destruct (Z.eq_dec (ulp_exponent x) (ulp_exponent y)) as [Heq|Hne].
  - unfold round_pos. rewrite Heq.
    apply Qmult_le_compat_r; [|apply Qlt_le_weak, pow2_pos].
    rewrite <- Zle_Qle. apply nearest_even_mono.
    apply Qmult_le_compat_r; [exact Hxy|].
    apply Qlt_le_weak, Qinv_lt_0_compat, pow2_pos.
  - destruct (round_pos_bounds x Hx) as [_ Hhi].
    destruct (round_pos_bounds y Hy) as [Hlo _].
    apply Qle_trans with (1 := Hhi). apply Qle_trans with (2 := Hlo).
    rewrite <- !pow2_add. apply pow2_le. lia.
Qed.

Lemma round_pos_proper (x y : Q) :
  0 < x -> x == y -> round_pos x == round_pos y.
Proof.
  intros Hx Hxy. assert (Hy : 0 < y) by (now rewrite <- Hxy).
  apply Qle_antisym; apply round_pos_mono; auto; rewrite Hxy; apply Qle_refl.
Qed.

(** A number with a significand of at most 53 bits is not changed. *)
Lemma round_pos_representable (m k : Z) :
  (0 < m <= 2 ^ 53)%Z ->
  round_pos (inject_Z m * pow2 k) == inject_Z m * pow2 k.
Proof.
  intros Hm. set (x := inject_Z m * pow2 k).
  assert (Hmq : 0 < inject_Z m).
  { change 0 with (inject_Z 0). rewrite <- Zlt_Qlt. lia. }
  assert (Hx : 0 < x).
  { apply Qmult_lt_0_compat; [exact Hmq|apply pow2_pos]. }
  destruct (ulp_exponent_bracket x Hx) as [Hlo Hhi].
  unfold round_pos. set (e := ulp_exponent x) in *.
  assert (Hint : exists z, x / pow2 e == inject_Z z).
  { destruct (Z.le_gt_cases e k) as [Hle|Hgt].
    - exists (m * 2 ^ (k - e))%Z.
      rewrite inject_Z_mult, pow2_Z by lia. unfold x.
      replace k with ((k - e) + e)%Z at 1 by lia. rewrite pow2_add.
      field. apply pow2_nonzero.
    - exists (2 ^ 52)%Z.
      assert (Hm53 : inject_Z m <= pow2 53).
      { rewrite <- pow2_Z by lia. rewrite <- Zle_Qle. lia. }
      assert (Hk : pow2 (k + 1) <= pow2 e) by (apply pow2_le; lia).
      rewrite pow2_add, pow2_one in Hk.
      rewrite pow2_52 in Hlo. rewrite pow2_53 in Hm53.
      pose proof (pow2_pos k) as Hkpos. pose proof (pow2_pos e) as Hepos.
      unfold x in Hlo.
      (* [m * 2^k >= 2^52 * 2^e >= 2^53 * 2^k], so [m = 2^53] and
         [e = k + 1] *)
      assert (Hm_eq : inject_Z m == 9007199254740992).
      { apply Qle_antisym; [exact Hm53|].
        apply Qmult_le_r with (z := pow2 k); [exact Hkpos|]. lra. }
      assert (He_eq : pow2 e == 2 * pow2 k).
      { apply Qle_antisym; [|lra].
        rewrite Hm_eq in Hlo. lra. }
      unfold x. rewrite Hm_eq, He_eq. rewrite pow2_Z by lia. rewrite pow2_52.
      field. apply pow2_nonzero. }
  destruct Hint as (z & Hz).
  rewrite (nearest_even_Z _ _ Hz), <- Hz. apply scaled_back.
Qed.

(** The rounding function itself. *)

Lemma round_zero (x : Q) : x == 0 -> round x = 0.
Proof.
  intros H. unfold round.
  destruct (Qcompare_spec x 0) as [H0|H0|H0]; [reflexivity| |];
    rewrite H in H0; discriminate.
Qed.

Lemma round_positive (x : Q) : 0 < x -> round x = round_pos x.
Proof.
  intros H. unfold round.
  destruct (Qcompare_spec x 0) as [H0|H0|H0]; [|exfalso; lra|reflexivity].
  rewrite H0 in H. discriminate.
Qed.

Lemma round_negative (x : Q) : x < 0 -> round x = - round_pos (- x).
Proof.
  intros H. unfold round.
  destruct (Qcompare_spec x 0) as [H0|H0|H0]; [|reflexivity|exfalso; lra].
  rewrite H0 in H. discriminate.
Qed.

Lemma round_proper (x y : Q) : x == y -> round x == round y.
Proof.
  intros H. destruct (Q_dec x 0) as [[Hx|Hx]|Hx].
  - rewrite (round_negative x Hx), (round_negative y) by (now rewrite <- H).
    apply Qopp_comp. apply round_pos_proper; [lra|now rewrite H].
  - rewrite (round_positive x Hx), (round_positive y) by (now rewrite <- H).
    now apply round_pos_proper.
  - rewrite (round_zero x Hx), (round_zero y) by (now rewrite <- H).
    reflexivity.
Qed.

Lemma round_opp (x : Q) : round (- x) == - round x.
Proof.
  destruct (Q_dec x 0) as [[Hx|Hx]|Hx].
  - rewrite (round_negative x Hx), (round_positive (- x)) by lra.
    rewrite Qopp_involutive. reflexivity.
  - rewrite (round_positive x Hx), (round_negative (- x)) by lra.
    apply Qopp_comp. apply round_pos_proper; [lra|apply Qopp_involutive].
  - rewrite (round_zero x Hx), (round_zero (- x)) by (rewrite Hx; reflexivity).
    reflexivity.
Qed.

Lemma round_relative (x : Q) :
  Qabs (round x - x) <= (1 # 9007199254740992) * Qabs x.
Proof.
  destruct (Q_dec x 0) as [[Hx|Hx]|Hx].
  - rewrite (round_negative x Hx).
    pose proof (round_pos_error (- x) ltac:(lra)) as H.
    rewrite (Qabs_neg x) by lra.
    setoid_replace (- round_pos (- x) - x)
      with (- (round_pos (- x) - - x)) using relation Qeq by ring.
    now rewrite Qabs_opp.
  - rewrite (round_positive x Hx), (Qabs_pos x) by lra.
    now apply round_pos_error.
  - rewrite (round_zero x Hx), Hx. discriminate.
Qed.

Lemma round_mono (x y : Q) : x <= y -> round x <= round y.
Proof.
  intros Hxy.
  destruct (Q_dec x 0) as [[Hx|Hx]|Hx]; destruct (Q_dec y 0) as [[Hy|Hy]|Hy];
    try (exfalso; lra).
  - rewrite (round_negative x Hx), (round_negative y Hy).
    apply Qopp_le_compat. apply round_pos_mono; lra.
  - rewrite (round_negative x Hx), (round_positive y Hy).
    pose proof (round_pos_positive (- x) ltac:(lra)).
    pose proof (round_pos_positive y Hy). lra.
  - rewrite (round_negative x Hx), (round_zero y Hy).
    pose proof (round_pos_positive (- x) ltac:(lra)). lra.
  - rewrite (round_positive x Hx), (round_positive y Hy).
    now apply round_pos_mono.
  - rewrite (round_zero x Hx), (round_positive y Hy).
    pose proof (round_pos_positive y Hy). lra.
  - rewrite (round_zero x Hx), (round_zero y Hy). apply Qle_refl.
Qed.

Lemma round_representable (m k : Z) :
  (Z.abs m <= 2 ^ 53)%Z ->
  round (inject_Z m * pow2 k) == inject_Z m * pow2 k.
Proof.
  intros Hm. pose proof (pow2_pos k) as Hk.
  destruct (Z.lt_trichotomy m 0) as [Hneg|[->|Hpos]].
  - assert (Hx : inject_Z m * pow2 k < 0).
    { setoid_replace (inject_Z m * pow2 k)
        with (- (inject_Z (- m) * pow2 k)) using relation Qeq
        by (rewrite inject_Z_opp; ring).
      assert (0 < inject_Z (- m) * pow2 k).
      { apply Qmult_lt_0_compat; [|exact Hk].
        change 0 with (inject_Z 0). rewrite <- Zlt_Qlt. lia. }
      lra. }
    rewrite (round_negative _ Hx).
    rewrite (round_pos_proper (- (inject_Z m * pow2 k))
               (inject_Z (- m) * pow2 k))
      by (try lra; rewrite inject_Z_opp; ring).
    rewrite round_pos_representable by lia.
    rewrite inject_Z_opp. ring.
  - rewrite round_zero by (rewrite Qmult_0_l; reflexivity).
    now rewrite Qmult_0_l.
  - assert (Hx : 0 < inject_Z m * pow2 k).
    { apply Qmult_lt_0_compat; [|exact Hk].
      change 0 with (inject_Z 0). rewrite <- Zlt_Qlt. lia. }
    rewrite (round_positive _ Hx). apply round_pos_representable. lia.
Qed.

End Binary64Facts.

(** Binary64's rounding is a round to nearest in the sense of
    [Rounded.round_to_nearest]. *)
Lemma binary64_round : Rounded.round_to_nearest Binary64.round.
Proof.
  constructor.
  - exact Binary64Facts.round_proper.
  - exact Binary64Facts.round_relative.
  - exact Binary64Facts.round_mono.
  - exact Binary64Facts.round_opp.
  - exact Binary64Facts.round_representable.
Qed.

(** A round to nearest leaves the integers up to 2^53 as they are. *)
Lemma nearest_integer (rnd : Q -> Q) (k : Z) :
  Rounded.round_to_nearest rnd -> (Z.abs k <= 2 ^ 53)%Z ->
  rnd (inject_Z k) == inject_Z k.
Proof.
  intros Hrnd Hk.
  rewrite (Rounded.nearest_proper rnd Hrnd (inject_Z k)
             (inject_Z k * Binary64.pow2 0)).
  - rewrite (Rounded.nearest_representable rnd Hrnd k 0 Hk).
    change (Binary64.pow2 0) with 1. ring.
  - change (Binary64.pow2 0) with 1. ring.
Qed.


(** ** Streaks *)

Module StreakFacts.
Import Streak.

Lemma flush_fold_acc (l : list bool) :
  forall c acc,
    flush (fold_left step l (c, acc)) = acc ++ flush (fold_left step l (c, [])).
Proof.
  induction l as [|b t IH]; intros c acc; simpl.
  - destruct (0 <? c)%nat; simpl; auto using app_nil_r.
  - destruct b.
    + apply IH.
    + destruct (0 <? c)%nat eqn:Hc.
      * rewrite (IH 0%nat (acc ++ [c])), (IH 0%nat [c]).
        now rewrite app_assoc.
      * apply IH.
Qed.

Lemma true_runs_cons_false (t : list bool) :
  true_runs (false :: t) = true_runs t.
Proof.
  unfold true_runs; simpl.
  destruct (rle t) as [|[b' k] r]; simpl; auto.
  destruct b'; simpl; auto.
Qed.

(** The loop started with a streak of [c] already counted. *)
Lemma flush_fold_rle (l : list bool) :
  forall c,
    flush (fold_left step l (c, [])) =
    match rle l with
    | (true, k) :: r => (c + k)%nat :: map snd (filter fst r)
    | _ => (if (0 <? c)%nat then [c] else []) ++ true_runs l
    end.
Proof.
  induction l as [|b t IH]; intros c.
  - simpl. now rewrite app_nil_r.
  - destruct b.
    + simpl fold_left. rewrite IH. simpl rle.
      destruct (rle t) as [|[b' k] r] eqn:Hr.
      * simpl. unfold true_runs. rewrite Hr. simpl. f_equal. lia.
      * destruct b'; simpl.
        -- f_equal. lia.
        -- unfold true_runs. rewrite Hr. simpl. f_equal. lia.
    + simpl fold_left. rewrite flush_fold_acc, (IH 0%nat).
      assert (Hhead : match rle (false :: t) with
                      | (true, k) :: r =>
                          (c + k)%nat :: map snd (filter fst r)
                      | _ => (if (0 <? c)%nat then [c] else [])
                             ++ true_runs (false :: t)
                      end
                      = (if (0 <? c)%nat then [c] else [])
                        ++ true_runs (false :: t)).
      { simpl. destruct (rle t) as [|[b' k] r]; auto. destruct b'; auto. }
      rewrite Hhead, true_runs_cons_false. f_equal.
      unfold true_runs.
      destruct (rle t) as [|[b' k] r]; simpl; auto.
      destruct b'; simpl; auto.
Qed.

(** The loop of the source computes the lengths of the [true] blocks
    of the run-length encoding. *)
Lemma consecutive_noise_rle (flags : list bool) :
  consecutive_noise flags = true_runs flags.
Proof.
  unfold consecutive_noise. rewrite flush_fold_rle.
  unfold true_runs.
  destruct (rle flags) as [|[b k] r]; simpl; auto.
  destruct b; simpl; auto.
Qed.

(** The encoding loses nothing ... *)
Lemma unrle_rle (l : list bool) : unrle (rle l) = l.
Proof.
  induction l as [|b t IH]; simpl; auto.
  destruct (rle t) as [|[b' k] r] eqn:Hr.
  - simpl in *. now rewrite <- IH.
  - destruct (eqb b b') eqn:Hb.
    + apply eqb_prop in Hb. subst b'. rewrite <- IH. reflexivity.
    + rewrite <- IH. reflexivity.
Qed.

(** ... its blocks are maximal ... *)
Lemma rle_alternating (l : list bool) : alternating (rle l).
Proof.
  induction l as [|b t IH]; simpl; auto.
  destruct (rle t) as [|[b' k] r] eqn:Hr; simpl; auto.
  destruct (eqb b b') eqn:Hb.
  - apply eqb_prop in Hb. subst b'. exact IH.
  - split; auto. simpl. intros ->. now rewrite eqb_reflx in Hb.
Qed.

(** ... and none is empty. *)
Lemma rle_positive (l : list bool) :
  Forall (fun p => (0 < snd p)%nat) (rle l).
Proof.
  induction l as [|b t IH]; simpl; auto.
  destruct (rle t) as [|[b' k] r] eqn:Hr.
  - repeat constructor.
  - destruct (eqb b b').
    + inversion IH; subst. constructor; simpl; auto; lia.
    + constructor; simpl; auto.
Qed.

Lemma true_runs_nil_iff (l : list bool) :
  true_runs l = [] <-> count_true l = 0%nat.
Proof.
  unfold count_true.
  induction l as [|b t IH].
  - simpl. tauto.
  - destruct b.
    + split; [|discriminate].
      unfold true_runs. simpl.
      destruct (rle t) as [|[b' k] r]; simpl; try discriminate.
      destruct b'; simpl; discriminate.
    + rewrite true_runs_cons_false. exact IH.
Qed.

End StreakFacts.

(** ** [calculate_statistics] on a ready analyzer *)

Lemma Qlt_Qeq_bool_false (x : Q) : 0 < x -> Qeq_bool x 0 = false.
Proof.
  intros Hx. destruct (Qeq_bool x 0) eqn:E; auto.
  apply Qeq_bool_iff in E. rewrite E in Hx. now apply Qlt_irrefl in Hx.
Qed.

Lemma time_hours_last (n : nat) (interval : Q) :
  rev (time_hours (S n) interval)
  = (inject_Z (Z.of_nat n) * interval / 3600) :: rev (time_hours n interval).
Proof.
  unfold time_hours. rewrite seq_S, map_app, rev_app_distr. reflexivity.
Qed.

(** The hourly loop runs once the series has a last sample. *)
Lemma hourly_nonempty (values : list Q) (interval : Q) :
  values <> [] ->
  hourly values interval
  = Return (flat_map (hour_entry (time_hours (length values) interval) values)
              (range (Qceiling (inject_Z (Z.of_nat (length values - 1))
                                * interval / 3600)))).
Proof.
  intros Hne. unfold hourly.
  destruct values as [|x t]; [congruence|].
  cbn [length]. rewrite time_hours_last.
  replace (S (length t) - 1)%nat with (length t) by lia.
  reflexivity.
Qed.

Lemma hourly_empty (interval : Q) : hourly [] interval = Raise IndexError.
Proof. reflexivity. Qed.

(** A ready analyzer returns its dictionary and stores it. *)
Lemma calculate_statistics_ready (self : SleepAnalyzer) (df : DataFrame)
  (flags : list bool) :
  ready self df flags ->
  exists hq,
    hourly (dB df) (measurement_interval self) = Return hq
    /\ calculate_statistics self
       = (Return (Some (stats_of df flags (measurement_interval self) hq)),
          set_stats self (stats_of df flags (measurement_interval self) hq)).
Proof.
  intros (Hdata & (Hnoise & _) & Hne & Hpos).
  eexists. split; [apply hourly_nonempty; exact Hne|].
  unfold calculate_statistics.
  rewrite Hdata, Hnoise, (Qlt_Qeq_bool_false _ Hpos), (hourly_nonempty _ _ Hne).
  unfold stats_of. destruct (is_rem df); reflexivity.
Qed.

Lemma fold_right_add_sum_list (l : list nat) :
  fold_right Nat.add 0%nat l = sum_list l.
Proof. induction l; simpl; auto. Qed.

Lemma fold_right_max_max_list (l : list nat) :
  fold_right Nat.max 0%nat l = max_list l.
Proof. induction l; simpl; auto. Qed.

(** C2.  On a ready analyzer the streaks behind the two streak fields
    are the lengths of the maximal runs of [true] in the noise column
    (the [true] blocks of its run-length encoding, which loses nothing,
    has no empty block and no two neighbouring blocks of equal flag);
    the average field is the arithmetic mean of these lengths times the
    sampling interval and the maximum field is the longest length times
    the interval; both are 0 when no sample is flagged.  For the flags
    F,T,T,F,T,F,F,T,T,T at 5 seconds the runs are 2,1,3, the maximum is
    15 and the average 10. *)
Theorem C2_streak_analysis :
  (forall self df flags,
      ready self df flags ->
      exists st,
        fst (calculate_statistics self) = Return (Some st)
        /\ Streak.consecutive_noise flags = Streak.true_runs flags
        /\ Streak.unrle (Streak.rle flags) = flags
        /\ Streak.alternating (Streak.rle flags)
        /\ Forall (fun p => (0 < snd p)%nat) (Streak.rle flags)
        /\ (Streak.true_runs flags <> [] ->
            avg_noise_streak_seconds (scalars st)
            == inject_Z (Z.of_nat (sum_list (Streak.true_runs flags)))
               / inject_Z (Z.of_nat (length (Streak.true_runs flags)))
               * measurement_interval self
            /\ max_noise_streak_seconds (scalars st)
               == inject_Z (Z.of_nat (max_list (Streak.true_runs flags)))
                  * measurement_interval self)
        /\ (count_true flags = 0%nat ->
            avg_noise_streak_seconds (scalars st) == 0
            /\ max_noise_streak_seconds (scalars st) == 0))
  /\ (Streak.consecutive_noise example_flags = [2; 1; 3]%nat
      /\ exists st,
          fst (calculate_statistics example_analyzer) = Return (Some st)
          /\ max_noise_streak_seconds (scalars st) == 15
          /\ avg_noise_streak_seconds (scalars st) == 10).
Proof.
  split.
  - intros self df flags Hready.
    destruct (calculate_statistics_ready self df flags Hready) as (hq & _ & Hrun).
    eexists. rewrite Hrun. split; [reflexivity|].
    split; [apply StreakFacts.consecutive_noise_rle|].
    split; [apply StreakFacts.unrle_rle|].
    split; [apply StreakFacts.rle_alternating|].
    split; [apply StreakFacts.rle_positive|].
    cbn [stats_of scalars scalar_stats avg_noise_streak_seconds
         max_noise_streak_seconds].
    rewrite StreakFacts.consecutive_noise_rle.
    split.
    + intros Hne. unfold Streak.avg_seconds, Streak.max_seconds, Qlen.
      rewrite fold_right_add_sum_list, fold_right_max_max_list.
      destruct (Streak.true_runs flags); [congruence|]. split; reflexivity.
    + intros Hnone. apply StreakFacts.true_runs_nil_iff in Hnone.
      rewrite Hnone. split; reflexivity.
  - split; [reflexivity|].
    eexists. split; [vm_compute; reflexivity|]. split; reflexivity.
Qed.

Lemma example_ready : ready example_analyzer example_frame example_flags.
Proof.
  split; [reflexivity|]. split; [split; reflexivity|].
  split; [discriminate|reflexivity].
Defined.

Lemma C2_streak_analysis_witness :
  ready example_analyzer example_frame example_flags
  /\ exists st, fst (calculate_statistics example_analyzer) = Return (Some st).
Proof.
  split; [exact example_ready|].
  destruct (proj1 C2_streak_analysis _ _ _ example_ready) as (st & Hst & _).
  exists st. exact Hst.
Defined.

(** ** Bands *)

Lemma Qle_bool_false_lt (x y : Q) : Qle_bool x y = false -> y < x.
Proof.
  intros H. apply Qnot_le_lt. intros Hle.
  apply Qle_bool_iff in Hle. congruence.
Qed.

(** Every decibel value lies in exactly one band. *)
Lemma band_of_value (x : Q) :
  (Nat.b2n (in_deep x) + Nat.b2n (in_light x) + Nat.b2n (in_restless x)
   + Nat.b2n (in_disturbed x) = 1)%nat.
Proof.
  unfold in_deep, in_light, in_restless, in_disturbed, Qltb.
  destruct (Qle_bool 30 x) eqn:H30, (Qle_bool 35 x) eqn:H35,
           (Qle_bool 40 x) eqn:H40; simpl; try reflexivity; exfalso;
    repeat match goal with
           | H : Qle_bool _ _ = true |- _ => apply Qle_bool_iff in H
           | H : Qle_bool _ _ = false |- _ => apply Qle_bool_false_lt in H
           end; lra.
Qed.

Lemma filter_length_b2n {A} (p : A -> bool) (x : A) (l : list A) :
  length (filter p (x :: l)) = (Nat.b2n (p x) + length (filter p l))%nat.
Proof. simpl. destruct (p x); reflexivity. Qed.

(** The four band counts add up to the number of samples. *)
Lemma band_counts_total (values : list Q) :
  (count_if in_deep values + count_if in_light values
   + count_if in_restless values + count_if in_disturbed values
   = Z.of_nat (length values))%Z.
Proof.
  unfold count_if.
  induction values as [|x t IH]; [reflexivity|].
  rewrite !filter_length_b2n. pose proof (band_of_value x). cbn [length]. lia.
Qed.

Lemma pct_finite (c n : Z) :
  n <> 0%Z -> pct c n = Fin (inject_Z c / inject_Z n * 100).
Proof.
  intros Hn. unfold pct, np_div.
  destruct (n =? 0)%Z eqn:E; [apply Z.eqb_eq in E; contradiction|reflexivity].
Qed.

Lemma inject_Z_nonzero (n : Z) : n <> 0%Z -> ~ inject_Z n == 0.
Proof.
  intros Hn H. apply Hn. unfold Qeq in H. simpl in H. lia.
Qed.

Lemma length_nonzero {A} (l : list A) : l <> [] -> Z.of_nat (length l) <> 0%Z.
Proof. destruct l; [congruence|]. simpl. lia. Qed.

(** ** The band sum under rounding *)

Lemma band_fractions_total (values : list Q) :
  values <> [] ->
  inject_Z (count_if in_deep values) / Qlen values * 100
  + inject_Z (count_if in_light values) / Qlen values * 100
  + inject_Z (count_if in_restless values) / Qlen values * 100
  + inject_Z (count_if in_disturbed values) / Qlen values * 100
  == 100.
Proof.
  intros Hne. unfold Qlen.
  pose proof (band_counts_total values) as Hc.
  pose proof (inject_Z_nonzero _ (length_nonzero _ Hne)) as Hq.
  rewrite <- Hc in Hq |- *. rewrite !inject_Z_plus in *. field. exact Hq.
Qed.

Lemma count_if_nonneg (p : Q -> bool) (l : list Q) : 0 <= inject_Z (count_if p l).
Proof.
  change 0 with (inject_Z 0). rewrite <- Zle_Qle. unfold count_if. lia.
Qed.

Section RoundedBands.
Import Rounded.

Variable rnd : Q -> Q.

(** The standard model of a rounded operation: relative error at most
    the unit roundoff (binary64 round-to-nearest satisfies it wherever
    the result neither underflows nor overflows, as for the quotients,
    products and sums below, all between 2^-64 and 101 or zero). *)
Hypothesis rnd_relative :
  forall x, Qabs (rnd x - x) <= unit_roundoff * Qabs x.

Lemma pw_nonneg (b : Q) (k : nat) : 0 <= b -> 0 <= pw b k.
Proof.
  intros Hb. induction k as [|k IH]; simpl; [lra|].
  now apply Qmult_le_0_compat.
Qed.

Lemma within_nonneg (k : nat) (x t : Q) : 0 <= t -> within k x t -> 0 <= x.
Proof.
  intros Ht [Hlo _].
  apply Qle_trans with (2 := Hlo). apply Qmult_le_0_compat; [exact Ht|].
  apply pw_nonneg. unfold unit_roundoff. lra.
Qed.

Lemma within_exact (t : Q) : within 0 t t.
Proof. unfold within. simpl. split; lra. Qed.

Lemma within_rnd (k : nat) (x t : Q) :
  0 <= t -> within k x t -> within (S k) (rnd x) t.
Proof.
  intros Ht Hw. pose proof (within_nonneg _ _ _ Ht Hw) as Hx.
  destruct Hw as [Hlo Hhi].
  pose proof (rnd_relative x) as Hr.
  rewrite (Qabs_pos x Hx) in Hr. apply Qabs_Qle_condition in Hr.
  destruct Hr as [Hr1 Hr2].
  unfold within. simpl pw. split.
  - apply Qle_trans with (x * (1 - unit_roundoff)); [|lra].
    setoid_replace (t * ((1 - unit_roundoff) * pw (1 - unit_roundoff) k))
      with (t * pw (1 - unit_roundoff) k * (1 - unit_roundoff))
      using relation Qeq by ring.
    apply Qmult_le_compat_r; [exact Hlo|]. unfold unit_roundoff. lra.
  - apply Qle_trans with (x * (1 + unit_roundoff)); [lra|].
    setoid_replace (t * ((1 + unit_roundoff) * pw (1 + unit_roundoff) k))
      with (t * pw (1 + unit_roundoff) k * (1 + unit_roundoff))
      using relation Qeq by ring.
    apply Qmult_le_compat_r; [exact Hhi|]. unfold unit_roundoff. lra.
Qed.

Lemma within_weaken (k : nat) (x t : Q) :
  0 <= t -> within k x t -> within (S k) x t.
Proof.
  intros Ht [Hlo Hhi].
  assert (Hp1 : 0 <= t * pw (1 - unit_roundoff) k).
  { apply Qmult_le_0_compat; [exact Ht|]. apply pw_nonneg.
    unfold unit_roundoff. lra. }
  assert (Hp2 : 0 <= t * pw (1 + unit_roundoff) k).
  { apply Qmult_le_0_compat; [exact Ht|]. apply pw_nonneg.
    unfold unit_roundoff. lra. }
  unfold within. simpl pw. split.
  - apply Qle_trans with (2 := Hlo).
    setoid_replace (t * ((1 - unit_roundoff) * pw (1 - unit_roundoff) k))
      with (t * pw (1 - unit_roundoff) k
            - unit_roundoff * (t * pw (1 - unit_roundoff) k))
      using relation Qeq by ring.
    assert (0 <= unit_roundoff * (t * pw (1 - unit_roundoff) k)).
    { apply Qmult_le_0_compat; [unfold unit_roundoff; lra|exact Hp1]. }
    lra.
  - apply Qle_trans with (1 := Hhi).
    setoid_replace (t * ((1 + unit_roundoff) * pw (1 + unit_roundoff) k))
      with (t * pw (1 + unit_roundoff) k
            + unit_roundoff * (t * pw (1 + unit_roundoff) k))
      using relation Qeq by ring.
    assert (0 <= unit_roundoff * (t * pw (1 + unit_roundoff) k)).
    { apply Qmult_le_0_compat; [unfold unit_roundoff; lra|exact Hp2]. }
    lra.
Qed.

Lemma within_scale (k : nat) (x t c : Q) :
  0 <= c -> within k x t -> within k (x * c) (t * c).
Proof.
  intros Hc [Hlo Hhi]. unfold within. split.
  - setoid_replace (t * c * pw (1 - unit_roundoff) k)
      with (t * pw (1 - unit_roundoff) k * c)
      using relation Qeq by ring.
    now apply Qmult_le_compat_r.
  - setoid_replace (t * c * pw (1 + unit_roundoff) k)
      with (t * pw (1 + unit_roundoff) k * c)
      using relation Qeq by ring.
    now apply Qmult_le_compat_r.
Qed.

Lemma within_add (k : nat) (x y t s : Q) :
  within k x t -> within k y s -> within k (x + y) (t + s).
Proof.
  intros [Hlo1 Hhi1] [Hlo2 Hhi2]. unfold within.
  rewrite !Qmult_plus_distr_l. split; lra.
Qed.

Lemma within_pct (c n : Z) :
  (0 <= c)%Z -> (0 < n)%Z ->
  within 2 (pct rnd c n) (inject_Z c / inject_Z n * 100).
Proof.
  intros Hc Hn.
  assert (Hq : 0 <= inject_Z c / inject_Z n).
  { apply Qle_shift_div_l.
    - change 0 with (inject_Z 0). rewrite <- Zlt_Qlt. exact Hn.
    - rewrite Qmult_0_l. change 0 with (inject_Z 0). now rewrite <- Zle_Qle. }
  unfold pct. apply within_rnd; [lra|].
  apply within_scale; [lra|].
  apply within_rnd; [exact Hq|]. apply within_exact.
Qed.

(** Whatever the rounding function, as long as each operation is
    within the unit roundoff, the float sum of the four float
    percentages of a non-empty series is within 1e-6 of 100. *)
Lemma band_sum_rounded (values : list Q) :
  values <> [] ->
  Qabs (band_sum rnd values - 100) <= 1 # 1000000.
Proof.
  intros Hne.
  pose proof (band_fractions_total values Hne) as Htotal.
  unfold Qlen in Htotal.
  assert (Hn : (0 < Z.of_nat (length values))%Z).
  { pose proof (length_nonzero _ Hne). lia. }
  unfold band_sum.
  set (n := Z.of_nat (length values)) in *.
  assert (Hcount : forall p, (0 <= count_if p values)%Z)
    by (intros p; unfold count_if; lia).
  pose proof (within_pct _ _ (Hcount in_deep) Hn) as Hd.
  pose proof (within_pct _ _ (Hcount in_light) Hn) as Hl.
  pose proof (within_pct _ _ (Hcount in_restless) Hn) as Hr.
  pose proof (within_pct _ _ (Hcount in_disturbed) Hn) as Hx.
  assert (Hfrac : forall p, 0 <= inject_Z (count_if p values) / inject_Z n * 100).
  { intros p. apply Qmult_le_0_compat; [|lra].
    apply Qle_shift_div_l.
    - change 0 with (inject_Z 0). now rewrite <- Zlt_Qlt.
    - rewrite Qmult_0_l. apply count_if_nonneg. }
  pose proof (Hfrac in_deep) as Hd0. pose proof (Hfrac in_light) as Hl0.
  pose proof (Hfrac in_restless) as Hr0. pose proof (Hfrac in_disturbed) as Hx0.
  set (td := inject_Z (count_if in_deep values) / inject_Z n * 100) in *.
  set (tl := inject_Z (count_if in_light values) / inject_Z n * 100) in *.
  set (tr := inject_Z (count_if in_restless values) / inject_Z n * 100) in *.
  set (tx := inject_Z (count_if in_disturbed values) / inject_Z n * 100) in *.
  assert (H5 : within 5
                 (sum4 rnd (pct rnd (count_if in_deep values) n)
                    (pct rnd (count_if in_light values) n)
                    (pct rnd (count_if in_restless values) n)
                    (pct rnd (count_if in_disturbed values) n))
                 (td + tl + tr + tx)).
  { unfold sum4.
    apply within_rnd; [lra|]. apply within_add.
    - apply within_rnd; [lra|]. apply within_add.
      + apply within_rnd; [lra|]. apply within_add; assumption.
      + apply within_weaken; [lra|]. assumption.
    - apply within_weaken; [lra|]. apply within_weaken; [lra|]. assumption. }
  destruct H5 as [Hlo Hhi].
  assert (Hlo' : 100 - (1 # 1000000) <= 100 * pw (1 - unit_roundoff) 5)
    by (vm_compute; discriminate).
  assert (Hhi' : 100 * pw (1 + unit_roundoff) 5 <= 100 + (1 # 1000000))
    by (vm_compute; discriminate).
  rewrite Htotal in Hlo, Hhi.
  apply Qabs_Qle_condition. split.
  - apply Qle_trans with (100 * pw (1 - unit_roundoff) 5 - 100); [lra|].
    apply Qplus_le_l with 100. ring_simplify. lra.
  - apply Qle_trans with (100 * pw (1 + unit_roundoff) 5 - 100); [|lra].
    apply Qplus_le_l with 100. ring_simplify. lra.
Qed.

End RoundedBands.

(** C1.  On a ready analyzer (a non-empty series of finite values) the
    four band fields are finite and their sum is 100: the band counts
    are those of [x < 30], [30 <= x < 35], [35 <= x < 40], [40 <= x],
    which partition the samples.  In particular the sum is within 1e-6
    of 100; and it stays within 1e-6 of 100 when every division,
    multiplication and addition is rounded with a relative error of at
    most 2^-53. *)
Theorem C1_band_percentages_sum (self : SleepAnalyzer) (df : DataFrame)
  (flags : list bool) :
  ready self df flags ->
  exists st d l r x,
    fst (calculate_statistics self) = Return (Some st)
    /\ bands st = Some (mkBands (Fin d) (Fin l) (Fin r) (Fin x))
    /\ d == inject_Z (count_if (fun v => Qltb v 30) (dB df))
            / Qlen (dB df) * 100
    /\ l == inject_Z (count_if (fun v => Qle_bool 30 v && Qltb v 35) (dB df))
            / Qlen (dB df) * 100
    /\ r == inject_Z (count_if (fun v => Qle_bool 35 v && Qltb v 40) (dB df))
            / Qlen (dB df) * 100
    /\ x == inject_Z (count_if (fun v => Qle_bool 40 v) (dB df))
            / Qlen (dB df) * 100
    /\ d + l + r + x == 100
    /\ Qabs (d + l + r + x - 100) <= 1 # 1000000
    /\ (forall rnd : Q -> Q,
           (forall q, Qabs (rnd q - q) <= Rounded.unit_roundoff * Qabs q) ->
           Qabs (Rounded.band_sum rnd (dB df) - 100) <= 1 # 1000000).
Proof.
  intros Hready.
  destruct (calculate_statistics_ready self df flags Hready) as (hq & _ & Hrun).
  destruct Hready as (_ & _ & Hne & _).
  pose proof (length_nonzero _ Hne) as Hn.
  do 5 eexists. rewrite Hrun. split; [reflexivity|].
  split.
  { cbn [stats_of bands]. unfold band_percentages.
    rewrite !(pct_finite _ _ Hn). reflexivity. }
  do 4 (split; [reflexivity|]).
  pose proof (band_fractions_total (dB df) Hne) as Hsum. unfold Qlen in Hsum.
  split; [exact Hsum|].
  split; [rewrite Hsum; vm_compute; discriminate|].
  intros rnd Hrnd. now apply band_sum_rounded.
Qed.

Lemma C1_band_percentages_sum_witness :
  ready example_analyzer example_frame example_flags
  /\ exists st, fst (calculate_statistics example_analyzer) = Return (Some st).
Proof.
  split; [exact example_ready|].
  destruct (C1_band_percentages_sum _ _ _ example_ready)
    as (st & d & l & r & x & Hst & _).
  exists st. exact Hst.
Defined.


(** ** Rolling windows and [preprocess_data] *)

Module RollingFacts.
Import Rolling.

(** For a window of at least one sample, the bounds of position [i]
    enclose [i]. *)
Lemma window_bounds_enclose (w n i : Z) :
  (1 <= w)%Z -> (0 <= i < n)%Z ->
  (0 <= fst (window_bounds w n i) <= i)%Z
  /\ (i + 1 <= snd (window_bounds w n i) <= n)%Z.
Proof.
  intros Hw Hi. unfold window_bounds, clip. cbn [fst snd].
  assert (0 <= (w - 1) / 2 <= w - 1)%Z.
  { split; [apply Z.div_pos; lia|].
    apply Z.div_le_upper_bound; lia. }
  lia.
Qed.

Lemma slice_length {A} (s e : Z) (values : list A) :
  (0 <= s <= e)%Z -> (e <= Z.of_nat (length values))%Z ->
  length (slice s e values) = Z.to_nat (e - s).
Proof.
  intros Hs He. unfold slice.
  rewrite length_firstn, length_skipn. lia.
Qed.

(** No window is empty. *)
Lemma window_nonempty (w : Z) (values : list Q) (i : nat) :
  (1 <= w)%Z -> (i < length values)%nat -> window w values i <> [].
Proof.
  intros Hw Hi. unfold window.
  pose proof (window_bounds_enclose w (Z.of_nat (length values)) (Z.of_nat i)
                Hw ltac:(lia)) as [Hs He].
  destruct (window_bounds _ _ _) as [s e]. cbn [fst snd] in *.
  intros Hnil. apply (f_equal (@length Q)) in Hnil.
  rewrite slice_length in Hnil by lia. simpl in Hnil. lia.
Qed.

(** With a window of one sample the window of [i] is the sample at
    [i]. *)
Lemma window_one (values : list Q) (i : nat) (x : Q) :
  values !! i = Some x -> window 1 values i = [x].
Proof.
  intros Hx. pose proof (lookup_lt_Some _ _ _ Hx) as Hi.
  unfold window, window_bounds, clip, slice.
  replace ((1 - 1) / 2)%Z with 0%Z by reflexivity.
  replace (Z.min (Z.max (Z.of_nat i + 1 + 0 - 1) 0) (Z.of_nat (length values)))
    with (Z.of_nat i) by lia.
  replace (Z.min (Z.max (Z.of_nat i + 1 + 0) 0) (Z.of_nat (length values)))
    with (Z.of_nat i + 1)%Z by lia.
  replace (Z.to_nat (Z.of_nat i + 1 - Z.of_nat i)) with 1%nat by lia.
  rewrite Nat2Z.id, (drop_S _ _ _ Hx). reflexivity.
Qed.

Lemma mean_returns (w : Z) (values : list Q) :
  (1 <= w)%Z ->
  mean w 1 values
  = Return (map (fun win => if (length win <? 1)%nat then NaN
                            else Series_mean win)
                (map (window w values) (seq 0 (length values)))).
Proof.
  intros Hw. unfold mean, windows.
  destruct (Z.ltb_spec w 0); [lia|].
  destruct (Z.ltb_spec w (Z.of_nat 1)); [lia|]. reflexivity.
Qed.

Lemma std_returns (values : list Q) :
  exists sd, std 60 1 values = Return sd /\ length sd = length values.
Proof.
  eexists. split; [reflexivity|].
  now rewrite !length_map, length_seq.
Qed.

End RollingFacts.

(** [preprocess_data] on a loaded analyzer with a window of at least
    one sample: the three columns are added, ['dB'] is kept. *)
Lemma preprocess_data_loaded (self : SleepAnalyzer) (df : DataFrame) (w : Z) :
  data self = Some df -> (1 <= w)%Z ->
  exists sm rem,
    Rolling.mean w 1 (dB df) = Return sm
    /\ preprocess_data self w
       = (Return tt,
          set_data self
            (mkDataFrame (dB df) (Some sm)
               (Some (map (fun x => Qle_bool (threshold_db self) x) (dB df)))
               (Some rem))).
Proof.
  intros Hdata Hw. unfold preprocess_data. rewrite Hdata.
  rewrite (RollingFacts.mean_returns w (dB df) Hw).
  do 2 eexists. split; reflexivity.
Qed.

Lemma preprocess_data_ready (self : SleepAnalyzer) (df : DataFrame) (w : Z) :
  data self = Some df -> (1 <= w)%Z -> dB df <> [] ->
  0 < measurement_interval self ->
  exists self' df',
    preprocess_data self w = (Return tt, self')
    /\ dB df' = dB df
    /\ threshold_db self' = threshold_db self
    /\ measurement_interval self' = measurement_interval self
    /\ ready self' df'
             (map (fun x => Qle_bool (threshold_db self) x) (dB df)).
Proof.
  intros Hdata Hw Hne Hpos.
  destruct (preprocess_data_loaded self df w Hdata Hw) as (sm & rem & _ & Hrun).
  eexists.
  exists (mkDataFrame (dB df) (Some sm)
            (Some (map (fun x => Qle_bool (threshold_db self) x) (dB df)))
            (Some rem)).
  split; [exact Hrun|].
  repeat split; auto. cbn [dB]. apply length_map.
Qed.

(** The interval [load_data] leaves is positive, so a loaded series
    with at least one record is ready after [preprocess_data]. *)
Lemma infer_interval_positive (time_diff : option Q) :
  0 < infer_interval time_diff.
Proof.
  destruct time_diff as [d|]; simpl; [|reflexivity].
  unfold Qltb. destruct (Qle_bool d 0) eqn:E; simpl; [reflexivity|].
  now apply Qle_bool_false_lt.
Qed.

Lemma load_data_interval_positive (self : SleepAnalyzer) (column : list Q)
  (time_diff : option Q) :
  0 < measurement_interval (load_data self column time_diff).
Proof.
  cbn [load_data measurement_interval].
  destruct column as [|x [|y t]]; try reflexivity.
  apply infer_interval_positive.
Qed.

Lemma load_preprocess_ready (self : SleepAnalyzer) (column : list Q)
  (time_diff : option Q) (w : Z) :
  column <> [] -> (1 <= w)%Z ->
  exists self' df',
    preprocess_data (load_data self column time_diff) w = (Return tt, self')
    /\ dB df' = column
    /\ ready self' df' (map (fun x => Qle_bool (threshold_db self) x) column).
Proof.
  intros Hne Hw.
  destruct (preprocess_data_ready (load_data self column time_diff)
              (mkDataFrame column None None None) w eq_refl Hw Hne
              (load_data_interval_positive _ _ _))
    as (self' & df' & Hrun & HdB & _ & _ & Hready).
  exists self', df'. repeat split; try apply Hready; assumption.
Qed.

Lemma lookup_map {A B} (f : A -> B) (l : list A) (i : nat) :
  map f l !! i = option_map f (l !! i).
Proof.
  revert i. induction l as [|a t IH]; intros [|i]; simpl; auto.
Qed.

Lemma Series_mean_nonempty (win : list Q) :
  win <> [] -> Series_mean win = Fin (Qsum win / Qlen win).
Proof. destruct win; [congruence|reflexivity]. Qed.

(** C7.  [preprocess_data] with a window of at least one sample (the
    default is 5) stores a smoothed column with exactly one value per
    sample, none of them [nan]: every window, also at the edges, holds
    at least the sample itself.  With a window of one sample the
    smoothed column is the raw column. *)
Theorem C7_smoothing_length_identity (self : SleepAnalyzer) (df : DataFrame)
  (w : Z) :
  data self = Some df -> (1 <= w)%Z ->
  exists self' df' sm,
    preprocess_data self w = (Return tt, self')
    /\ data self' = Some df'
    /\ dB df' = dB df
    /\ dB_smoothed df' = Some sm
    /\ length sm = length (dB df)
    /\ Forall (fun v => is_finite v = true) sm
    /\ (w = 1%Z -> Forall2 same sm (map Fin (dB df))).
Proof.
  intros Hdata Hw.
  destruct (preprocess_data_loaded self df w Hdata Hw) as (sm & rem & Hsm & Hrun).
  rewrite (RollingFacts.mean_returns w (dB df) Hw) in Hsm.
  injection Hsm as Hsm.
  eexists. eexists. exists sm.
  split; [exact Hrun|]. split; [reflexivity|]. split; [reflexivity|].
  split; [reflexivity|].
  split; [subst sm; now rewrite !length_map, length_seq|].
  split.
  - subst sm. rewrite map_map. apply Forall_map, Forall_forall.
    intros i Hi. apply in_seq in Hi.
    pose proof (RollingFacts.window_nonempty w (dB df) i Hw ltac:(lia)) as Hne.
    rewrite (Series_mean_nonempty _ Hne).
    destruct (Rolling.window w (dB df) i); [congruence|reflexivity].
  - intros ->. apply Forall2_same_length_lookup_2.
    + subst sm. now rewrite !length_map, length_seq.
    + intros i x y Hx Hy. subst sm.
      rewrite !lookup_map in Hx. rewrite lookup_map in Hy.
      destruct (dB df !! i) as [v|] eqn:Hv; [|discriminate].
      injection Hy as <-.
      rewrite (lookup_seq_lt _ _ _ (lookup_lt_Some _ _ _ Hv)) in Hx.
      cbn [option_map] in Hx. injection Hx as <-.
      rewrite (RollingFacts.window_one _ _ _ Hv).
      cbn. unfold Qlen. cbn. field.
Qed.

Lemma C7_smoothing_length_identity_witness :
  exists self' df' sm,
    preprocess_data
      example_loaded 1
    = (Return tt, self')
    /\ data self' = Some df'
    /\ dB_smoothed df' = Some sm
    /\ length sm = 10%nat.
Proof.
  destruct (C7_smoothing_length_identity
              example_loaded
              (mkDataFrame example_series None None None) 1
              eq_refl ltac:(lia))
    as (self' & df' & sm & H1 & H2 & _ & H3 & H4 & _).
  exists self', df', sm. auto.
Defined.

(** ** Noise count and the disturbed band *)

Lemma count_true_map {A} (p : A -> bool) (l : list A) :
  count_true (map p l) = length (filter p l).
Proof.
  unfold count_true.
  induction l as [|a t IH]; simpl; auto.
  destruct (p a); simpl; auto.
Qed.

Lemma Qle_bool_compat_l (x y z : Q) : x == y -> Qle_bool x z = Qle_bool y z.
Proof.
  intros Hxy.
  destruct (Qle_bool x z) eqn:E1, (Qle_bool y z) eqn:E2; auto.
  - apply Qle_bool_iff in E1. rewrite Hxy in E1.
    apply Qle_bool_iff in E1. congruence.
  - apply Qle_bool_iff in E2. rewrite <- Hxy in E2.
    apply Qle_bool_iff in E2. congruence.
Qed.

(** C10.  With the threshold at 40, preprocessing followed by the
    statistics gives a noise count equal to the number of samples in
    the disturbed band ([40 <= x]) and a noise ratio equal to the
    disturbed percentage. *)
Theorem C10_noise_is_disturbed_at_40 (self : SleepAnalyzer) (df : DataFrame)
  (w : Z) :
  data self = Some df -> (1 <= w)%Z -> dB df <> [] ->
  0 < measurement_interval self ->
  threshold_db self == 40 ->
  exists self' st b,
    preprocess_data self w = (Return tt, self')
    /\ fst (calculate_statistics self') = Return (Some st)
    /\ bands st = Some b
    /\ Z.of_nat (noise_sample_count (scalars st))
       = count_if (fun v => Qle_bool 40 v) (dB df)
    /\ noise_ratio_pct (scalars st) = disturbed_pct b.
Proof.
  intros Hdata Hw Hne Hpos Hthr.
  destruct (preprocess_data_ready self df w Hdata Hw Hne Hpos)
    as (self' & df' & Hpre & HdB & _ & _ & Hready).
  destruct (calculate_statistics_ready _ _ _ Hready) as (hq & _ & Hrun).
  assert (Hcount :
    Z.of_nat (count_true (map (fun x => Qle_bool (threshold_db self) x) (dB df)))
    = count_if in_disturbed (dB df)).
  { rewrite count_true_map. unfold count_if, in_disturbed.
    do 2 f_equal. apply filter_ext. intros x.
    now apply Qle_bool_compat_l. }
  exists self'. do 2 eexists. rewrite Hrun.
  split; [exact Hpre|]. split; [reflexivity|]. split; [reflexivity|].
  cbn [stats_of scalars scalar_stats noise_sample_count noise_ratio_pct
       band_percentages disturbed_pct].
  rewrite HdB, Hcount. split; reflexivity.
Qed.

Lemma C10_noise_is_disturbed_at_40_witness :
  exists self' st,
    preprocess_data
      example_loaded
      default_window_size
    = (Return tt, self')
    /\ fst (calculate_statistics self') = Return (Some st)
    /\ noise_sample_count (scalars st) = 6%nat.
Proof.
  destruct (C10_noise_is_disturbed_at_40
              example_loaded
              (mkDataFrame example_series None None None)
              default_window_size
              eq_refl ltac:(unfold default_window_size; lia)
              ltac:(discriminate) eq_refl ltac:(reflexivity))
    as (self' & st & b & H1 & H2 & _ & H3 & _).
  exists self', st. split; [exact H1|]. split; [exact H2|].
  apply Nat2Z.inj. rewrite H3. reflexivity.
Defined.

(** ** First-hour noise ratio *)

Lemma int_of_first_hour (interval : Q) :
  0 < interval ->
  int_of (3600 / interval) = Qfloor (3600 / interval)
  /\ (0 <= Qfloor (3600 / interval))%Z.
Proof.
  intros Hpos.
  assert (H0 : 0 <= 3600 / interval).
  { apply Qle_shift_div_l; [exact Hpos|]. lra. }
  split.
  - unfold int_of. apply Qle_bool_iff in H0. now rewrite H0.
  - change 0%Z with (Qfloor 0). now apply Qfloor_resp_le.
Qed.

(** The twice rounded percentage of a part stays between 0 and 100. *)
Lemma pct_range (rnd : Q -> Q) (c n : Z) :
  Rounded.round_to_nearest rnd -> (0 <= c <= n)%Z -> (0 < n)%Z ->
  0 <= Rounded.pct rnd c n <= 100.
Proof.
  intros Hrnd Hc Hn.
  assert (Hnq : 0 < inject_Z n).
  { change 0 with (inject_Z 0). now rewrite <- Zlt_Qlt. }
  assert (Hq : 0 <= inject_Z c / inject_Z n <= 1).
  { split.
    - apply Qle_shift_div_l; [exact Hnq|]. rewrite Qmult_0_l.
      change 0 with (inject_Z 0). rewrite <- Zle_Qle. lia.
    - apply Qle_shift_div_r; [exact Hnq|]. rewrite Qmult_1_l.
      rewrite <- Zle_Qle. lia. }
  pose proof (nearest_integer rnd 0 Hrnd ltac:(vm_compute; discriminate)) as H0.
  pose proof (nearest_integer rnd 1 Hrnd ltac:(vm_compute; discriminate)) as H1.
  pose proof (nearest_integer rnd 100 Hrnd ltac:(vm_compute; discriminate))
    as H100.
  change (inject_Z 0) with 0 in H0. change (inject_Z 1) with 1 in H1.
  change (inject_Z 100) with 100 in H100.
  pose proof (Rounded.nearest_monotone rnd Hrnd _ _ (proj1 Hq)) as Hlo.
  pose proof (Rounded.nearest_monotone rnd Hrnd _ _ (proj2 Hq)) as Hhi.
  rewrite H0 in Hlo. rewrite H1 in Hhi.
  unfold Rounded.pct. split.
  - apply Qle_trans with (rnd 0); [rewrite H0; apply Qle_refl|].
    apply (Rounded.nearest_monotone rnd Hrnd). lra.
  - apply Qle_trans with (rnd 100); [|rewrite H100; apply Qle_refl].
    apply (Rounded.nearest_monotone rnd Hrnd). lra.
Qed.

(** The integer part of a rounded quotient that is a whole number. *)
Lemma floor_rounded_quotient (rnd : Q -> Q) (interval : Q) (k : Z) :
  Rounded.round_to_nearest rnd -> (0 < k <= 2 ^ 53)%Z ->
  inject_Z k * interval == 3600 ->
  Qfloor (rnd (3600 / interval)) = k
  /\ Qfloor (3600 / interval) = k.
Proof.
  intros Hrnd Hk Hdiv.
  assert (Hkq : 0 < inject_Z k).
  { change 0 with (inject_Z 0). rewrite <- Zlt_Qlt. lia. }
  assert (Hi : ~ interval == 0).
  { intros Hz. rewrite Hz, Qmult_0_r in Hdiv. discriminate. }
  assert (Hq : 3600 / interval == inject_Z k).
  { rewrite <- Hdiv. field. exact Hi. }
  split.
  - rewrite (Qfloor_comp _ (inject_Z k)); [apply Qfloor_Z|].
    rewrite (Rounded.nearest_proper rnd Hrnd _ _ Hq).
    apply nearest_integer; [exact Hrnd|lia].
  - rewrite (Qfloor_comp _ _ Hq). apply Qfloor_Z.
Qed.

(** Eleven flagged samples of twenty: binary64 stores
    55.00000000000001, one unit in the last place above 55. *)
Lemma pct_binary64_example :
  Rounded.pct Binary64.round 11 20 == 7740561859543041 # 140737488355328
  /\ Rounded.pct Binary64.round 11 20 - 55 == Binary64.pow2 (-47)
  /\ Rounded.pct Binary64.round 1 2 == 50.
Proof. repeat split. Qed.

(** C6.  On a ready analyzer, with [n] the floor of 3600 over the
    sampling interval clamped to the number of samples, the first-hour
    field is 100 times the number of flagged samples among the first
    [n] positions divided by [n].  ([n] is 0 only for an interval above
    3600 seconds; the division is then numpy's [0 / 0], [nan].)

    That is the field in exact arithmetic.  In binary64, for any round
    to nearest, [n] is the integer part of the rounded quotient (the
    same number whenever the interval divides 3600 into a whole number
    of samples), the samples are chosen by position in the same way,
    and the float stored is the quotient of the two counts rounded,
    times 100, rounded: a number between 0 and 100 within two roundings
    of the exact ratio (for 11 flagged samples of 20 binary64 stores
    55.00000000000001). *)
Theorem C6_first_hour_noise_ratio (self : SleepAnalyzer) (df : DataFrame)
  (flags : list bool) :
  ready self df flags ->
  exists st v,
    fst (calculate_statistics self) = Return (Some st)
    /\ first_hour_noise_ratio_pct st = Some v
    /\ total_samples (scalars st) = length (dB df)
    /\ (let n := Z.min (Qfloor (3600 / measurement_interval self))
                       (Z.of_nat (total_samples (scalars st))) in
        (0 <= n)%Z
        /\ ((0 < n)%Z ->
            same v (Fin (100 * inject_Z (Z.of_nat
                                           (count_true (firstn (Z.to_nat n) flags)))
                         / inject_Z n)))
        /\ (n = 0%Z -> v = NaN))
    /\ (forall rnd : Q -> Q,
          Rounded.round_to_nearest rnd ->
          let stored := Rounded.first_hour_ratio
                          rnd flags (length (dB df))
                          (measurement_interval self) in
          let n := Z.min (Qfloor (rnd (3600 / measurement_interval self)))
                         (Z.of_nat (length (dB df))) in
          let c := Z.of_nat (count_true (firstn (Z.to_nat n) flags)) in
          (0 <= n)%Z
          /\ ((0 < n)%Z ->
              stored = Fin (Rounded.pct rnd c n)
              /\ Rounded.pct rnd c n
                 = rnd (rnd (inject_Z c / inject_Z n) * 100)
              /\ Rounded.within 2 (Rounded.pct rnd c n)
                                  (inject_Z c / inject_Z n * 100)
              /\ 0 <= Rounded.pct rnd c n <= 100)
          /\ (n = 0%Z -> stored = NaN)
          /\ (forall k : Z,
                 (0 < k <= 2 ^ 53)%Z ->
                 inject_Z k * measurement_interval self == 3600 ->
                 n = Z.min (Qfloor (3600 / measurement_interval self))
                           (Z.of_nat (length (dB df))))).
Proof.
  intros Hready.
  destruct (calculate_statistics_ready self df flags Hready) as (hq & _ & Hrun).
  destruct Hready as (_ & (_ & Hflags) & _ & Hpos).
  destruct (int_of_first_hour _ Hpos) as [Hint Hfloor].
  do 2 eexists. rewrite Hrun.
  split; [reflexivity|]. split; [reflexivity|].
  cbn [stats_of scalars scalar_stats total_samples].
  split; [reflexivity|]. split.
  { unfold first_hour_ratio. rewrite Hint.
    set (n := Z.min _ _).
    assert (Hn : (0 <= n)%Z) by (subst n; lia).
    split; [exact Hn|].
    unfold iloc_until. destruct (Z.leb_spec 0 n); [|lia].
    split.
    - intros Hlt. rewrite pct_finite by lia. cbn [same].
      field. apply inject_Z_nonzero. lia.
    - intros ->. reflexivity. }
  intros rnd Hrnd.
  set (n := Z.min (Qfloor (rnd (3600 / measurement_interval self)))
                  (Z.of_nat (length (dB df)))).
  set (c := Z.of_nat (count_true (firstn (Z.to_nat n) flags))).
  set (stored := Rounded.first_hour_ratio rnd flags (length (dB df))
                   (measurement_interval self)).
  assert (Hq0 : 0 <= rnd (3600 / measurement_interval self)).
  { pose proof (nearest_integer rnd 0 Hrnd ltac:(vm_compute; discriminate))
      as H0.
    change (inject_Z 0) with 0 in H0.
    apply Qle_trans with (rnd 0); [rewrite H0; apply Qle_refl|].
    apply (Rounded.nearest_monotone rnd Hrnd).
    apply Qle_shift_div_l; [exact Hpos|]. lra. }
  assert (Hint' : int_of (rnd (3600 / measurement_interval self))
                  = Qfloor (rnd (3600 / measurement_interval self))).
  { unfold int_of. apply Qle_bool_iff in Hq0. now rewrite Hq0. }
  assert (Hfl : (0 <= Qfloor (rnd (3600 / measurement_interval self)%Q))%Z).
  { change 0%Z with (Qfloor 0). now apply Qfloor_resp_le. }
  assert (Hn : (0 <= n)%Z) by (subst n; lia).
  assert (Hstored : stored
                    = Rounded.fpct rnd c n).
  { unfold stored, Rounded.first_hour_ratio. rewrite Hint'. fold n.
    unfold iloc_until. destruct (Z.leb_spec 0 n); [|lia]. reflexivity. }
  split; [exact Hn|]. split; [|split].
  - intros Hlt.
    assert (Hc : (0 <= c <= n)%Z).
    { unfold c. split; [lia|].
      pose proof (filter_length_le (fun b : bool => b)
                    (firstn (Z.to_nat n) flags)) as H1.
      pose proof (length_firstn (Z.to_nat n) flags) as H2.
      unfold count_true. lia. }
    split.
    { rewrite Hstored. unfold Rounded.fpct, np_div.
      destruct (Z.eqb_spec n 0); [lia|reflexivity]. }
    split; [reflexivity|].
    split; [apply within_pct; [apply (Rounded.nearest_relative rnd Hrnd)|lia|exact Hlt]|].
    now apply pct_range.
  - intros Hz. rewrite Hstored. unfold c. rewrite Hz. reflexivity.
  - intros k Hk Hdiv.
    destruct (floor_rounded_quotient rnd _ k Hrnd Hk Hdiv) as [H1 H2].
    unfold n. now rewrite H1, H2.
Qed.

Lemma C6_first_hour_noise_ratio_witness :
  ready example_analyzer example_frame example_flags
  /\ exists st,
      fst (calculate_statistics example_analyzer) = Return (Some st)
      /\ exists v, first_hour_noise_ratio_pct st = Some v.
Proof.
  split; [exact example_ready|].
  destruct (C6_first_hour_noise_ratio _ _ _ example_ready)
    as (st & v & Hst & Hv & _).
  exists st. split; [exact Hst|]. exists v. exact Hv.
Defined.

(** ** Standard deviation *)

Lemma Qsum_map_ext (f g : Q -> Q) (l : list Q) :
  (forall x, f x == g x) -> Qsum (map f l) == Qsum (map g l).
Proof.
  intros H. induction l as [|a t IH]; simpl; [reflexivity|].
  now rewrite IH, (H a).
Qed.

Lemma nanvar_sample (values : list Q) :
  (2 <= length values)%nat ->
  exists v,
    nanvar 1 values = Fin v
    /\ v == sum_sq_dev values / inject_Z (Z.of_nat (length values) - 1).
Proof.
  intros Hlen. unfold nanvar.
  destruct (Nat.leb_spec (length values) 1); [lia|].
  eexists. split; [reflexivity|].
  unfold sum_sq_dev, mean_of.
  replace (Z.of_nat (length values - 1)) with (Z.of_nat (length values) - 1)%Z
    by lia.
  apply Qmult_comp; [|reflexivity].
  apply Qsum_map_ext. intros x. ring.
Qed.

Lemma nanvar_single (x : Q) : nanvar 1 [x] = NaN.
Proof. reflexivity. Qed.

(** C9.  On a ready analyzer the sample count reported is the number
    of samples of the series.  For a series of at least two samples
    the deviation field is the square root of the sum of squared
    deviations from the mean divided by the number of samples minus
    one; this differs from the population value (division by the
    number of samples) whenever the samples are not all equal to the
    mean.  For a series of a single sample the field is [nan], not
    0. *)
Theorem C9_sample_standard_deviation (self : SleepAnalyzer) (df : DataFrame)
  (flags : list bool) :
  ready self df flags ->
  exists st,
    fst (calculate_statistics self) = Return (Some st)
    /\ total_samples (scalars st) = length (dB df)
    /\ ((2 <= length (dB df))%nat ->
        exists v,
          stddev_db (scalars st) = Sqrt (Fin v)
          /\ v == sum_sq_dev (dB df)
                  / inject_Z (Z.of_nat (length (dB df)) - 1)
          /\ v == sum_sq_dev (dB df)
                  / inject_Z (Z.of_nat (total_samples (scalars st)) - 1)
          /\ root_value (stddev_db (scalars st))
             = Some (sqrt (Q2R (sum_sq_dev (dB df)
                                / inject_Z (Z.of_nat (length (dB df)) - 1))))
          /\ (0 < sum_sq_dev (dB df) ->
              ~ v == sum_sq_dev (dB df)
                     / inject_Z (Z.of_nat (length (dB df)))))
    /\ (length (dB df) = 1%nat ->
        stddev_db (scalars st) = Sqrt NaN
        /\ root_value (stddev_db (scalars st)) = None
        /\ stddev_db (scalars st) <> Sqrt (Fin 0)).
Proof.
  intros Hready.
  destruct (calculate_statistics_ready self df flags Hready) as (hq & _ & Hrun).
  eexists. rewrite Hrun. split; [reflexivity|].
  cbn [stats_of scalars scalar_stats total_samples stddev_db].
  split; [reflexivity|].
  unfold Series_std. split.
  - intros Hlen. destruct (nanvar_sample _ Hlen) as (v & Hv & Hval).
    exists v. rewrite Hv. split; [reflexivity|]. split; [exact Hval|].
    split; [exact Hval|].
    split; [cbn [root_value]; now rewrite (Qeq_eqR _ _ Hval)|].
    intros Hss Heq. rewrite Hval in Heq.
    set (n := Z.of_nat (length (dB df))) in *.
    assert (Hn1 : 0 < inject_Z (n - 1)).
    { change 0 with (inject_Z 0). rewrite <- Zlt_Qlt. lia. }
    assert (Hn : 0 < inject_Z n).
    { change 0 with (inject_Z 0). rewrite <- Zlt_Qlt. lia. }
    assert (Hd : inject_Z n == inject_Z (n - 1) + 1).
    { change 1 with (inject_Z 1). rewrite <- inject_Z_plus.
      replace (n - 1 + 1)%Z with n by lia. reflexivity. }
    assert (Hcross : sum_sq_dev (dB df) * inject_Z n
                     == sum_sq_dev (dB df) * inject_Z (n - 1)).
    { transitivity (sum_sq_dev (dB df) / inject_Z (n - 1)
                    * inject_Z (n - 1) * inject_Z n).
      - field. lra.
      - rewrite Heq. field. lra. }
    rewrite Hd in Hcross. lra.
  - intros Hlen. destruct (dB df) as [|x [|y t]]; try discriminate.
    split; [reflexivity|]. split; [reflexivity|discriminate].
Qed.

Lemma C9_sample_standard_deviation_witness :
  ready example_analyzer example_frame example_flags
  /\ exists st v,
      fst (calculate_statistics example_analyzer) = Return (Some st)
      /\ stddev_db (scalars st) = Sqrt (Fin v).
Proof.
  split; [exact example_ready|].
  destruct (C9_sample_standard_deviation _ _ _ example_ready)
    as (st & Hst & _ & Hmany & _).
  destruct Hmany as (v & Hv & _); [vm_compute; lia|].
  exists st, v. split; [exact Hst|exact Hv].
Defined.

(** ** The empty series *)

(** On the empty series the method does not return: the hourly step
    raises.  The dictionary literal and the keys up to the bands were
    stored in [self.stats] before that, computed over no sample. *)
Lemma empty_series_placeholders :
  stats empty_analyzer = None
  /\ (exists st,
         calculate_statistics empty_analyzer
         = (Raise IndexError, set_stats empty_analyzer st)
         /\ total_samples (scalars st) = 0%nat
         /\ noise_ratio_pct (scalars st) = NaN
         /\ max_noise_streak_seconds (scalars st) = 0)
  /\ ~ (exists e,
          calculate_statistics empty_analyzer = (Raise e, empty_analyzer)).
Proof.
  split; [reflexivity|]. split.
  - eexists. split; [reflexivity|]. repeat split.
  - intros (e & He). apply (f_equal (fun r => stats (snd r))) in He.
    vm_compute in He. discriminate.
Qed.

(** C3.  The claim asks that an empty series be rejected before any
    computation, with no placeholder record ever produced.  The code
    has no such check (its one guard is for missing data): on an
    annotated series without samples [calculate_statistics] does fail
    and returns no dictionary, but the failure is the [IndexError] of
    the hourly step, raised after the scalar and band entries were
    computed over no sample (counts and streak fields 0, ratios and
    decibel statistics [nan]) and stored in [self.stats], without the
    hourly list. *)
Theorem C3_empty_series_fails (self : SleepAnalyzer) (df : DataFrame)
  (flags : list bool) :
  data self = Some df -> annotated df flags -> dB df = [] ->
  0 < measurement_interval self ->
  exists st,
    calculate_statistics self = (Raise IndexError, set_stats self st)
    /\ hourly_quality st = None
    /\ total_samples (scalars st) = 0%nat
    /\ noise_sample_count (scalars st) = 0%nat
    /\ noise_ratio_pct (scalars st) = NaN
    /\ mean_db (scalars st) = NaN
    /\ max_db (scalars st) = NaN
    /\ min_db (scalars st) = NaN
    /\ stddev_db (scalars st) = Sqrt NaN
    /\ avg_noise_streak_seconds (scalars st) = 0
    /\ max_noise_streak_seconds (scalars st) = 0
    /\ first_hour_noise_ratio_pct st = Some NaN
    /\ bands st = Some (mkBands NaN NaN NaN NaN).
Proof.
  intros Hdata (Hnoise & Hlen) Hnil Hpos.
  rewrite Hnil in Hlen. destruct flags; [|discriminate].
  destruct (int_of_first_hour _ Hpos) as [Hint Hfloor].
  unfold calculate_statistics.
  rewrite Hdata, Hnoise, (Qlt_Qeq_bool_false _ Hpos), Hnil, hourly_empty.
  eexists. split; [reflexivity|].
  assert (Hfirst : first_hour_ratio [] 0 (measurement_interval self) = NaN).
  { unfold first_hour_ratio. rewrite Hint.
    replace (Z.min (Qfloor (3600 / measurement_interval self)) (Z.of_nat 0))
      with 0%Z by lia.
    reflexivity. }
  destruct (is_rem df); cbn -[first_hour_ratio]; rewrite Hfirst; repeat split.
Qed.

Lemma C3_empty_series_fails_witness :
  exists st,
    calculate_statistics empty_analyzer
    = (Raise IndexError, set_stats empty_analyzer st).
Proof.
  destruct (C3_empty_series_fails empty_analyzer empty_frame []
              eq_refl (conj eq_refl eq_refl) eq_refl eq_refl)
    as (st & Hst & _).
  exists st. exact Hst.
Defined.

(** ** Hourly aggregation *)

(** What the hourly loop yields: the hours below [ceil(t_last)] that
    hold a sample, in increasing order, each with the statistics of its
    own samples. *)
Module HourlyFacts.

Lemma hour_entry_in (times values : list Q) (h : Z) (b : HourBucket) :
  In b (hour_entry times values h) <->
  hour_data times values h <> []
  /\ b = mkHourBucket h (Series_mean (hour_data times values h))
           (pct (count_if in_deep (hour_data times values h))
                (Z.of_nat (length (hour_data times values h))))
           (pct (count_if in_restless (hour_data times values h))
                (Z.of_nat (length (hour_data times values h)))).
Proof.
  unfold hour_entry.
  destruct (hour_data times values h) as [|x t] eqn:E; simpl.
  - split; [tauto|]. intros [H _]. congruence.
  - split.
    + intros [<-|[]]. split; [discriminate|reflexivity].
    + intros [_ ->]. now left.
Qed.

Lemma range_in (k h : Z) : In h (range k) <-> (0 <= h < k)%Z.
Proof.
  unfold range. rewrite in_map_iff. split.
  - intros (i & <- & Hi). apply in_seq in Hi. lia.
  - intros Hh. exists (Z.to_nat h). split; [lia|]. apply in_seq. lia.
Qed.

(** The entries of the list. *)
Lemma hourly_entries (values : list Q) (interval : Q) (b : HourBucket) :
  values <> [] ->
  let times := time_hours (length values) interval in
  let t_last := inject_Z (Z.of_nat (length values - 1)) * interval / 3600 in
  exists hq,
    hourly values interval = Return hq
    /\ (In b hq <->
        (0 <= hour b < Qceiling t_last)%Z
        /\ hour_data times values (hour b) <> []
        /\ avg_db b = Series_mean (hour_data times values (hour b))
        /\ hour_deep_sleep_pct b
           = pct (count_if in_deep (hour_data times values (hour b)))
                 (Z.of_nat (length (hour_data times values (hour b))))
        /\ hour_restless_pct b
           = pct (count_if in_restless (hour_data times values (hour b)))
                 (Z.of_nat (length (hour_data times values (hour b))))).
Proof.
  intros Hne times t_last. eexists. split; [apply hourly_nonempty, Hne|].
  fold times t_last. rewrite in_flat_map. split.
  - intros (h & Hh & Hb). apply range_in in Hh.
    apply hour_entry_in in Hb. destruct Hb as [Hd ->]. cbn. auto.
  - intros (Hh & Hd & Havg & Hdeep & Hrest). exists (hour b).
    split; [now apply range_in|]. apply hour_entry_in.
    split; [exact Hd|]. destruct b; cbn in *. congruence.
Qed.

Lemma combine_snoc {A B} (l : list A) (k : list B) (x : A) (y : B) :
  length l = length k ->
  combine (l ++ [x]) (k ++ [y]) = combine l k ++ [(x, y)].
Proof.
  revert k. induction l as [|a l IH]; intros [|c k] Hlen;
    try discriminate; simpl; [reflexivity|].
  f_equal. apply IH. now injection Hlen.
Qed.

Lemma time_hours_length (n : nat) (interval : Q) :
  length (time_hours n interval) = n.
Proof. unfold time_hours. now rewrite length_map, length_seq. Qed.

Lemma time_hours_S (n : nat) (interval : Q) :
  time_hours (S n) interval
  = time_hours n interval ++ [inject_Z (Z.of_nat n) * interval / 3600].
Proof. unfold time_hours. now rewrite seq_S, map_app. Qed.

(** The last sample lies in the hour [floor(t_last)]. *)
Lemma last_sample_hour (values : list Q) (interval : Q) :
  values <> [] ->
  let t_last := inject_Z (Z.of_nat (length values - 1)) * interval / 3600 in
  hour_data (time_hours (length values) interval) values (Qfloor t_last) <> [].
Proof.
  intros Hne. destruct (exists_last Hne) as (init & v & ->). clear Hne.
  rewrite length_app. cbn [length].
  replace (length init + 1)%nat with (S (length init)) by lia.
  replace (S (length init) - 1)%nat with (length init) by lia.
  cbv zeta.
  set (t_last := inject_Z (Z.of_nat (length init)) * interval / 3600).
  unfold hour_data.
  rewrite time_hours_S, combine_snoc by apply time_hours_length.
  fold t_last. rewrite filter_app, map_app. cbn [filter fst].
  assert (Hin : Qle_bool (inject_Z (Qfloor t_last)) t_last
                && Qltb t_last (inject_Z (Qfloor t_last + 1)) = true).
  { apply andb_true_intro. split.
    - apply Qle_bool_iff, Qfloor_le.
    - unfold Qltb. apply negb_true_iff.
      destruct (Qle_bool (inject_Z (Qfloor t_last + 1)) t_last) eqn:E; auto.
      apply Qle_bool_iff in E. pose proof (Qlt_floor t_last). lra. }
  rewrite Hin. cbn [map snd]. intros Hnil.
  now apply app_eq_nil in Hnil as [_ Hnil].
Qed.

(** When the last sample's elapsed time is a whole number of hours,
    its hour has no entry. *)
Lemma whole_hour_left_out (values : list Q) (interval : Q) :
  values <> [] ->
  let t_last := inject_Z (Z.of_nat (length values - 1)) * interval / 3600 in
  inject_Z (Qfloor t_last) == t_last ->
  exists hq,
    hourly values interval = Return hq
    /\ ~ In (Qfloor t_last) (map hour hq).
Proof.
  intros Hne t_last Hwhole.
  eexists. split; [apply hourly_nonempty, Hne|].
  fold t_last. rewrite in_map_iff. intros (b & Hb & Hin).
  apply in_flat_map in Hin. destruct Hin as (h & Hh & Hentry).
  apply hour_entry_in in Hentry. destruct Hentry as [_ ->].
  cbn [hour] in Hb. apply range_in in Hh.
  pose proof (Qceiling_comp _ _ Hwhole) as Hc. rewrite Qceiling_Z in Hc. lia.
Qed.

(** Otherwise every hour that holds a sample has its entry. *)
Lemma fractional_hour_covered (values : list Q) (interval : Q) (h : Z) :
  values <> [] -> 0 < interval ->
  let times := time_hours (length values) interval in
  let t_last := inject_Z (Z.of_nat (length values - 1)) * interval / 3600 in
  ~ inject_Z (Qfloor t_last) == t_last ->
  hour_data times values h <> [] ->
  exists hq,
    hourly values interval = Return hq /\ In h (map hour hq).
Proof.
  intros Hne Hpos times t_last Hfrac Hdata.
  eexists. split; [apply hourly_nonempty, Hne|].
  fold times t_last. rewrite in_map_iff.
  destruct (hour_data times values h) as [|x rest] eqn:E; [congruence|].
  assert (Hx : In x (hour_data times values h)) by (rewrite E; now left).
  unfold hour_data in Hx. apply in_map_iff in Hx.
  destruct Hx as ([t v] & _ & Hx). apply filter_In in Hx.
  destruct Hx as [Hcomb Hmask]. cbn [fst] in Hmask.
  apply andb_prop in Hmask. destruct Hmask as [Hge Hlt].
  apply Qle_bool_iff in Hge.
  apply in_combine_l in Hcomb. unfold times, time_hours in Hcomb.
  apply in_map_iff in Hcomb. destruct Hcomb as (i & <- & Hi).
  apply in_seq in Hi.
  assert (Hle : inject_Z (Z.of_nat i) * interval / 3600 <= t_last).
  { unfold t_last. apply Qmult_le_compat_r; [|vm_compute; discriminate].
    apply Qmult_le_compat_r; [|lra]. rewrite <- Zle_Qle. lia. }
  assert (Hh0 : (0 <= h)%Z).
  { assert (H0 : 0 <= inject_Z (Z.of_nat i) * interval / 3600).
    { apply Qle_shift_div_l; [lra|]. rewrite Qmult_0_l.
      apply Qmult_le_0_compat; [|lra].
      change 0 with (inject_Z 0). rewrite <- Zle_Qle. lia. }
    unfold Qltb in Hlt. apply negb_true_iff, Qle_bool_false_lt in Hlt.
    assert (Hlt' : inject_Z 0 < inject_Z (h + 1))
      by (apply Qle_lt_trans with (2 := Hlt); exact H0).
    rewrite <- Zlt_Qlt in Hlt'. lia. }
  assert (Hhc : (h < Qceiling t_last)%Z).
  { assert (Hfl : (h <= Qfloor t_last)%Z).
    { rewrite <- (Qfloor_Z h). apply Qfloor_resp_le.
      exact (Qle_trans _ _ _ Hge Hle). }
    assert (Hfc : (Qfloor t_last < Qceiling t_last)%Z).
    { pose proof (Qle_floor_ceiling t_last) as H1.
      rewrite <- Zle_Qle in H1.
      destruct (Z.eq_dec (Qfloor t_last) (Qceiling t_last)) as [Heq|]; [|lia].
      exfalso. apply Hfrac.
      pose proof (Qfloor_le t_last). pose proof (Qle_ceiling t_last).
      rewrite <- Heq in *. lra. }
    lia. }
  exists (mkHourBucket h (Series_mean (hour_data times values h))
            (pct (count_if in_deep (hour_data times values h))
                 (Z.of_nat (length (hour_data times values h))))
            (pct (count_if in_restless (hour_data times values h))
                 (Z.of_nat (length (hour_data times values h))))).
  split; [reflexivity|].
  apply in_flat_map. exists h. split; [apply range_in; lia|].
  apply hour_entry_in. split; [rewrite E; discriminate|reflexivity].
Qed.

(** The hours of the list are increasing: one entry per hour, in
    order. *)
Lemma range_sorted (k : Z) : StronglySorted Z.lt (range k).
Proof.
  unfold range. generalize 0%nat as a.
  induction (Z.to_nat k) as [|n IH]; intros a; simpl; constructor.
  - apply IH.
  - apply Forall_forall. intros h Hh. apply in_map_iff in Hh.
    destruct Hh as (i & <- & Hi). apply in_seq in Hi. lia.
Qed.

Lemma hourly_hours_sorted (values : list Q) (interval : Q) :
  values <> [] ->
  exists hq,
    hourly values interval = Return hq
    /\ StronglySorted Z.lt (map hour hq).
Proof.
  intros Hne. eexists. split; [apply hourly_nonempty, Hne|].
  set (times := time_hours (length values) interval).
  induction (range_sorted
               (Qceiling (inject_Z (Z.of_nat (length values - 1))
                          * interval / 3600))) as [|h hs Hs IH Hall].
  - constructor.
  - cbn [flat_map]. rewrite map_app.
    destruct (hour_entry times values h) as [|b rest] eqn:E; [exact IH|].
    assert (Hb : In b (hour_entry times values h)) by (rewrite E; now left).
    apply hour_entry_in in Hb. destruct Hb as [_ Hb].
    unfold hour_entry in E.
    destruct (hour_data times values h); [discriminate|].
    injection E as _ <-. rewrite Hb. cbn [map hour app].
    constructor; [exact IH|].
    apply Forall_forall. intros h' Hh'. apply in_map_iff in Hh'.
    destruct Hh' as (b' & <- & Hb'). apply in_flat_map in Hb'.
    destruct Hb' as (h'' & Hin & Hentry).
    apply hour_entry_in in Hentry. destruct Hentry as [_ ->]. cbn [hour].
    rewrite Forall_forall in Hall. now apply Hall.
Qed.

End HourlyFacts.

(** C4, where the code departs from it.  The loop runs over
    [range(ceil(t_last))], which leaves out the hour of the last sample
    whenever its elapsed time is a whole number of hours: a one-sample
    series (elapsed time 0) gets no entry at all, and of two samples an
    hour apart only hour 0 gets one, although the second sample lies in
    hour 1. *)
Theorem C4_hourly_last_hour_left_out :
  (exists st,
      fst (calculate_statistics single_sample_analyzer) = Return (Some st)
      /\ total_samples (scalars st) = 1%nat
      /\ Qfloor (inject_Z 0 * measurement_interval single_sample_analyzer / 3600)
         = 0%Z
      /\ hourly_quality st = Some [])
  /\ (exists st,
         fst (calculate_statistics hour_apart_analyzer) = Return (Some st)
         /\ total_samples (scalars st) = 2%nat
         /\ Qfloor (inject_Z 1 * measurement_interval hour_apart_analyzer / 3600)
            = 1%Z
         /\ option_map (map hour) (hourly_quality st) = Some [0%Z]).
Proof.
  split; eexists; (split; [vm_compute; reflexivity|]); repeat split.
Qed.

(** ** Conditions *)

Module HypothesisFacts.
Import HypothesisTest.

Lemma registry_AB_lookup_A (a b : Q) :
  condition_stats (registry_AB a b) !! "A"%string
  = Some (condition_with_noise_ratio a).
Proof.
  unfold registry_AB, register. cbn [condition_stats].
  rewrite lookup_insert_ne by discriminate. apply lookup_insert_eq.
Qed.

Lemma registry_AB_lookup_B (a b : Q) :
  condition_stats (registry_AB a b) !! "B"%string
  = Some (condition_with_noise_ratio b).
Proof.
  unfold registry_AB, register. cbn [condition_stats].
  apply lookup_insert_eq.
Qed.

(** The A/B part of [test_hypothesis2]. *)
Lemma test_hypothesis2_AB pearsonr rnd (self : t) (threshold : Q)
  (stats_A stats_B : Stats) :
  condition_stats self !! "A"%string = Some stats_A ->
  condition_stats self !! "B"%string = Some stats_B ->
  let r := test_hypothesis2 pearsonr rnd self threshold in
  let difference := fsub_rnd rnd (noise_ratio_pct (scalars stats_B))
                                 (noise_ratio_pct (scalars stats_A)) in
  noise_A r = Some (noise_ratio_pct (scalars stats_A))
  /\ noise_B r = Some (noise_ratio_pct (scalars stats_B))
  /\ difference_pct_points r = Some difference
  /\ decision r = Some (if abs_ge difference threshold
                        then Supported else Rejected).
Proof.
  intros HA HB. unfold test_hypothesis2. rewrite HA, HB. cbn.
  repeat split.
Qed.

(** C5.  With conditions "A" and "B" registered (their noise ratios
    finite, as [calculate_statistics] returns them), the difference
    entry is B's ratio minus A's as binary64 subtracts them, that is
    the exact difference rounded to nearest, and the verdict is
    "supported" exactly when the absolute value of this entry reaches
    the threshold, "rejected" otherwise.  For a round to nearest the
    entry is within the unit roundoff of the exact difference and is
    the exact difference whenever that is a binary64 number; so with
    the default threshold 5, ratios 2.0 and 8.5 give +6.5 and
    "supported", 2.0 and 5.0 give +3.0 and "rejected". *)
Theorem C5_h2_two_group_decision pearsonr rnd :
  (forall (self : t) (threshold : Q) (stats_A stats_B : Stats) (a b : Q),
      condition_stats self !! "A"%string = Some stats_A ->
      condition_stats self !! "B"%string = Some stats_B ->
      noise_ratio_pct (scalars stats_A) = Fin a ->
      noise_ratio_pct (scalars stats_B) = Fin b ->
      let r := test_hypothesis2 pearsonr rnd self threshold in
      let d := rnd (b - a) in
      difference_pct_points r = Some (Fin d)
      /\ (decision r = Some Supported \/ decision r = Some Rejected)
      /\ (decision r = Some Supported <-> threshold <= Qabs d)
      /\ (decision r = Some Rejected <-> Qabs d < threshold)
      /\ (Rounded.round_to_nearest rnd ->
          Qabs (d - (b - a)) <= Rounded.unit_roundoff * Qabs (b - a)
          /\ (forall m k : Z,
                 (Z.abs m <= 2 ^ 53)%Z ->
                 b - a == inject_Z m * Binary64.pow2 k -> d == b - a)))
  /\ (Rounded.round_to_nearest rnd ->
      let r := test_hypothesis2 pearsonr rnd (registry_AB 2 (85 # 10))
                                default_significance_threshold in
      (exists d, difference_pct_points r = Some (Fin d) /\ d == 65 # 10)
      /\ decision r = Some Supported)
  /\ (Rounded.round_to_nearest rnd ->
      let r := test_hypothesis2 pearsonr rnd (registry_AB 2 5)
                                default_significance_threshold in
      (exists d, difference_pct_points r = Some (Fin d) /\ d == 3)
      /\ decision r = Some Rejected).
Proof.
  assert (Hgen : forall (self : t) (threshold : Q) (stats_A stats_B : Stats)
                        (a b : Q),
             condition_stats self !! "A"%string = Some stats_A ->
             condition_stats self !! "B"%string = Some stats_B ->
             noise_ratio_pct (scalars stats_A) = Fin a ->
             noise_ratio_pct (scalars stats_B) = Fin b ->
             let r := test_hypothesis2 pearsonr rnd self threshold in
             let d := rnd (b - a) in
             difference_pct_points r = Some (Fin d)
             /\ (decision r = Some Supported \/ decision r = Some Rejected)
             /\ (decision r = Some Supported <-> threshold <= Qabs d)
             /\ (decision r = Some Rejected <-> Qabs d < threshold)).
  { intros self threshold stats_A stats_B a b HA HB Ha Hb r d.
    destruct (test_hypothesis2_AB pearsonr rnd self threshold _ _ HA HB)
      as (_ & _ & Hdiff & Hdec).
    fold r in Hdiff, Hdec. rewrite Ha, Hb in Hdiff, Hdec.
    cbn [fsub_rnd fsub abs_ge] in Hdiff, Hdec. fold d in Hdiff, Hdec.
    split; [exact Hdiff|]. rewrite Hdec.
    destruct (Qle_bool threshold (Qabs d)) eqn:E.
    + apply Qle_bool_iff in E. split; [now left|].
      split; split; auto; try discriminate.
      intros Hlt. exfalso. exact (Qlt_not_le _ _ Hlt E).
    + apply Qle_bool_false_lt in E. split; [now right|].
      split; split; auto; try discriminate.
      intros Hle. exfalso. exact (Qlt_not_le _ _ E Hle). }
  assert (Hexact : Rounded.round_to_nearest rnd ->
            forall (x : Q) (m k : Z),
              (Z.abs m <= 2 ^ 53)%Z -> x == inject_Z m * Binary64.pow2 k ->
              rnd x == x).
  { intros Hrnd x m k Hm Hx.
    rewrite (Rounded.nearest_proper rnd Hrnd _ _ Hx), Hx.
    now apply Rounded.nearest_representable. }
  split; [|split].
  - intros self threshold stats_A stats_B a b HA HB Ha Hb r d.
    destruct (Hgen self threshold stats_A stats_B a b HA HB Ha Hb)
      as (H1 & H2 & H3 & H4).
    split; [exact H1|]. split; [exact H2|]. split; [exact H3|].
    split; [exact H4|]. intros Hrnd. split.
    + apply (Rounded.nearest_relative rnd Hrnd).
    + intros m k Hm Hx. exact (Hexact Hrnd _ m k Hm Hx).
  - intros Hrnd r.
    destruct (Hgen (registry_AB 2 (85 # 10)) default_significance_threshold
                _ _ 2 (85 # 10)
                (registry_AB_lookup_A 2 (85 # 10))
                (registry_AB_lookup_B 2 (85 # 10)) eq_refl eq_refl)
      as (Hdiff & _ & Hsup & _).
    fold r in Hdiff, Hsup.
    assert (Hd : rnd ((85 # 10) - 2) == 65 # 10).
    { rewrite (Hexact Hrnd _ 13%Z (-1)%Z); [reflexivity|vm_compute; discriminate|reflexivity]. }
    split.
    + eexists. split; [exact Hdiff|exact Hd].
    + apply Hsup. rewrite Hd. vm_compute. discriminate.
  - intros Hrnd r.
    destruct (Hgen (registry_AB 2 5) default_significance_threshold
                _ _ 2 5
                (registry_AB_lookup_A 2 5) (registry_AB_lookup_B 2 5)
                eq_refl eq_refl)
      as (Hdiff & _ & _ & Hrej).
    fold r in Hdiff, Hrej.
    assert (Hd : rnd (5 - 2) == 3).
    { rewrite (Hexact Hrnd _ 3%Z 0%Z); [reflexivity|vm_compute; discriminate|reflexivity]. }
    split.
    + eexists. split; [exact Hdiff|exact Hd].
    + apply Hrej. rewrite Hd. reflexivity.
Qed.

(** In binary64 the doubles nearest to 0.1 and to 5.1 differ by less
    than 5, yet their computed difference is 5: at the threshold 5 the
    verdict is "supported". *)
Lemma C5_h2_two_group_decision_witness :
  double_5_1 - double_0_1 < 5
  /\ Binary64.round (double_5_1 - double_0_1) == 5
  /\ decision
       (test_hypothesis2 (fun _ _ => (NaN, NaN)) Binary64.round
                         (registry_AB double_0_1 double_5_1)
                         default_significance_threshold)
     = Some Supported.
Proof.
  split; [reflexivity|]. split; [reflexivity|].
  apply (proj1 (C5_h2_two_group_decision (fun _ _ => (NaN, NaN))
                  Binary64.round)
           (registry_AB double_0_1 double_5_1) default_significance_threshold
           (condition_with_noise_ratio double_0_1)
           (condition_with_noise_ratio double_5_1) double_0_1 double_5_1
           (registry_AB_lookup_A _ _) (registry_AB_lookup_B _ _)
           eq_refl eq_refl).
  vm_compute. discriminate.
Defined.

(** *** [compare_conditions] *)

Lemma is_column_scalar (stats : gmap string Stats) (m : metric) :
  (0 < size stats)%nat ->
  (forall st, get m st <> None) ->
  is_column stats m = true.
Proof.
  intros Hsize Hget. unfold is_column.
  rewrite <- length_map_to_list in Hsize.
  destruct (map_to_list stats) as [|[k st] rest]; [simpl in Hsize; lia|].
  simpl. destruct (get m st) eqn:E; [reflexivity|].
  now apply Hget in E.
Qed.

Lemma is_column_iff (stats : gmap string Stats) (m : metric) :
  is_column stats m = true
  <-> exists name st, stats !! name = Some st /\ get m st <> None.
Proof.
  unfold is_column. rewrite existsb_exists. split.
  - intros ([k st] & Hin & Hget).
    apply list_elem_of_In, elem_of_map_to_list in Hin.
    exists k, st. split; [exact Hin|].
    simpl in Hget. destruct (get m st); [discriminate|congruence].
  - intros (k & st & Hk & Hget). exists (k, st). split.
    + now apply list_elem_of_In, elem_of_map_to_list.
    + simpl. destruct (get m st); [reflexivity|congruence].
Qed.

(** C8.  With fewer than two registered conditions (so also with
    exactly one) [compare_conditions] returns [None], the
    insufficient-conditions result, and no frame; nothing is raised.
    With two or more it returns a frame whose rows are keyed by exactly
    the registered names and whose columns are the entries of the fixed
    list [key_metrics] that occur in some condition, in that order
    (noise ratio, mean, maximum and average streak always; first-hour
    ratio and phone usage only if some condition carries them).  Every
    row is as long as the list of columns and holds, under each
    column, that entry of its own condition's dictionary: the noise
    ratio under the noise-ratio column, the mean under the mean
    column, and so on, [nan] where the condition lacks the entry. *)
Theorem C8_compare_conditions (self : t) :
  ((size (condition_stats self) < 2)%nat -> compare_conditions self = None)
  /\ (size (condition_stats self) = 1%nat -> compare_conditions self = None)
  /\ ((2 <= size (condition_stats self))%nat ->
      exists table,
        compare_conditions self = Some table
        /\ dom (rows table) = dom (condition_stats self)
        /\ (forall name st,
               condition_stats self !! name = Some st ->
               exists row,
                 rows table !! name = Some row
                 /\ length row = length (columns table)
                 /\ forall i m,
                      nth_error (columns table) i = Some m ->
                      nth_error row i
                      = Some match m with
                             | NoiseRatio => noise_ratio_pct (scalars st)
                             | MeanDb => mean_db (scalars st)
                             | MaxDb => max_db (scalars st)
                             | AvgStreak =>
                                 Fin (avg_noise_streak_seconds (scalars st))
                             | FirstHourNoiseRatio =>
                                 match first_hour_noise_ratio_pct st with
                                 | Some v => v
                                 | None => NaN
                                 end
                             | PhoneUsageMinutes =>
                                 match phone_usage_minutes st with
                                 | Some p => Fin p
                                 | None => NaN
                                 end
                             end)
        /\ NoDup (columns table)
        /\ (exists keep,
               columns table = filter keep key_metrics
               /\ forall m,
                    keep m = true
                    <-> match m with
                        | FirstHourNoiseRatio =>
                            exists name st,
                              condition_stats self !! name = Some st
                              /\ first_hour_noise_ratio_pct st <> None
                        | PhoneUsageMinutes =>
                            exists name st,
                              condition_stats self !! name = Some st
                              /\ phone_usage_minutes st <> None
                        | _ => True
                        end)
        /\ incl (columns table) key_metrics
        /\ incl [NoiseRatio; MeanDb; MaxDb; AvgStreak] (columns table)
        /\ (In PhoneUsageMinutes (columns table)
            <-> exists name st,
                condition_stats self !! name = Some st
                /\ phone_usage_minutes st <> None)).
Proof.
  assert (Hfew : (size (condition_stats self) < 2)%nat ->
                 compare_conditions self = None).
  { intros Hlt. unfold compare_conditions.
    destruct (Nat.ltb_spec (size (condition_stats self)) 2); [reflexivity|lia]. }
  split; [exact Hfew|]. split; [intros H1; apply Hfew; lia|].
  intros Hge. unfold compare_conditions.
  destruct (Nat.ltb_spec (size (condition_stats self)) 2); [lia|].
  eexists. split; [reflexivity|]. cbn [rows columns].
  split; [apply dom_fmap_L|].
  split.
  { intros name st Hst. eexists. rewrite lookup_fmap, Hst.
    split; [reflexivity|]. split; [apply length_map|].
    intros i m Hm. rewrite nth_error_map, Hm. cbn [option_map].
    f_equal. unfold cell, get.
    destruct m; try reflexivity.
    destruct (phone_usage_minutes st); reflexivity. }
  split.
  { apply List.NoDup_filter. unfold key_metrics.
    repeat (constructor; [simpl; intuition discriminate|]). constructor. }
  split.
  { exists (is_column (condition_stats self)). split; [reflexivity|].
    intros m. rewrite is_column_iff.
    assert (Hscalar : forall m', (forall st, get m' st <> None) ->
              exists name st,
                condition_stats self !! name = Some st /\ get m' st <> None).
    { intros m' Hm'. apply is_column_iff. apply is_column_scalar; [lia|exact Hm']. }
    destruct m; split; try (intros _; exact I).
    - intros _. apply Hscalar. discriminate.
    - intros _. apply Hscalar. discriminate.
    - intros _. apply Hscalar. discriminate.
    - intros _. apply Hscalar. discriminate.
    - intros H'. exact H'.
    - intros H'. exact H'.
    - intros (name & st & Hst & Hget). exists name, st.
      split; [exact Hst|]. cbn [get] in Hget.
      destruct (phone_usage_minutes st); [discriminate|exfalso; now apply Hget].
    - intros (name & st & Hst & Hphone). exists name, st.
      split; [exact Hst|]. cbn [get].
      destruct (phone_usage_minutes st); [discriminate|exfalso; now apply Hphone]. }
  split; [intros m Hm; apply filter_In in Hm; tauto|].
  split.
  - intros m Hm. apply filter_In. split.
    + simpl in Hm. unfold key_metrics. simpl.
      repeat destruct Hm as [<-|Hm]; tauto.
    + apply is_column_scalar; [lia|].
      simpl in Hm. repeat destruct Hm as [<-|Hm]; try tauto; discriminate.
  - rewrite filter_In, is_column_iff. split.
    + intros (_ & name & st & Hst & Hget). exists name, st.
      split; [exact Hst|]. simpl in Hget.
      destruct (phone_usage_minutes st); [discriminate|exfalso; now apply Hget].
    + intros (name & st & Hst & Hphone). split.
      * unfold key_metrics. simpl. tauto.
      * exists name, st. split; [exact Hst|]. simpl.
        destruct (phone_usage_minutes st); [discriminate|exfalso; now apply Hphone].
Qed.

Lemma C8_compare_conditions_witness :
  compare_conditions
    (register (mk default_threshold_db ∅) "A" (condition_with_noise_ratio 2))
  = None
  /\ exists table, compare_conditions (registry_AB 2 5) = Some table.
Proof.
  split.
  - apply (proj1 (proj2 (C8_compare_conditions _))). reflexivity.
  - destruct (proj2 (proj2 (C8_compare_conditions (registry_AB 2 5))))
      as (table & Htable & _).
    + vm_compute. lia.
    + exists table. exact Htable.
Defined.

End HypothesisFacts.

(** * Further properties *)

(** ** [calculate_statistics]: outcomes *)

(** X1.  With a positive interval, [calculate_statistics] returns a
    dictionary exactly when data is loaded, the noise column is
    present and there is at least one record; it returns [None]
    exactly when no data is loaded, raises [KeyError] exactly when the
    data was not preprocessed, and [IndexError] exactly on a
    preprocessed frame without records. *)
Theorem X1_calculate_statistics_outcomes (self : SleepAnalyzer) :
  0 < measurement_interval self ->
  ((exists st, fst (calculate_statistics self) = Return (Some st))
   <-> exists df, data self = Some df /\ is_noise df <> None /\ dB df <> [])
  /\ (fst (calculate_statistics self) = Return None <-> data self = None)
  /\ (fst (calculate_statistics self) = Raise (KeyError "is_noise")
      <-> exists df, data self = Some df /\ is_noise df = None)
  /\ (fst (calculate_statistics self) = Raise IndexError
      <-> exists df, data self = Some df /\ is_noise df <> None /\ dB df = []).
Proof.
  intros Hpos. unfold calculate_statistics.
  rewrite (Qlt_Qeq_bool_false _ Hpos).
  destruct (data self) as [df|].
  - destruct (is_noise df) as [flags|] eqn:Hflags.
    + destruct (dB df) as [|x t] eqn:HdB.
      * rewrite hourly_empty. cbn [fst]. repeat split.
        -- intros (st & Hst). discriminate.
        -- intros (df' & Hdf & _ & Hne). injection Hdf as <-. congruence.
        -- discriminate.
        -- discriminate.
        -- discriminate.
        -- intros (df' & Hdf & Hno). injection Hdf as <-. congruence.
        -- intros _. exists df. rewrite Hflags, HdB. repeat split. discriminate.
      * rewrite hourly_nonempty by discriminate. cbn [fst]. repeat split.
        -- intros _. exists df. rewrite Hflags, HdB.
           repeat split; discriminate.
        -- intros _. eexists. reflexivity.
        -- discriminate.
        -- discriminate.
        -- discriminate.
        -- intros (df' & Hdf & Hno). injection Hdf as <-. congruence.
        -- discriminate.
        -- intros (df' & Hdf & _ & Hnil). injection Hdf as <-. congruence.
    + cbn [fst]. repeat split.
      * intros (st & Hst). discriminate.
      * intros (df' & Hdf & Hno & _). injection Hdf as <-. congruence.
      * discriminate.
      * discriminate.
      * intros _. exists df. split; [reflexivity|exact Hflags].
      * discriminate.
      * intros (df' & Hdf & Hno & _). injection Hdf as <-. congruence.
  - cbn [fst]. repeat split; try discriminate.
    + intros (st & Hst). discriminate.
    + intros (df & Hdf & _). discriminate.
    + intros (df & Hdf & _). discriminate.
    + intros (df & Hdf & _). discriminate.
Qed.

Lemma X1_calculate_statistics_outcomes_witness :
  exists st, fst (calculate_statistics example_analyzer) = Return (Some st).
Proof.
  apply (proj1 (X1_calculate_statistics_outcomes example_analyzer eq_refl)).
  exists example_frame. repeat split; discriminate.
Defined.

(** ** Scalar metrics *)

Lemma count_true_le_length (l : list bool) : (count_true l <= length l)%nat.
Proof. unfold count_true. apply filter_length_le. Qed.

Lemma noise_ratio_range (values : list Q) (flags : list bool) (interval : Q) :
  values <> [] -> length flags = length values ->
  exists r,
    noise_ratio_pct (scalar_stats values flags interval) = Fin r
    /\ r == 100 * inject_Z (Z.of_nat (count_true flags))
            / inject_Z (Z.of_nat (length values))
    /\ 0 <= r <= 100.
Proof.
  intros Hne Hlen. pose proof (length_nonzero _ Hne) as Hn.
  cbn [scalar_stats noise_ratio_pct]. rewrite (pct_finite _ _ Hn).
  eexists. split; [reflexivity|].
  pose proof (count_true_le_length flags) as Hle. rewrite Hlen in Hle.
  assert (Hq : 0 < inject_Z (Z.of_nat (length values))).
  { change 0 with (inject_Z 0). rewrite <- Zlt_Qlt. lia. }
  split; [field; lra|].
  assert (Hc0 : 0 <= inject_Z (Z.of_nat (count_true flags))).
  { change 0 with (inject_Z 0). rewrite <- Zle_Qle. lia. }
  assert (Hcn : inject_Z (Z.of_nat (count_true flags))
                <= inject_Z (Z.of_nat (length values))).
  { rewrite <- Zle_Qle. lia. }
  split.
  - apply Qmult_le_0_compat; [|lra]. apply Qle_shift_div_l; lra.
  - apply Qle_trans with (1 * 100); [|lra].
    apply Qmult_le_compat_r; [|lra]. apply Qle_shift_div_r; lra.
Qed.

(** X2.  On a ready analyzer the noise count is the number of flagged
    samples and does not exceed the number of samples, which is
    positive, and the noise ratio is a finite number between 0 and 100.
    As binary64 computes it, for any round to nearest, the ratio is the
    quotient of the two counts rounded, times 100, rounded: a number
    between 0 and 100, within two roundings of
    [100 * noise_sample_count / total_samples] and of the field as the
    dictionary in exact arithmetic has it. *)
Theorem X2_noise_ratio_bounded (self : SleepAnalyzer)
  (df : DataFrame) (flags : list bool) :
  ready self df flags ->
  exists st r,
    fst (calculate_statistics self) = Return (Some st)
    /\ total_samples (scalars st) = length (dB df)
    /\ noise_sample_count (scalars st) = count_true flags
    /\ (noise_sample_count (scalars st) <= total_samples (scalars st))%nat
    /\ (0 < total_samples (scalars st))%nat
    /\ noise_ratio_pct (scalars st) = Fin r
    /\ 0 <= r <= 100
    /\ (forall rnd : Q -> Q,
          Rounded.round_to_nearest rnd ->
          let c := Z.of_nat (noise_sample_count (scalars st)) in
          let n := Z.of_nat (total_samples (scalars st)) in
          Rounded.fpct rnd c n = Fin (Rounded.pct rnd c n)
          /\ Rounded.pct rnd c n = rnd (rnd (inject_Z c / inject_Z n) * 100)
          /\ 0 <= Rounded.pct rnd c n <= 100
          /\ Rounded.within 2 (Rounded.pct rnd c n)
                              (inject_Z c / inject_Z n * 100)
          /\ Rounded.within 2 (Rounded.pct rnd c n) r).
Proof.
  intros Hready.
  destruct (calculate_statistics_ready self df flags Hready) as (hq & _ & Hrun).
  destruct Hready as (_ & (_ & Hlen) & Hne & _).
  destruct (noise_ratio_range (dB df) flags (measurement_interval self)
              Hne Hlen) as (r & Hr & Hval & Hrange).
  pose proof (length_nonzero _ Hne) as Hn.
  eexists. exists r. rewrite Hrun. split; [reflexivity|].
  cbn [stats_of scalars].
  pose proof (count_true_le_length flags) as Hle. rewrite Hlen in Hle.
  split; [reflexivity|]. split; [reflexivity|].
  split; [exact Hle|]. split; [cbn [scalar_stats total_samples]; lia|].
  split; [exact Hr|]. split; [exact Hrange|].
  intros rnd Hrnd. cbn [scalar_stats total_samples noise_sample_count].
  set (c := Z.of_nat (count_true flags)).
  set (n := Z.of_nat (length (dB df))).
  assert (Hc : (0 <= c <= n)%Z) by (unfold c, n; lia).
  assert (Hn' : (0 < n)%Z) by (unfold n; lia).
  pose proof (within_pct rnd (Rounded.nearest_relative rnd Hrnd) c n
                ltac:(lia) Hn') as Hw.
  split.
  { unfold Rounded.fpct, np_div.
    destruct (Z.eqb_spec n 0); [lia|reflexivity]. }
  split; [reflexivity|].
  split; [now apply pct_range|].
  split; [exact Hw|].
  assert (Heq : r == inject_Z c / inject_Z n * 100).
  { rewrite Hval. unfold c, n. field. apply inject_Z_nonzero. lia. }
  unfold Rounded.within in *. rewrite Heq. exact Hw.
Qed.

Lemma X2_noise_ratio_bounded_witness :
  exists st, fst (calculate_statistics example_analyzer) = Return (Some st).
Proof.
  destruct (X2_noise_ratio_bounded _ _ _ example_ready)
    as (st & r & Hst & _).
  exists st. exact Hst.
Defined.

Module ColumnFacts.

Lemma Qmax_ub (x y : Q) : x <= Qmax x y /\ y <= Qmax x y.
Proof.
  unfold Qmax. destruct (Qle_bool x y) eqn:E.
  - apply Qle_bool_iff in E. split; [exact E|apply Qle_refl].
  - apply Qle_bool_false_lt in E. split; [apply Qle_refl|now apply Qlt_le_weak].
Qed.

Lemma Qmin_lb (x y : Q) : Qmin x y <= x /\ Qmin x y <= y.
Proof.
  unfold Qmin. destruct (Qle_bool x y) eqn:E.
  - apply Qle_bool_iff in E. split; [apply Qle_refl|exact E].
  - apply Qle_bool_false_lt in E. split; [now apply Qlt_le_weak|apply Qle_refl].
Qed.

Lemma fold_Qmax_ub (t : list Q) :
  forall x, x <= fold_left Qmax t x
            /\ Forall (fun y => y <= fold_left Qmax t x) t
            /\ In (fold_left Qmax t x) (x :: t).
Proof.
  induction t as [|a t IH]; intros x; simpl.
  - split; [apply Qle_refl|]. split; [constructor|now left].
  - destruct (IH (Qmax x a)) as (H1 & H2 & H3).
    destruct (Qmax_ub x a) as [Hx Ha].
    split; [now apply Qle_trans with (Qmax x a)|].
    split.
    + constructor; [now apply Qle_trans with (Qmax x a)|exact H2].
    + destruct H3 as [H3|H3]; [|now right; right].
      rewrite <- H3. unfold Qmax. destruct (Qle_bool x a); auto.
Qed.

Lemma fold_Qmin_lb (t : list Q) :
  forall x, fold_left Qmin t x <= x
            /\ Forall (fun y => fold_left Qmin t x <= y) t
            /\ In (fold_left Qmin t x) (x :: t).
Proof.
  induction t as [|a t IH]; intros x; simpl.
  - split; [apply Qle_refl|]. split; [constructor|now left].
  - destruct (IH (Qmin x a)) as (H1 & H2 & H3).
    destruct (Qmin_lb x a) as [Hx Ha].
    split; [now apply Qle_trans with (Qmin x a)|].
    split.
    + constructor; [now apply Qle_trans with (Qmin x a)|exact H2].
    + destruct H3 as [H3|H3]; [|now right; right].
      rewrite <- H3. unfold Qmin. destruct (Qle_bool x a); auto.
Qed.

(** The extremes of a non-empty column are attained and bound it. *)
Lemma Series_max_spec (values : list Q) :
  values <> [] ->
  exists hi, Series_max values = Fin hi /\ In hi values
             /\ Forall (fun y => y <= hi) values.
Proof.
  destruct values as [|x t]; [congruence|]. intros _.
  destruct (fold_Qmax_ub t x) as (H1 & H2 & H3).
  eexists. split; [reflexivity|]. split; [exact H3|]. now constructor.
Qed.

Lemma Series_min_spec (values : list Q) :
  values <> [] ->
  exists lo, Series_min values = Fin lo /\ In lo values
             /\ Forall (fun y => lo <= y) values.
Proof.
  destruct values as [|x t]; [congruence|]. intros _.
  destruct (fold_Qmin_lb t x) as (H1 & H2 & H3).
  eexists. split; [reflexivity|]. split; [exact H3|]. now constructor.
Qed.

Lemma Qsum_bounds (lo hi : Q) (l : list Q) :
  Forall (fun y => lo <= y <= hi) l ->
  lo * Qlen l <= Qsum l <= hi * Qlen l.
Proof.
  unfold Qlen. induction 1 as [|y l [Hlo Hhi] _ IH].
  - change (inject_Z (Z.of_nat (length (@nil Q)))) with 0.
    rewrite !Qmult_0_r. split; apply Qle_refl.
  - cbn [length Qsum fold_right].
    fold (Qsum l). rewrite Nat2Z.inj_succ. unfold Z.succ.
    rewrite inject_Z_plus, !Qmult_plus_distr_r.
    change (inject_Z 1) with 1. destruct IH. split; lra.
Qed.

(** The mean of a non-empty list lies within any bounds of its
    elements. *)
Lemma mean_bounds (lo hi : Q) (l : list Q) :
  l <> [] -> Forall (fun y => lo <= y <= hi) l ->
  lo <= Qsum l / Qlen l <= hi.
Proof.
  intros Hne Hall. destruct (Qsum_bounds lo hi l Hall) as [H1 H2].
  assert (Hn : 0 < Qlen l).
  { unfold Qlen. change 0 with (inject_Z 0). rewrite <- Zlt_Qlt.
    pose proof (length_nonzero _ Hne). lia. }
  split.
  - apply Qle_shift_div_l; assumption.
  - apply Qle_shift_div_r; assumption.
Qed.

End ColumnFacts.

(** ** Float sums between integer bounds *)

Module SumFacts.
Import RoundedSum.

(** A float sum of [k] values between the integers [L] and [H] lies
    between [k * L] and [k * H] as long as these are below [2 ^ 53]:
    each partial sum is bounded by an integer that rounding keeps. *)
Lemma fsum_bounds (rnd : Q -> Q) (L H : Z) (l : list Q) (s : Q) :
  Rounded.round_to_nearest rnd ->
  fsum rnd l s ->
  Forall (fun x => inject_Z L <= x <= inject_Z H) l ->
  (Z.of_nat (length l) * Z.max (Z.abs L) (Z.abs H) <= 2 ^ 53)%Z ->
  inject_Z (Z.of_nat (length l) * L) <= s
  <= inject_Z (Z.of_nat (length l) * H).
Proof.
  intros Hrnd Hsum. induction Hsum as [|x|l l1 l2 s1 s2 Hperm H1 IH1 H2 IH2].
  - intros _ _. cbn. split; apply Qle_refl.
  - intros Hall _. inversion Hall as [|? ? Hx _]; subst.
    cbn [length]. rewrite !Z.mul_1_l. exact Hx.
  - intros Hall Hsize.
    assert (Hall' : Forall (fun x => inject_Z L <= x <= inject_Z H) (l1 ++ l2)).
    { eapply Permutation_Forall; [exact Hperm|exact Hall]. }
    apply Forall_app in Hall'. destruct Hall' as [Ha1 Ha2].
    assert (Hlen : length l = (length l1 + length l2)%nat).
    { rewrite (Permutation_length Hperm). apply length_app. }
    rewrite Hlen in *.
    assert (HM : (0 <= Z.max (Z.abs L) (Z.abs H))%Z) by lia.
    destruct (IH1 Ha1 ltac:(nia)) as [Hlo1 Hhi1].
    destruct (IH2 Ha2 ltac:(nia)) as [Hlo2 Hhi2].
    set (k := Z.of_nat (length l1 + length l2)).
    assert (Hk : k = (Z.of_nat (length l1) + Z.of_nat (length l2))%Z)
      by (unfold k; lia).
    assert (HkL : rnd (inject_Z (k * L)) == inject_Z (k * L)).
    { apply nearest_integer; [exact Hrnd|]. fold k in Hsize. nia. }
    assert (HkH : rnd (inject_Z (k * H)) == inject_Z (k * H)).
    { apply nearest_integer; [exact Hrnd|]. fold k in Hsize. nia. }
    split.
    + rewrite <- HkL. apply (Rounded.nearest_monotone rnd Hrnd).
      rewrite Hk, Z.mul_add_distr_r, inject_Z_plus.
      now apply Qplus_le_compat.
    + rewrite <- HkH. apply (Rounded.nearest_monotone rnd Hrnd).
      rewrite Hk, Z.mul_add_distr_r, inject_Z_plus.
      now apply Qplus_le_compat.
Qed.

(** So does the mean lie between [L] and [H]. *)
Lemma fmean_bounds (rnd : Q -> Q) (L H : Z) (l : list Q) (s : Q) :
  Rounded.round_to_nearest rnd ->
  l <> [] ->
  fsum rnd l s ->
  Forall (fun x => inject_Z L <= x <= inject_Z H) l ->
  (Z.of_nat (length l) * Z.max (Z.abs L) (Z.abs H) <= 2 ^ 53)%Z ->
  inject_Z L <= fmean rnd s (length l) <= inject_Z H.
Proof.
  intros Hrnd Hne Hsum Hall Hsize.
  destruct (fsum_bounds rnd L H l s Hrnd Hsum Hall Hsize) as [Hlo Hhi].
  pose proof (length_nonzero _ Hne) as Hn.
  set (k := Z.of_nat (length l)) in *.
  assert (Hk : (1 <= k)%Z) by (unfold k; lia).
  assert (Hkq : 0 < inject_Z k).
  { change 0 with (inject_Z 0). rewrite <- Zlt_Qlt. lia. }
  assert (HL : rnd (inject_Z L) == inject_Z L).
  { apply nearest_integer; [exact Hrnd|]. nia. }
  assert (HH : rnd (inject_Z H) == inject_Z H).
  { apply nearest_integer; [exact Hrnd|]. nia. }
  rewrite inject_Z_mult in Hlo, Hhi.
  unfold fmean. fold k. split.
  - rewrite <- HL. apply (Rounded.nearest_monotone rnd Hrnd).
    apply Qle_shift_div_l; [exact Hkq|].
    now rewrite Qmult_comm.
  - rewrite <- HH. apply (Rounded.nearest_monotone rnd Hrnd).
    apply Qle_shift_div_r; [exact Hkq|].
    now rewrite Qmult_comm.
Qed.

(** The sum from left to right is a float sum. *)
Lemma sum_seq_from (rnd : Q -> Q) (done l : list Q) (acc : Q) :
  fsum rnd done acc ->
  fsum rnd (done ++ l) (fold_left (fun acc x => rnd (acc + x)) l acc).
Proof.
  revert done acc. induction l as [|x l IH]; intros done acc Hacc.
  - rewrite app_nil_r. exact Hacc.
  - cbn [fold_left].
    replace (done ++ x :: l) with ((done ++ [x]) ++ l)
      by (now rewrite <- app_assoc).
    apply IH. apply (fsum_add rnd _ done [x] acc x);
      [reflexivity|exact Hacc|constructor].
Qed.

Lemma sum_seq_fsum (rnd : Q -> Q) (l : list Q) : fsum rnd l (sum_seq rnd l).
Proof. apply (sum_seq_from rnd [] l 0). constructor. Qed.

End SumFacts.

(** The binary64 number nearest to 30.1. *)
Lemma double_30_1 :
  Binary64.round (301 # 10) == 4236198399495373 # 140737488355328.
Proof. vm_compute. reflexivity. Qed.

(** Three samples of that value: their sum from left to right, divided
    by 3, is the next binary64 number above them. *)
Lemma mean_above_maximum_example :
  let x := 4236198399495373 # 140737488355328 in
  RoundedSum.fmean Binary64.round
                   (RoundedSum.sum_seq Binary64.round [x; x; x]) 3
  == 8472396798990747 # 281474976710656
  /\ x < 8472396798990747 # 281474976710656.
Proof. vm_compute. split; reflexivity. Qed.

(** X3.  On a ready analyzer the minimum and the maximum are samples
    of the series, every sample lies between them, and the mean is a
    finite number.  In binary64 the mean is a float sum of the samples
    divided by their number, both rounded, and need not lie between
    the minimum and the maximum (three samples of 30.1 have a mean one
    unit in the last place above 30.1); for any round to nearest and
    any order of summation it lies between any two integers that bound
    the samples, as long as the number of samples times these integers
    stays within [2 ^ 53]. *)
Theorem X3_min_mean_max (self : SleepAnalyzer) (df : DataFrame)
  (flags : list bool) :
  ready self df flags ->
  exists st lo m hi,
    fst (calculate_statistics self) = Return (Some st)
    /\ min_db (scalars st) = Fin lo
    /\ mean_db (scalars st) = Fin m
    /\ max_db (scalars st) = Fin hi
    /\ In lo (dB df) /\ In hi (dB df)
    /\ Forall (fun x => lo <= x <= hi) (dB df)
    /\ (forall (rnd : Q -> Q) (s : Q) (L H : Z),
          Rounded.round_to_nearest rnd ->
          RoundedSum.fsum rnd (dB df) s ->
          inject_Z L <= lo -> hi <= inject_Z H ->
          (Z.of_nat (length (dB df)) * Z.max (Z.abs L) (Z.abs H)
           <= 2 ^ 53)%Z ->
          inject_Z L <= RoundedSum.fmean rnd s (length (dB df))
          <= inject_Z H).
Proof.
  intros Hready.
  destruct (calculate_statistics_ready self df flags Hready) as (hq & _ & Hrun).
  destruct Hready as (_ & _ & Hne & _).
  destruct (ColumnFacts.Series_min_spec _ Hne) as (lo & Hlo & Hinlo & Hall_lo).
  destruct (ColumnFacts.Series_max_spec _ Hne) as (hi & Hhi & Hinhi & Hall_hi).
  assert (Hall : Forall (fun x => lo <= x <= hi) (dB df)).
  { rewrite Forall_forall in *. intros x Hx. split; auto. }
  eexists. exists lo. eexists. exists hi. rewrite Hrun.
  split; [reflexivity|].
  cbn [stats_of scalars scalar_stats min_db mean_db max_db].
  split; [exact Hlo|].
  split; [apply Series_mean_nonempty, Hne|].
  split; [exact Hhi|]. split; [exact Hinlo|]. split; [exact Hinhi|].
  split; [exact Hall|].
  intros rnd s L H Hrnd Hsum HL HH Hsize.
  apply SumFacts.fmean_bounds; auto.
  rewrite Forall_forall in *. intros x Hx. destruct (Hall x Hx).
  split; [now apply Qle_trans with lo|now apply Qle_trans with hi].
Qed.

Lemma X3_min_mean_max_witness :
  exists st, fst (calculate_statistics example_analyzer) = Return (Some st).
Proof.
  destruct (X3_min_mean_max _ _ _ example_ready) as (st & lo & m & hi & Hst & _).
  exists st. exact Hst.
Defined.

(** ** Streaks and the noise count *)

Module StreakSums.
Import Streak.







End StreakSums.



(** ** The first hour of a short recording *)

(** X5.  When the whole recording fits in the first hour (no more
    samples than [floor(3600 / interval)]), the first-hour noise ratio
    is the overall noise ratio. *)
Theorem X5_first_hour_of_short_recording (self : SleepAnalyzer)
  (df : DataFrame) (flags : list bool) :
  ready self df flags ->
  (Z.of_nat (length (dB df)) <= Qfloor (3600 / measurement_interval self))%Z ->
  exists st,
    fst (calculate_statistics self) = Return (Some st)
    /\ first_hour_noise_ratio_pct st = Some (noise_ratio_pct (scalars st)).
Proof.
  intros Hready Hshort.
  destruct (calculate_statistics_ready self df flags Hready) as (hq & _ & Hrun).
  destruct Hready as (_ & (_ & Hlen) & _ & Hpos).
  destruct (int_of_first_hour _ Hpos) as [Hint _].
  eexists. rewrite Hrun. split; [reflexivity|].
  cbn [stats_of first_hour_noise_ratio_pct scalars scalar_stats
       noise_ratio_pct].
  unfold first_hour_ratio. rewrite Hint.
  rewrite Z.min_r by exact Hshort.
  unfold iloc_until. destruct (Z.leb_spec 0 (Z.of_nat (length (dB df)))); [|lia].
  rewrite Nat2Z.id, <- Hlen, firstn_all. reflexivity.
Qed.

Lemma X5_first_hour_of_short_recording_witness :
  exists st,
    fst (calculate_statistics example_analyzer) = Return (Some st)
    /\ first_hour_noise_ratio_pct st = Some (noise_ratio_pct (scalars st)).
Proof.
  apply (X5_first_hour_of_short_recording _ _ _ example_ready).
  vm_compute. discriminate.
Defined.

(** ** [preprocess_data] *)

Lemma preprocess_data_eq (self : SleepAnalyzer) (df : DataFrame) (w : Z) :
  data self = Some df -> (1 <= w)%Z ->
  preprocess_data self w = (Return tt, preprocessed self df w).
Proof.
  intros Hdata Hw. unfold preprocess_data. rewrite Hdata.
  rewrite (RollingFacts.mean_returns w (dB df) Hw). reflexivity.
Qed.

Lemma preprocess_data_invalid_window (self : SleepAnalyzer) (df : DataFrame)
  (w : Z) :
  data self = Some df -> (w <= 0)%Z ->
  preprocess_data self w = (Raise ValueError, self).
Proof.
  intros Hdata Hw. unfold preprocess_data, Rolling.mean, Rolling.windows.
  rewrite Hdata.
  destruct (Z.ltb_spec w 0); [reflexivity|].
  destruct (Z.ltb_spec w (Z.of_nat 1)); [reflexivity|lia].
Qed.

(** X6.  [preprocess_data] raises exactly when data is loaded and the
    window is not positive, and then (as when no data is loaded) it
    leaves the analyzer as it was; in every case the threshold, the
    interval, the stored statistics and the ['dB'] column are kept. *)
Theorem X6_preprocess_data_frame (self : SleepAnalyzer) (w : Z) :
  (fst (preprocess_data self w) = Raise ValueError
   <-> data self <> None /\ (w <= 0)%Z)
  /\ (fst (preprocess_data self w) = Raise ValueError \/ data self = None ->
      snd (preprocess_data self w) = self)
  /\ threshold_db (snd (preprocess_data self w)) = threshold_db self
  /\ measurement_interval (snd (preprocess_data self w))
     = measurement_interval self
  /\ stats (snd (preprocess_data self w)) = stats self
  /\ option_map dB (data (snd (preprocess_data self w)))
     = option_map dB (data self).
Proof.
  destruct (data self) as [df|] eqn:Hdata.
  - destruct (Z.le_gt_cases w 0) as [Hw|Hw].
    + rewrite (preprocess_data_invalid_window self df w Hdata Hw).
      cbn [fst snd]. rewrite Hdata. repeat split; auto; discriminate.
    + rewrite (preprocess_data_eq self df w Hdata ltac:(lia)).
      cbn [fst snd]. repeat split; try discriminate; try tauto.
      * intros [_ Hle]. lia.
      * intros [H|H]; discriminate.
  - unfold preprocess_data. rewrite Hdata. cbn [fst snd]. rewrite Hdata.
    repeat split; try discriminate; tauto.
Qed.

(** X7.  A later [preprocess_data] with a valid window overrides an
    earlier one: the derived columns depend on the ['dB'] column, the
    current threshold and the window only, so preprocessing again
    after a change of threshold gives what preprocessing once under
    the new threshold gives, and preprocessing twice is preprocessing
    once. *)
Theorem X7_preprocess_data_overrides (self : SleepAnalyzer) (w w' : Z)
  (t : Q) :
  (1 <= w')%Z ->
  snd (preprocess_data (set_threshold (snd (preprocess_data self w)) t) w')
  = snd (preprocess_data (set_threshold self t) w')
  /\ snd (preprocess_data (snd (preprocess_data self w)) w')
     = snd (preprocess_data self w').
Proof.
  intros Hw'.
  destruct (data self) as [df|] eqn:Hdata.
  - destruct (Z.le_gt_cases w 0) as [Hw|Hw].
    + rewrite (preprocess_data_invalid_window self df w Hdata Hw).
      split; reflexivity.
    + rewrite (preprocess_data_eq self df w Hdata ltac:(lia)). cbn [snd].
      rewrite (preprocess_data_eq (set_threshold (preprocessed self df w) t)
                 _ w' eq_refl Hw').
      rewrite (preprocess_data_eq (set_threshold self t) df w' Hdata Hw').
      rewrite (preprocess_data_eq (preprocessed self df w) _ w' eq_refl Hw').
      rewrite (preprocess_data_eq self df w' Hdata Hw').
      split; reflexivity.
  - assert (H : preprocess_data self w = (Return tt, self)).
    { unfold preprocess_data. now rewrite Hdata. }
    rewrite H. split; reflexivity.
Qed.

Lemma X7_preprocess_data_overrides_witness :
  snd (preprocess_data (snd (preprocess_data example_loaded 3)) 5)
  = snd (preprocess_data example_loaded 5).
Proof.
  exact (proj2 (X7_preprocess_data_overrides example_loaded 3 5 40
                  ltac:(lia))).
Defined.

Lemma ready_preprocessed (self : SleepAnalyzer) (df : DataFrame) (w : Z) :
  dB df <> [] -> 0 < measurement_interval self ->
  ready (preprocessed self df w)
        (mkDataFrame (dB df) (Some (smoothed_column w (dB df)))
                     (Some (noise_flags (threshold_db self) (dB df)))
                     (Some (rem_flags (dB df))))
        (noise_flags (threshold_db self) (dB df)).
Proof.
  intros Hne Hpos. repeat split; auto.
  unfold noise_flags. cbn [dB]. apply length_map.
Qed.

Lemma noise_flags_antitone (t1 t2 : Q) (values : list Q) :
  t1 <= t2 ->
  (count_true (noise_flags t2 values) <= count_true (noise_flags t1 values))%nat.
Proof.
  intros Ht. unfold noise_flags. rewrite !count_true_map.
  induction values as [|x v IH]; [reflexivity|].
  rewrite !filter_length_b2n.
  assert (Hx : (Nat.b2n (Qle_bool t2 x) <= Nat.b2n (Qle_bool t1 x))%nat).
  { destruct (Qle_bool t2 x) eqn:E2; [|simpl; lia].
    apply Qle_bool_iff in E2.
    assert (E1 : t1 <= x) by (now apply Qle_trans with t2).
    apply Qle_bool_iff in E1. rewrite E1. reflexivity. }
  lia.
Qed.

(** X8.  Raising the threshold never raises the noise count: of two
    analyses of the same data, the one with the higher threshold
    reports at most as many noise samples. *)
Theorem X8_noise_count_antitone (self : SleepAnalyzer) (df : DataFrame)
  (t1 t2 : Q) (w : Z) :
  data self = Some df -> dB df <> [] -> 0 < measurement_interval self ->
  (1 <= w)%Z -> t1 <= t2 ->
  exists st1 st2,
    fst (calculate_statistics
           (snd (preprocess_data (set_threshold self t1) w)))
    = Return (Some st1)
    /\ fst (calculate_statistics
              (snd (preprocess_data (set_threshold self t2) w)))
       = Return (Some st2)
    /\ (noise_sample_count (scalars st2)
        <= noise_sample_count (scalars st1))%nat.
Proof.
  intros Hdata Hne Hpos Hw Ht.
  rewrite (preprocess_data_eq (set_threshold self t1) df w Hdata Hw).
  rewrite (preprocess_data_eq (set_threshold self t2) df w Hdata Hw).
  cbn [snd].
  destruct (calculate_statistics_ready _ _ _
              (ready_preprocessed (set_threshold self t1) df w Hne Hpos))
    as (hq1 & _ & Hrun1).
  destruct (calculate_statistics_ready _ _ _
              (ready_preprocessed (set_threshold self t2) df w Hne Hpos))
    as (hq2 & _ & Hrun2).
  do 2 eexists. rewrite Hrun1, Hrun2.
  split; [reflexivity|]. split; [reflexivity|].
  cbn [stats_of scalars scalar_stats noise_sample_count set_threshold
       threshold_db].
  now apply noise_flags_antitone.
Qed.

Lemma X8_noise_count_antitone_witness :
  exists st1 st2,
    fst (calculate_statistics
           (snd (preprocess_data (set_threshold example_loaded 35) 5)))
    = Return (Some st1)
    /\ fst (calculate_statistics
              (snd (preprocess_data (set_threshold example_loaded 40) 5)))
       = Return (Some st2)
    /\ (noise_sample_count (scalars st2)
        <= noise_sample_count (scalars st1))%nat.
Proof.
  apply (X8_noise_count_antitone example_loaded
           (mkDataFrame example_series None None None) 35 40 5 eq_refl).
  - discriminate.
  - reflexivity.
  - lia.
  - vm_compute. discriminate.
Defined.

(** ** Smoothing stays within the data *)

Lemma In_slice {A} (s e : Z) (values : list A) (x : A) :
  In x (Rolling.slice s e values) -> In x values.
Proof.
  unfold Rolling.slice. intros Hx.
  rewrite <- (firstn_skipn (Z.to_nat s) values). apply in_or_app. right.
  rewrite <- (firstn_skipn (Z.to_nat (e - s)) (skipn (Z.to_nat s) values)).
  apply in_or_app. now left.
Qed.

Lemma In_window (w : Z) (values : list Q) (i : nat) (x : Q) :
  In x (Rolling.window w values i) -> In x values.
Proof.
  unfold Rolling.window. destruct (Rolling.window_bounds _ _ _).
  apply In_slice.
Qed.

(** X9.  With a window of at least one sample every smoothed value is
    a finite number between the smallest and the largest sample of
    the series. *)
Theorem X9_smoothing_within_range (self : SleepAnalyzer) (df : DataFrame)
  (w : Z) :
  data self = Some df -> (1 <= w)%Z -> dB df <> [] ->
  exists df' sm lo hi,
    data (snd (preprocess_data self w)) = Some df'
    /\ dB_smoothed df' = Some sm
    /\ Series_min (dB df) = Fin lo
    /\ Series_max (dB df) = Fin hi
    /\ Forall (fun v => exists q, v = Fin q /\ lo <= q <= hi) sm.
Proof.
  intros Hdata Hw Hne.
  rewrite (preprocess_data_eq self df w Hdata Hw). cbn [snd].
  destruct (ColumnFacts.Series_min_spec _ Hne) as (lo & Hlo & _ & Hall_lo).
  destruct (ColumnFacts.Series_max_spec _ Hne) as (hi & Hhi & _ & Hall_hi).
  eexists. eexists. exists lo, hi.
  split; [reflexivity|]. split; [reflexivity|].
  split; [exact Hlo|]. split; [exact Hhi|].
  unfold smoothed_column. rewrite map_map. apply Forall_map, Forall_forall.
  intros i Hi. apply in_seq in Hi.
  pose proof (RollingFacts.window_nonempty w (dB df) i Hw ltac:(lia)) as Hwin.
  rewrite (Series_mean_nonempty _ Hwin).
  destruct (Rolling.window w (dB df) i) as [|y win] eqn:E; [congruence|].
  cbn [length Nat.ltb Nat.leb]. eexists. split; [reflexivity|].
  apply ColumnFacts.mean_bounds; [discriminate|].
  apply Forall_forall. intros x Hx. rewrite <- E in Hx.
  apply In_window in Hx. rewrite Forall_forall in Hall_lo, Hall_hi. auto.
Qed.

Lemma X9_smoothing_within_range_witness :
  exists df' sm,
    data (snd (preprocess_data example_loaded 5)) = Some df'
    /\ dB_smoothed df' = Some sm.
Proof.
  destruct (X9_smoothing_within_range example_loaded
              (mkDataFrame example_series None None None) 5 eq_refl
              ltac:(lia) ltac:(discriminate))
    as (df' & sm & lo & hi & H1 & H2 & _).
  exists df', sm. auto.
Defined.

(** ** The REM estimate *)

Module RemFacts.








End RemFacts.



(** ** More on the hourly list *)

Module HourlyMore.

Lemma time_zero (interval : Q) : inject_Z (Z.of_nat 0) * interval / 3600 == 0.
Proof. change (inject_Z (Z.of_nat 0)) with 0. unfold Qdiv. ring. Qed.

Lemma in_hour_zero (t : Q) :
  0 <= t -> t < 1 ->
  Qle_bool (inject_Z 0) t && Qltb t (inject_Z (0 + 1)) = true.
Proof.
  intros H0 H1. apply andb_true_intro. split.
  - now apply Qle_bool_iff.
  - unfold Qltb. apply negb_true_iff.
    destruct (Qle_bool (inject_Z (0 + 1)) t) eqn:E; [|reflexivity].
    apply Qle_bool_iff in E. change (inject_Z (0 + 1)) with 1 in E. lra.
Qed.

(** The first sample lies in hour 0. *)
Lemma first_sample_hour (x : Q) (t : list Q) (interval : Q) :
  exists rest,
    hour_data (time_hours (length (x :: t)) interval) (x :: t) 0 = x :: rest.
Proof.
  unfold hour_data, time_hours. cbn [length seq map combine filter fst].
  rewrite in_hour_zero.
  - eexists. reflexivity.
  - rewrite time_zero. apply Qle_refl.
  - rewrite time_zero. reflexivity.
Qed.

Lemma range_head (k : Z) : (1 <= k)%Z -> exists rest, range k = 0%Z :: rest.
Proof.
  intros Hk. unfold range.
  destruct (Z.to_nat k) as [|m] eqn:E; [lia|]. eexists. reflexivity.
Qed.

Lemma time_last_positive (n : nat) (interval : Q) :
  (2 <= n)%nat -> 0 < interval ->
  0 < inject_Z (Z.of_nat (n - 1)) * interval / 3600.
Proof.
  intros Hn Hpos. apply Qlt_shift_div_l; [reflexivity|]. rewrite Qmult_0_l.
  apply Qmult_lt_0_compat; [|exact Hpos].
  change 0 with (inject_Z 0). rewrite <- Zlt_Qlt. lia.
Qed.

Lemma Qceiling_positive (x : Q) : 0 < x -> (1 <= Qceiling x)%Z.
Proof.
  intros Hx. pose proof (Qle_ceiling x) as H.
  assert (H0 : inject_Z 0 < inject_Z (Qceiling x)).
  { apply Qlt_le_trans with x; assumption. }
  rewrite <- Zlt_Qlt in H0. lia.
Qed.

Lemma Qceiling_below_one (x : Q) : x < 1 -> (Qceiling x <= 1)%Z.
Proof.
  intros Hx. pose proof (Qceiling_lt x) as H.
  assert (H0 : inject_Z (Qceiling x - 1) < inject_Z 1).
  { apply Qlt_trans with x; assumption. }
  rewrite <- Zlt_Qlt in H0. lia.
Qed.

(** When every elapsed time is below one hour, hour 0 holds the whole
    column. *)
Lemma hour_zero_all (times values : list Q) :
  length times = length values ->
  Forall (fun t => 0 <= t /\ t < 1) times ->
  hour_data times values 0 = values.
Proof.
  unfold hour_data. revert values.
  induction times as [|t times IH]; intros [|x values] Hlen Hall;
    try discriminate; [reflexivity|].
  inversion Hall as [|? ? [H0 H1] Hrest]; subst.
  cbn [combine filter fst]. rewrite (in_hour_zero t H0 H1).
  cbn [map snd]. f_equal. apply IH; [now injection Hlen|exact Hrest].
Qed.

Lemma time_hours_bounds (n : nat) (interval : Q) :
  0 < interval ->
  Forall (fun t => 0 <= t
                   /\ t <= inject_Z (Z.of_nat (n - 1)) * interval / 3600)
         (time_hours n interval).
Proof.
  intros Hpos. unfold time_hours. apply Forall_map, Forall_forall.
  intros i Hi. apply in_seq in Hi. split.
  - apply Qle_shift_div_l; [reflexivity|]. rewrite Qmult_0_l.
    apply Qmult_le_0_compat; [|lra].
    change 0 with (inject_Z 0). rewrite <- Zle_Qle. lia.
  - apply Qmult_le_compat_r; [|vm_compute; discriminate].
    apply Qmult_le_compat_r; [|lra]. rewrite <- Zle_Qle. lia.
Qed.

End HourlyMore.

(** X11.  On a ready analyzer the hourly list is empty exactly when
    the series has a single sample; with two or more samples it starts
    with the entry of hour 0. *)
Theorem X11_hourly_empty_iff_single (self : SleepAnalyzer) (df : DataFrame)
  (flags : list bool) :
  ready self df flags ->
  exists st hq,
    fst (calculate_statistics self) = Return (Some st)
    /\ hourly_quality st = Some hq
    /\ (hq = [] <-> total_samples (scalars st) = 1%nat)
    /\ ((2 <= total_samples (scalars st))%nat ->
        exists b rest, hq = b :: rest /\ hour b = 0%Z).
Proof.
  intros Hready.
  destruct (calculate_statistics_ready self df flags Hready) as (hq & Hhq & Hrun).
  destruct Hready as (_ & _ & Hne & Hpos).
  exists (stats_of df flags (measurement_interval self) hq), hq.
  rewrite Hrun. split; [reflexivity|]. split; [reflexivity|].
  cbn [stats_of scalars scalar_stats total_samples].
  rewrite (hourly_nonempty _ _ Hne) in Hhq. injection Hhq as Hhq.
  assert (Htwo : (2 <= length (dB df))%nat ->
                 exists b rest, hq = b :: rest /\ hour b = 0%Z).
  { intros Hlen.
    pose proof (HourlyMore.Qceiling_positive _
                  (HourlyMore.time_last_positive _ _ Hlen Hpos)) as Hc.
    destruct (HourlyMore.range_head _ Hc) as (hs & Hrange).
    rewrite Hrange in Hhq. cbn [flat_map] in Hhq.
    destruct (dB df) as [|x t] eqn:HdB; [congruence|].
    destruct (HourlyMore.first_sample_hour x t (measurement_interval self))
      as (rest & Hrest).
    unfold hour_entry in Hhq at 1. rewrite Hrest in Hhq.
    cbn [app] in Hhq. rewrite <- Hhq. do 2 eexists. split; reflexivity. }
  split; [|exact Htwo].
  split.
  - intros Hnil.
    destruct (dB df) as [|x [|y t]] eqn:HdB; [congruence|reflexivity|].
    destruct (Htwo ltac:(simpl; lia)) as (b & rest & Hb & _). congruence.
  - intros Hone. destruct (dB df) as [|x [|y t]]; try discriminate.
    rewrite <- Hhq. reflexivity.
Qed.

Lemma X11_hourly_empty_iff_single_witness :
  exists st hq,
    fst (calculate_statistics example_analyzer) = Return (Some st)
    /\ hourly_quality st = Some hq.
Proof.
  destruct (X11_hourly_empty_iff_single _ _ _ example_ready)
    as (st & hq & H1 & H2 & _).
  exists st, hq. auto.
Defined.

(** X12.  When the recording has at least two samples and its last
    sample lies within the first hour, the hourly list has the single
    entry of hour 0, and its average, deep and restless percentages
    are the overall mean, deep and restless percentages. *)
Theorem X12_single_hour_matches_overall (self : SleepAnalyzer)
  (df : DataFrame) (flags : list bool) :
  ready self df flags ->
  (2 <= length (dB df))%nat ->
  inject_Z (Z.of_nat (length (dB df) - 1)) * measurement_interval self < 3600 ->
  exists st b bd,
    fst (calculate_statistics self) = Return (Some st)
    /\ hourly_quality st = Some [b]
    /\ bands st = Some bd
    /\ hour b = 0%Z
    /\ avg_db b = mean_db (scalars st)
    /\ hour_deep_sleep_pct b = deep_sleep_pct bd
    /\ hour_restless_pct b = restless_pct bd.
Proof.
  intros Hready Hlen Hshort.
  destruct (calculate_statistics_ready self df flags Hready) as (hq & Hhq & Hrun).
  destruct Hready as (_ & _ & Hne & Hpos).
  rewrite (hourly_nonempty _ _ Hne) in Hhq. injection Hhq as Hhq.
  set (t_last := inject_Z (Z.of_nat (length (dB df) - 1))
                 * measurement_interval self / 3600) in *.
  assert (Hlt : t_last < 1).
  { unfold t_last. apply Qlt_shift_div_r; [reflexivity|]. lra. }
  assert (Hc : Qceiling t_last = 1%Z).
  { pose proof (HourlyMore.Qceiling_positive _
                  (HourlyMore.time_last_positive _ _ Hlen Hpos)).
    pose proof (HourlyMore.Qceiling_below_one _ Hlt). fold t_last in H. lia. }
  rewrite Hc in Hhq. change (range 1) with [0%Z] in Hhq.
  cbn [flat_map] in Hhq. rewrite app_nil_r in Hhq.
  assert (Hall : hour_data (time_hours (length (dB df))
                              (measurement_interval self)) (dB df) 0 = dB df).
  { apply HourlyMore.hour_zero_all.
    - apply HourlyFacts.time_hours_length.
    - pose proof (HourlyMore.time_hours_bounds (length (dB df)) _ Hpos) as Hb.
      rewrite Forall_forall in *. intros t Ht. destruct (Hb t Ht) as [H0 H1].
      fold t_last in H1. split; [exact H0|lra]. }
  unfold hour_entry in Hhq. rewrite Hall in Hhq.
  destruct (dB df) as [|x v] eqn:HdB; [congruence|].
  do 3 eexists. rewrite Hrun. split; [reflexivity|].
  cbn [stats_of hourly_quality bands scalars scalar_stats mean_db].
  rewrite <- Hhq, HdB. split; [reflexivity|]. split; [reflexivity|].
  repeat split.
Qed.

Lemma X12_single_hour_matches_overall_witness :
  exists st b,
    fst (calculate_statistics example_analyzer) = Return (Some st)
    /\ hourly_quality st = Some [b].
Proof.
  destruct (X12_single_hour_matches_overall _ _ _ example_ready)
    as (st & b & bd & H1 & H2 & _).
  - vm_compute. lia.
  - vm_compute. reflexivity.
  - exists st, b. auto.
Defined.

(** ** Stored statistics: laziness and staleness *)

Lemma ensure_stats_present (self : SleepAnalyzer) (st : Stats) :
  stats self = Some st -> ensure_stats self = (Return tt, self).
Proof. intros H. unfold ensure_stats. now rewrite H. Qed.

(** X13.  After [calculate_statistics], changing the threshold through
    the settings menu recomputes the noise flags but not the stored
    statistics: [print_statistics] and [generate_report] then show
    the entries of the old threshold (the report beside the new
    threshold), while a fresh [calculate_statistics] counts the noise
    of the new one.  The report is written when the directory can be
    made and the file written; an empty [save_dir] makes
    [os.makedirs] raise, and whatever the file system does the stored
    statistics stay as they are. *)
Theorem X13_threshold_change_leaves_stale_stats (self : SleepAnalyzer)
  (df : DataFrame) (flags : list bool) (t : Q) (name save_dir : string) :
  ready self df flags ->
  exists st s1 s2 df2 st',
    calculate_statistics self = (Return (Some st), s1)
    /\ noise_sample_count (scalars st) = count_true flags
    /\ change_settings (Some s1) (Some t) = Some s2
    /\ threshold_db s2 = t
    /\ data s2 = Some df2
    /\ is_noise df2 = Some (noise_flags t (dB df))
    /\ stats s2 = Some st
    /\ print_statistics s2 = (Return (Some (printed_entries st)), s2)
    /\ (forall fs : FileSystem,
          let report_file :=
            path_join save_dir ("report_" ++ name ++ ".txt") in
          snd (generate_report fs s2 name save_dir) = s2
          /\ (save_dir = ""%string ->
              fst (generate_report fs s2 name save_dir) = Raise OSError)
          /\ (save_dir <> ""%string ->
              makedirs fs save_dir = Return tt ->
              open_write fs report_file = Return tt ->
              fst (generate_report fs s2 name save_dir)
              = Return (report_file, mkReport name t (Some st)))
          /\ (forall e, save_dir <> ""%string ->
                makedirs fs save_dir = Raise e ->
                fst (generate_report fs s2 name save_dir) = Raise e)
          /\ (forall e, save_dir <> ""%string ->
                makedirs fs save_dir = Return tt ->
                open_write fs report_file = Raise e ->
                fst (generate_report fs s2 name save_dir) = Raise e))
    /\ fst (calculate_statistics s2) = Return (Some st')
    /\ noise_sample_count (scalars st')
       = count_true (noise_flags t (dB df)).
Proof.
  intros Hready.
  destruct (calculate_statistics_ready self df flags Hready) as (hq & _ & Hrun).
  destruct Hready as (Hdata & _ & Hne & Hpos).
  set (st := stats_of df flags (measurement_interval self) hq) in *.
  set (s1 := set_stats self st) in *.
  assert (Hdata1 : data (set_threshold s1 t) = Some df) by exact Hdata.
  pose proof (preprocess_data_eq (set_threshold s1 t) df default_window_size
                Hdata1 ltac:(unfold default_window_size; lia)) as Hpre.
  set (s2 := preprocessed (set_threshold s1 t) df default_window_size) in *.
  destruct (calculate_statistics_ready _ _ _
              (ready_preprocessed (set_threshold s1 t) df default_window_size
                 Hne Hpos)) as (hq' & _ & Hrun').
  fold s2 in Hrun'.
  exists st, s1, s2. eexists. eexists.
  split; [exact Hrun|]. split; [reflexivity|].
  split; [unfold change_settings; now rewrite Hpre|].
  split; [reflexivity|]. split; [reflexivity|]. split; [reflexivity|].
  split; [reflexivity|].
  split.
  { unfold print_statistics.
    now rewrite (ensure_stats_present s2 st eq_refl). }
  split.
  { intros fs report_file. unfold generate_report.
    rewrite (ensure_stats_present s2 st eq_refl). fold report_file.
    unfold os_makedirs.
    destruct (String.eqb_spec save_dir "") as [Hempty|Hdir].
    - split; [reflexivity|]. split; [reflexivity|].
      split; [intros H; now destruct H|].
      split; intros; contradiction.
    - destruct (makedirs fs save_dir) as [[]|e1] eqn:Hmk.
      + destruct (open_write fs report_file) as [[]|e2] eqn:Hop.
        * split; [reflexivity|]. split; [intros; contradiction|].
          split; [reflexivity|]. split; intros; discriminate.
        * split; [reflexivity|]. split; [intros; contradiction|].
          split; [intros; discriminate|]. split; [intros; discriminate|].
          intros e _ _ [= <-]. reflexivity.
      + split; [reflexivity|]. split; [intros; contradiction|].
        split; [intros; discriminate|].
        split; [intros e _ [= <-]; reflexivity|intros; discriminate]. }
  rewrite Hrun'. split; reflexivity.
Qed.

Lemma X13_threshold_change_leaves_stale_stats_witness :
  exists st s1 s2,
    calculate_statistics example_analyzer = (Return (Some st), s1)
    /\ change_settings (Some s1) (Some 35) = Some s2
    /\ fst (generate_report writable_fs s2 "A" "results")
       = Return ("results/report_A.txt"%string, mkReport "A" 35 (Some st)).
Proof.
  destruct (X13_threshold_change_leaves_stale_stats example_analyzer
              example_frame example_flags 35 "A" "results" example_ready)
    as (st & s1 & s2 & df2 & st' & H1 & _ & H3 & _ & _ & _ & _ & _ & Hrep & _).
  exists st, s1, s2. split; [exact H1|]. split; [exact H3|].
  destruct (Hrep writable_fs) as (_ & _ & Hok & _).
  apply Hok; [discriminate|reflexivity|reflexivity].
Defined.

Lemma calculate_statistics_empty (self : SleepAnalyzer) (df : DataFrame)
  (flags : list bool) :
  data self = Some df -> annotated df flags -> dB df = [] ->
  0 < measurement_interval self ->
  exists st,
    calculate_statistics self = (Raise IndexError, set_stats self st)
    /\ total_samples (scalars st) = 0%nat
    /\ noise_ratio_pct (scalars st) = NaN
    /\ mean_db (scalars st) = NaN
    /\ hourly_quality st = None.
Proof.
  intros Hdata (Hnoise & Hlen) Hnil Hpos. unfold calculate_statistics.
  rewrite Hnil in Hlen. destruct flags; [|discriminate].
  rewrite Hdata, Hnoise, (Qlt_Qeq_bool_false _ Hpos), Hnil, hourly_empty.
  eexists. split; [reflexivity|].
  destruct (is_rem df); cbn -[first_hour_ratio]; repeat split.
Qed.

(** X14.  On a preprocessed series without records whose statistics
    were never computed, [print_statistics] raises the [IndexError] of
    [calculate_statistics]; called again, it no longer computes
    anything and prints the entries left behind by the failed call:
    a sample count of 0 and [nan] for the noise ratio and the mean. *)
Theorem X14_print_after_failed_statistics (self : SleepAnalyzer)
  (df : DataFrame) (flags : list bool) :
  data self = Some df -> annotated df flags -> dB df = [] ->
  0 < measurement_interval self -> stats self = None ->
  exists st s1,
    print_statistics self = (Raise IndexError, s1)
    /\ print_statistics s1 = (Return (Some (printed_entries st)), s1)
    /\ total_samples (scalars st) = 0%nat
    /\ noise_ratio_pct (scalars st) = NaN
    /\ mean_db (scalars st) = NaN.
Proof.
  intros Hdata Hnoise Hnil Hpos Hstats.
  destruct (calculate_statistics_empty self df flags Hdata Hnoise Hnil Hpos)
    as (st & Hrun & Htotal & Hratio & Hmean & _).
  exists st, (set_stats self st).
  split.
  { unfold print_statistics, ensure_stats. now rewrite Hstats, Hrun. }
  split.
  { unfold print_statistics.
    now rewrite (ensure_stats_present (set_stats self st) st eq_refl). }
  auto.
Qed.

Lemma X14_print_after_failed_statistics_witness :
  exists s1, print_statistics empty_analyzer = (Raise IndexError, s1).
Proof.
  destruct (X14_print_after_failed_statistics empty_analyzer empty_frame []
              eq_refl (conj eq_refl eq_refl) eq_refl eq_refl eq_refl)
    as (st & s1 & H & _).
  exists s1. exact H.
Defined.

(** ** [analyze_condition] *)

Module TesterFacts.
Import Tester.

(** The analysis of a readable, non-empty file. *)
Lemma analyze_condition_run (self : state) (column : list Q)
  (time_diff : option Q) (name : string) (info : option (gmap string Q)) :
  column <> [] ->
  exists st0 analyzer,
    scalars st0
    = scalar_stats column (noise_flags (HypothesisTest.threshold_db (tester self)) column)
                   (measurement_interval analyzer)
    /\ phone_usage_minutes st0 = None
    /\ threshold_db analyzer = HypothesisTest.threshold_db (tester self)
    /\ analyze_condition self column time_diff name info
       = (Return (Some (add_experiment_info st0 info)),
          mkState (HypothesisTest.register (tester self) name
                     (add_experiment_info st0 info))
                  (<[name := set_stats (set_stats analyzer st0)
                                       (add_experiment_info st0 info)]>
                     (results self))).
Proof.
  intros Hne. unfold analyze_condition.
  set (loaded := load_data (init (HypothesisTest.threshold_db (tester self)))
                           column time_diff).
  assert (Hdata : data loaded = Some (mkDataFrame column None None None))
    by reflexivity.
  rewrite (preprocess_data_eq loaded _ default_window_size Hdata
             ltac:(unfold default_window_size; lia)).
  cbn [snd].
  destruct (calculate_statistics_ready _ _ _
              (ready_preprocessed loaded (mkDataFrame column None None None)
                 default_window_size Hne
                 (load_data_interval_positive _ _ _)))
    as (hq & _ & Hrun).
  rewrite Hrun. do 2 eexists.
  split; [|split; [|split; [|reflexivity]]]; reflexivity.
Qed.

Lemma add_experiment_info_scalars (st : Stats) (info : option (gmap string Q)) :
  scalars (add_experiment_info st info) = scalars st.
Proof.
  unfold add_experiment_info. destruct info as [m|]; [|reflexivity].
  destruct (decide (m = ∅)); reflexivity.
Qed.

Lemma add_experiment_info_phone (st : Stats) (info : option (gmap string Q)) :
  phone_usage_minutes st = None ->
  (phone_usage_minutes (add_experiment_info st info) <> None
   <-> exists m, info = Some m /\ m <> ∅).
Proof.
  intros Hnone. unfold add_experiment_info.
  destruct info as [m|].
  - destruct (decide (m = ∅)) as [->|Hm].
    + rewrite Hnone. split; [congruence|]. intros (m & [= <-] & H). congruence.
    + cbn. split; [|discriminate]. intros _. exists m. auto.
  - rewrite Hnone. split; [congruence|]. intros (m & H & _). discriminate.
Qed.

End TesterFacts.

(** X15.  Analysing a readable, non-empty file under a name stores
    the returned dictionary under that name (replacing what was
    there), keeps every other condition, keeps the analyzer, whose
    statistics are that same dictionary, under [results]; the noise
    ratio stored is a finite percentage, and the phone-usage key is
    present exactly when a non-empty [experiment_info] was given. *)
Theorem X15_analyze_condition_registers (self : Tester.state)
  (column : list Q) (time_diff : option Q) (name : string)
  (info : option (gmap string Q)) :
  column <> [] ->
  exists st analyzer self',
    Tester.analyze_condition self column time_diff name info
    = (Return (Some st), self')
    /\ HypothesisTest.condition_stats (Tester.tester self') !! name = Some st
    /\ Tester.results self' !! name = Some analyzer
    /\ stats analyzer = Some st
    /\ threshold_db analyzer
       = HypothesisTest.threshold_db (Tester.tester self)
    /\ (forall other, other <> name ->
          HypothesisTest.condition_stats (Tester.tester self') !! other
          = HypothesisTest.condition_stats (Tester.tester self) !! other
          /\ Tester.results self' !! other = Tester.results self !! other)
    /\ (exists r, noise_ratio_pct (scalars st) = Fin r /\ 0 <= r <= 100)
    /\ (phone_usage_minutes st <> None
        <-> exists m, info = Some m /\ m <> ∅).
Proof.
  intros Hne.
  destruct (TesterFacts.analyze_condition_run self column time_diff name info
              Hne) as (st0 & analyzer & Hsc & Hphone & Hthr & Hrun).
  do 3 eexists. split; [exact Hrun|].
  cbn [Tester.tester Tester.results HypothesisTest.register
       HypothesisTest.condition_stats].
  split; [apply lookup_insert_eq|]. split; [apply lookup_insert_eq|].
  split; [reflexivity|]. split; [exact Hthr|].
  split.
  { intros other Hother. split; apply lookup_insert_ne; congruence. }
  split.
  { rewrite TesterFacts.add_experiment_info_scalars, Hsc.
    destruct (noise_ratio_range column
                (noise_flags (HypothesisTest.threshold_db (Tester.tester self))
                             column)
                (measurement_interval analyzer) Hne)
      as (r & Hr & _ & Hrange).
    - unfold noise_flags. apply length_map.
    - exists r. auto. }
  now apply TesterFacts.add_experiment_info_phone.
Qed.

Lemma X15_analyze_condition_registers_witness :
  exists st self',
    Tester.analyze_condition (Tester.new 40) example_series (Some 5) "A" None
    = (Return (Some st), self').
Proof.
  destruct (X15_analyze_condition_registers (Tester.new 40) example_series
              (Some 5) "A" None ltac:(discriminate))
    as (st & analyzer & self' & H & _).
  exists st, self'. exact H.
Defined.

Module FileFacts.
Import Tester.

(** The analysis of a readable file with records, next to
    [analyze_condition] on its column. *)
Lemma analyze_file_run (self : full_state) (column : list Q)
  (time_diff : option Q) (name : string) (info : option (gmap string Q)) :
  column <> [] ->
  exists st s',
    analyze_condition (loaded self) column time_diff name info
    = (Return (Some st), s')
    /\ analyze_file self (Readable (Some column) time_diff) name info
       = (Return (Some st), mkFull s' (unset self ∖ {[name]})).
Proof.
  intros Hne. unfold analyze_file, analyze_condition.
  set (fresh := load_data
                  (init (HypothesisTest.threshold_db (tester (loaded self))))
                  column time_diff).
  assert (Hdata : data fresh = Some (mkDataFrame column None None None))
    by reflexivity.
  rewrite (preprocess_data_eq fresh _ default_window_size Hdata
             ltac:(unfold default_window_size; lia)).
  cbn [snd].
  destruct (calculate_statistics_ready _ _ _
              (ready_preprocessed fresh (mkDataFrame column None None None)
                 default_window_size Hne
                 (load_data_interval_positive _ _ _)))
    as (hq & _ & Hrun).
  rewrite Hrun. do 2 eexists. split; reflexivity.
Qed.

Lemma analyze_file_unreadable (self : full_state) (name : string)
  (info : option (gmap string Q)) :
  analyze_file self Unreadable name info
  = if truthy info then (Raise TypeError, self)
    else (Return None,
          mkFull (mkState
                    (HypothesisTest.mk
                       (HypothesisTest.threshold_db (tester (loaded self)))
                       (delete name (HypothesisTest.condition_stats
                                       (tester (loaded self)))))
                    (<[name := init (HypothesisTest.threshold_db
                                       (tester (loaded self)))]>
                       (results (loaded self))))
                 ({[name]} ∪ unset self)).
Proof. reflexivity. Qed.

Lemma analyze_file_no_column (self : full_state) (time_diff : option Q)
  (name : string) (info : option (gmap string Q)) :
  analyze_file self (Readable None time_diff) name info
  = (Raise (KeyError "dB"), self).
Proof. reflexivity. Qed.

Lemma analyze_file_no_record (self : full_state) (time_diff : option Q)
  (name : string) (info : option (gmap string Q)) :
  analyze_file self (Readable (Some []) time_diff) name info
  = (Raise IndexError, self).
Proof. reflexivity. Qed.

End FileFacts.


(** X17.  Starting from a fresh tester, two analyses of readable,
    non-empty files leave [compare_conditions] without a table
    exactly when both were stored under the same name: analysing a
    condition again replaces it and does not count as a second
    condition. *)
Theorem X17_reanalysis_is_not_a_second_condition (threshold : Q)
  (c1 c2 : list Q) (td1 td2 : option Q) (n1 n2 : string)
  (i1 i2 : option (gmap string Q)) :
  c1 <> [] -> c2 <> [] ->
  let s1 := snd (Tester.analyze_condition (Tester.new threshold)
                                          c1 td1 n1 i1) in
  let s2 := snd (Tester.analyze_condition s1 c2 td2 n2 i2) in
  HypothesisTest.compare_conditions (Tester.tester s2) = None <-> n1 = n2.
Proof.
  intros H1 H2 s1 s2.
  destruct (TesterFacts.analyze_condition_run (Tester.new threshold)
              c1 td1 n1 i1 H1) as (st1 & a1 & _ & _ & _ & Hrun1).
  subst s2 s1. rewrite Hrun1. cbn [snd].
  match goal with |- context [Tester.analyze_condition ?s _ _ _ _] =>
    destruct (TesterFacts.analyze_condition_run s c2 td2 n2 i2 H2)
      as (st2 & a2 & _ & _ & _ & Hrun2) end.
  rewrite Hrun2.
  unfold HypothesisTest.compare_conditions, HypothesisTest.register, Tester.new.
  cbn [snd Tester.tester HypothesisTest.condition_stats].
  destruct (decide (n1 = n2)) as [->|Hneq].
  - rewrite insert_insert_eq, insert_empty, map_size_singleton.
    cbn. tauto.
  - rewrite map_size_insert_None
      by (rewrite lookup_insert_ne by congruence; apply lookup_empty).
    rewrite insert_empty, map_size_singleton. cbn.
    split; [discriminate|congruence].
Qed.

Lemma X17_reanalysis_is_not_a_second_condition_witness :
  HypothesisTest.compare_conditions
    (Tester.tester
       (snd (Tester.analyze_condition
               (snd (Tester.analyze_condition (Tester.new 40) example_series
                                              (Some 5) "A" None))
               example_series (Some 5) "A" None)))
  = None.
Proof.
  apply (X17_reanalysis_is_not_a_second_condition 40 example_series
           example_series (Some 5) (Some 5) "A" "A" None None);
    [discriminate|discriminate|reflexivity].
Defined.

(** X18.  The dictionaries in a tester's registry all carry a noise
    ratio that is a finite percentage: this holds for a fresh tester
    and is kept by [analyze_condition] whatever the file, the
    arguments and the outcome.  Not every entry is a dictionary: an
    unreadable file analysed without experiment information leaves
    [None] under its name, and [test_hypothesis1] then raises
    [TypeError].  [test_hypothesis1] returns exactly when no entry is
    [None], which holds for a fresh tester and which every other
    analysis keeps. *)
Theorem X18_registered_ratios_in_range
  (np_mean : list float64 -> float64) (self : Tester.full_state)
  (file : Tester.CsvFile) (name : string) (info : option (gmap string Q))
  (threshold : Q) :
  let after := snd (Tester.analyze_file self file name info) in
  Tester.ratios_in_range
    (Tester.tester (Tester.loaded (Tester.new_full threshold)))
  /\ Tester.unset (Tester.new_full threshold) = ∅
  /\ (Tester.ratios_in_range (Tester.tester (Tester.loaded self)) ->
      Tester.ratios_in_range (Tester.tester (Tester.loaded after)))
  /\ (file = Tester.Unreadable -> Tester.truthy info = false ->
      name ∈ Tester.unset after
      /\ Tester.test_hypothesis1_run np_mean after = Raise TypeError)
  /\ (~ (file = Tester.Unreadable /\ Tester.truthy info = false) ->
      Tester.unset self = ∅ -> Tester.unset after = ∅)
  /\ ((exists r, Tester.test_hypothesis1_run np_mean self = Return r)
      <-> Tester.unset self = ∅)
  /\ (Tester.unset self <> ∅ ->
      Tester.test_hypothesis1_run np_mean self = Raise TypeError).
Proof.
  intros after.
  split; [unfold Tester.ratios_in_range; cbn; apply map_Forall_empty|].
  split; [reflexivity|].
  split.
  { intros Hinv. subst after. destruct file as [|[[|x t]|] td].
    - rewrite FileFacts.analyze_file_unreadable.
      destruct (Tester.truthy info); [exact Hinv|].
      unfold Tester.ratios_in_range in *.
      cbn [snd Tester.loaded Tester.tester HypothesisTest.condition_stats].
      now apply map_Forall_delete.
    - rewrite FileFacts.analyze_file_no_record. exact Hinv.
    - destruct (FileFacts.analyze_file_run self (x :: t) td name info
                  ltac:(discriminate)) as (st & s' & Hcond & Hrun).
      rewrite Hrun. cbn [snd Tester.loaded].
      destruct (TesterFacts.analyze_condition_run (Tester.loaded self)
                  (x :: t) td name info ltac:(discriminate))
        as (st0 & analyzer & Hsc & _ & _ & Hrun0).
      rewrite Hrun0 in Hcond. injection Hcond as <- <-.
      cbn [Tester.tester HypothesisTest.register].
      unfold Tester.ratios_in_range in *.
      cbn [HypothesisTest.condition_stats].
      apply map_Forall_insert_2; [|exact Hinv].
      rewrite TesterFacts.add_experiment_info_scalars, Hsc.
      destruct (noise_ratio_range (x :: t)
                  (noise_flags
                     (HypothesisTest.threshold_db
                        (Tester.tester (Tester.loaded self))) (x :: t))
                  (measurement_interval analyzer) ltac:(discriminate))
        as (r & Hr & _ & Hrange).
      + unfold noise_flags. apply length_map.
      + exists r. auto.
    - rewrite FileFacts.analyze_file_no_column. exact Hinv. }
  split.
  { intros -> Hfalsy. subst after.
    rewrite FileFacts.analyze_file_unreadable, Hfalsy.
    cbn [snd Tester.unset].
    assert (Hin : name ∈ ({[name]} ∪ Tester.unset self : gset string)).
    { apply elem_of_union. left. now apply elem_of_singleton. }
    split; [exact Hin|].
    unfold Tester.test_hypothesis1_run. cbn [Tester.unset].
    destruct (decide ({[name]} ∪ Tester.unset self = ∅)) as [Hempty|];
      [|reflexivity].
    rewrite Hempty in Hin. now apply not_elem_of_empty in Hin. }
  split.
  { intros Hcase Hnone. subst after. destruct file as [|[[|x t]|] td].
    - rewrite FileFacts.analyze_file_unreadable.
      destruct (Tester.truthy info); [exact Hnone|].
      exfalso. apply Hcase. auto.
    - rewrite FileFacts.analyze_file_no_record. exact Hnone.
    - destruct (FileFacts.analyze_file_run self (x :: t) td name info
                  ltac:(discriminate)) as (st & s' & _ & Hrun).
      rewrite Hrun. cbn [snd Tester.unset]. rewrite Hnone.
      apply set_eq. intros y.
      rewrite elem_of_difference, elem_of_singleton.
      split; [tauto|]. intros Hy. now apply not_elem_of_empty in Hy.
    - rewrite FileFacts.analyze_file_no_column. exact Hnone. }
  unfold Tester.test_hypothesis1_run.
  destruct (decide (Tester.unset self = ∅)) as [Hempty|Hsome].
  - split; [|congruence]. split; [auto|]. intros _. eexists. reflexivity.
  - split; [|reflexivity]. split; [|contradiction].
    intros [r Hr]. discriminate.
Qed.

Lemma X18_registered_ratios_in_range_witness :
  Tester.ratios_in_range
    (Tester.tester
       (Tester.loaded
          (snd (Tester.analyze_file (Tester.new_full 40)
                  (Tester.Readable (Some example_series) (Some 5))
                  "A" None)))).
Proof.
  apply (proj1 (proj2 (proj2 (X18_registered_ratios_in_range
                  (fun _ => NaN) (Tester.new_full 40)
                  (Tester.Readable (Some example_series) (Some 5))
                  "A" None 40)))).
  unfold Tester.ratios_in_range. cbn. apply map_Forall_empty.
Defined.

(** ** [test_hypothesis1] and [test_hypothesis2] on a registry *)

Module HypothesisMore.
Import Tester.

Lemma finite_list (P : Q -> Prop) (l : list float64) :
  Forall (fun v => exists r, v = Fin r /\ P r) l ->
  exists rs, l = map Fin rs /\ Forall P rs.
Proof.
  induction 1 as [|v l (r & -> & Hr) _ (rs & -> & Hall)].
  - exists []. split; [reflexivity|constructor].
  - exists (r :: rs). split; [reflexivity|now constructor].
Qed.

Lemma ratio_list_bounds (P : Q -> Prop) (m : gmap string Stats) :
  map_Forall (fun _ st => exists r, noise_ratio_pct (scalars st) = Fin r
                                    /\ P r) m ->
  Forall (fun v => exists r, v = Fin r /\ P r)
         (snd <$> map_to_list ((fun st => noise_ratio_pct (scalars st)) <$> m)).
Proof.
  intros Hall. apply Forall_forall. intros v Hv.
  apply list_elem_of_In, list_elem_of_fmap in Hv.
  destruct Hv as ([k v'] & -> & Hkv).
  apply elem_of_map_to_list in Hkv. rewrite lookup_fmap in Hkv.
  destruct (m !! k) as [st|] eqn:Hst; [|discriminate].
  injection Hkv as <-. exact (Hall k st Hst).
Qed.

Lemma ratio_list_length (m : gmap string Stats) :
  length (snd <$> map_to_list ((fun st => noise_ratio_pct (scalars st)) <$> m))
  = size m.
Proof. now rewrite length_fmap, length_map_to_list, map_size_fmap. Qed.

(** The mean of finite values between two integers, for any mean that
    divides a float sum by the number of values. *)
Lemma np_mean_bounds (rnd : Q -> Q) (np_mean : list float64 -> float64)
  (L H : Z) (l : list float64) :
  Rounded.round_to_nearest rnd -> RoundedSum.is_np_mean rnd np_mean ->
  l <> [] ->
  Forall (fun v => exists r, v = Fin r /\ inject_Z L <= r <= inject_Z H) l ->
  (Z.of_nat (length l) * Z.max (Z.abs L) (Z.abs H) <= 2 ^ 53)%Z ->
  exists a, np_mean l = Fin a /\ inject_Z L <= a <= inject_Z H.
Proof.
  intros Hrnd [_ Hmean] Hne Hall Hsize.
  destruct (finite_list _ l Hall) as (rs & -> & Hrs).
  rewrite length_map in Hsize.
  assert (Hne' : rs <> []) by (intros ->; now apply Hne).
  destruct (Hmean rs Hne') as (s & Hsum & Heq).
  rewrite Heq. eexists. split; [reflexivity|].
  now apply SumFacts.fmean_bounds.
Qed.

(** The mean from left to right is such a mean. *)
Lemma collect_finite (xs done : list Q) :
  fold_left (fun acc v =>
               match acc, v with
               | Some ys, Fin x => Some (ys ++ [x])
               | _, _ => None
               end) (map Fin xs) (Some done)
  = Some (done ++ xs).
Proof.
  revert done. induction xs as [|x xs IH]; intros done.
  - now rewrite app_nil_r.
  - cbn [map fold_left]. rewrite IH. now rewrite <- app_assoc.
Qed.

Lemma mean_left_to_right_spec (rnd : Q -> Q) :
  RoundedSum.is_np_mean rnd (mean_left_to_right rnd).
Proof.
  split; [reflexivity|]. intros xs Hne.
  exists (RoundedSum.sum_seq rnd xs).
  split; [apply SumFacts.sum_seq_fsum|].
  unfold mean_left_to_right.
  destruct xs as [|x xs]; [congruence|].
  change (Fin x :: map Fin xs) with (map Fin (x :: xs)).
  now rewrite collect_finite.
Qed.

(** Three conditions with the ratio of one noisy sample in nine: their
    mean, however the three are added, is one unit in the last place
    below them. *)
Lemma mean_below_minimum_example :
  let x := Rounded.pct Binary64.round 1 9 in
  x == 3127499741229511 # 281474976710656
  /\ mean_left_to_right Binary64.round [Fin x; Fin x; Fin x]
     = Fin (RoundedSum.fmean Binary64.round
              (RoundedSum.sum_seq Binary64.round [x; x; x]) 3)
  /\ RoundedSum.fmean Binary64.round
       (RoundedSum.sum_seq Binary64.round [x; x; x]) 3
     == 6254999482459021 # 562949953421312
  /\ 6254999482459021 # 562949953421312 < x.
Proof.
  cbv zeta. split; [vm_compute; reflexivity|].
  split; [reflexivity|]. split; vm_compute; reflexivity.
Qed.

End HypothesisMore.

(** X19.  [test_hypothesis1] lists every registered condition with its
    noise ratio.  Its average is numpy's mean of these ratios: without
    conditions [nan] (the mean of nothing, no exception); otherwise a
    float sum of the ratios divided by their number, which for any
    round to nearest and any order of summation lies between any two
    integers that bound the ratios, so between 0 and 100 for a
    registry in range (the number of conditions times the bound
    staying within [2 ^ 53]).  It need not lie between the smallest
    and the largest ratio. *)
Theorem X19_h1_average (np_mean : list float64 -> float64)
  (self : HypothesisTest.t) :
  let r := Tester.test_hypothesis1 np_mean self in
  (forall name,
      Tester.noise_ratio_by_condition r !! name
      = option_map (fun st => noise_ratio_pct (scalars st))
                   (HypothesisTest.condition_stats self !! name))
  /\ (forall rnd : Q -> Q,
        Rounded.round_to_nearest rnd ->
        RoundedSum.is_np_mean rnd np_mean ->
        (HypothesisTest.condition_stats self = ∅ ->
         Tester.average_noise_ratio r = NaN)
        /\ (forall L H : Z,
              HypothesisTest.condition_stats self <> ∅ ->
              map_Forall (fun _ st =>
                            exists q, noise_ratio_pct (scalars st) = Fin q
                                      /\ inject_Z L <= q <= inject_Z H)
                         (HypothesisTest.condition_stats self) ->
              (Z.of_nat (size (HypothesisTest.condition_stats self))
               * Z.max (Z.abs L) (Z.abs H) <= 2 ^ 53)%Z ->
              exists a, Tester.average_noise_ratio r = Fin a
                        /\ inject_Z L <= a <= inject_Z H)
        /\ (HypothesisTest.condition_stats self <> ∅ ->
            Tester.ratios_in_range self ->
            (Z.of_nat (size (HypothesisTest.condition_stats self)) * 100
             <= 2 ^ 53)%Z ->
            exists a, Tester.average_noise_ratio r = Fin a
                      /\ 0 <= a <= 100)).
Proof.
  intros r. subst r. unfold Tester.test_hypothesis1.
  cbn [Tester.noise_ratio_by_condition Tester.average_noise_ratio].
  split; [intros name; now rewrite lookup_fmap|].
  intros rnd Hrnd Hmean.
  assert (Hbounds : forall L H : Z,
    HypothesisTest.condition_stats self <> ∅ ->
    map_Forall (fun _ st => exists q, noise_ratio_pct (scalars st) = Fin q
                                      /\ inject_Z L <= q <= inject_Z H)
               (HypothesisTest.condition_stats self) ->
    (Z.of_nat (size (HypothesisTest.condition_stats self))
     * Z.max (Z.abs L) (Z.abs H) <= 2 ^ 53)%Z ->
    exists a,
      np_mean
        (snd <$> map_to_list ((fun st => noise_ratio_pct (scalars st))
                                <$> HypothesisTest.condition_stats self))
      = Fin a /\ inject_Z L <= a <= inject_Z H).
  { intros L H Hne Hall Hsize.
    apply (HypothesisMore.np_mean_bounds rnd np_mean L H); auto.
    - intros Hnil. apply fmap_nil_inv in Hnil.
      apply map_to_list_empty_iff, fmap_empty_inv in Hnil. contradiction.
    - now apply (HypothesisMore.ratio_list_bounds
                   (fun q => inject_Z L <= q <= inject_Z H)).
    - now rewrite HypothesisMore.ratio_list_length. }
  split.
  { intros ->. rewrite fmap_empty, map_to_list_empty. apply Hmean. }
  split; [exact Hbounds|].
  intros Hne Hinv Hsize.
  apply (Hbounds 0%Z 100%Z Hne); [exact Hinv|exact Hsize].
Qed.

Lemma X19_h1_average_witness :
  exists a,
    Tester.average_noise_ratio
      (Tester.test_hypothesis1 (Tester.mean_left_to_right Binary64.round)
                               (registry_AB 2 5)) = Fin a
    /\ 0 <= a <= 100.
Proof.
  apply (proj2 (proj2 (proj2 (X19_h1_average
                  (Tester.mean_left_to_right Binary64.round)
                  (registry_AB 2 5))
                Binary64.round binary64_round
                (HypothesisMore.mean_left_to_right_spec Binary64.round)))).
  - intros Hempty. apply (f_equal (fun m => m !! "A"%string)) in Hempty.
    rewrite HypothesisFacts.registry_AB_lookup_A, lookup_empty in Hempty.
    discriminate.
  - unfold Tester.ratios_in_range, registry_AB, HypothesisTest.register.
    cbn [HypothesisTest.condition_stats].
    apply map_Forall_insert_2; [eexists; split; [reflexivity|]; split; lra|].
    apply map_Forall_insert_2; [eexists; split; [reflexivity|]; split; lra|].
    apply map_Forall_empty.
  - unfold registry_AB, HypothesisTest.register.
    cbn [HypothesisTest.condition_stats].
    rewrite map_size_insert_None
      by (rewrite lookup_insert_ne by discriminate; apply lookup_empty).
    rewrite map_size_insert_None by apply lookup_empty.
    rewrite map_size_empty. vm_compute. discriminate.
Defined.

(** X20.  For registered conditions "A" and "B" with finite noise
    ratios the verdict of [test_hypothesis2] is taken on the rounded
    difference [rnd (b - a)] and only weakens as the threshold grows:
    "supported" at a threshold stays "supported" at every smaller one
    and a threshold of 0 or less always gives "supported".  When the
    subtraction rounds to nearest, ratios between 0 and 100 and a
    threshold above 100 always give "rejected", and exchanging the
    dictionaries of "A" and "B" stores the rounded [a - b], which is
    the opposite of the rounded [b - a], and keeps the verdict. *)
Theorem X20_h2_verdict_and_threshold pearsonr (rnd : Q -> Q)
  (self : HypothesisTest.t)
  (t t' : Q) (stats_A stats_B : Stats) (a b : Q) :
  HypothesisTest.condition_stats self !! "A"%string = Some stats_A ->
  HypothesisTest.condition_stats self !! "B"%string = Some stats_B ->
  noise_ratio_pct (scalars stats_A) = Fin a ->
  noise_ratio_pct (scalars stats_B) = Fin b ->
  let verdict x := HypothesisTest.decision
                     (HypothesisTest.test_hypothesis2 pearsonr rnd self x) in
  let swapped := HypothesisTest.register
                   (HypothesisTest.register self "A" stats_B) "B" stats_A in
  (verdict t = Some HypothesisTest.Supported <-> t <= Qabs (rnd (b - a)))
  /\ (t' <= t -> verdict t = Some HypothesisTest.Supported ->
      verdict t' = Some HypothesisTest.Supported)
  /\ (t <= 0 -> verdict t = Some HypothesisTest.Supported)
  /\ HypothesisTest.difference_pct_points
       (HypothesisTest.test_hypothesis2 pearsonr rnd swapped t)
     = Some (Fin (rnd (a - b)))
  /\ (Rounded.round_to_nearest rnd ->
      (0 <= a <= 100 -> 0 <= b <= 100 -> 100 < t ->
       verdict t = Some HypothesisTest.Rejected)
      /\ rnd (a - b) == - rnd (b - a)
      /\ HypothesisTest.decision
           (HypothesisTest.test_hypothesis2 pearsonr rnd swapped t)
         = verdict t).
Proof.
  intros HA HB Ha Hb verdict swapped.
  assert (Hv : forall x,
    verdict x = Some (if Qle_bool x (Qabs (rnd (b - a)))
                      then HypothesisTest.Supported
                      else HypothesisTest.Rejected)).
  { intros x. subst verdict. cbv beta.
    destruct (HypothesisFacts.test_hypothesis2_AB pearsonr rnd self x _ _ HA HB)
      as (_ & _ & _ & Hdec).
    rewrite Hdec, Ha, Hb. reflexivity. }
  assert (HA' : HypothesisTest.condition_stats swapped !! "A"%string
                = Some stats_B).
  { subst swapped. unfold HypothesisTest.register.
    cbn [HypothesisTest.condition_stats].
    rewrite lookup_insert_ne by discriminate. apply lookup_insert_eq. }
  assert (HB' : HypothesisTest.condition_stats swapped !! "B"%string
                = Some stats_A).
  { subst swapped. unfold HypothesisTest.register.
    cbn [HypothesisTest.condition_stats]. apply lookup_insert_eq. }
  destruct (HypothesisFacts.test_hypothesis2_AB pearsonr rnd swapped t _ _
              HA' HB') as (_ & _ & Hdiff' & Hdec').
  rewrite Ha, Hb in Hdiff', Hdec'. unfold fsub_rnd in Hdiff', Hdec'.
  cbn [fsub abs_ge] in Hdiff', Hdec'.
  split.
  { rewrite Hv. destruct (Qle_bool t (Qabs (rnd (b - a)))) eqn:E.
    - apply Qle_bool_iff in E. split; auto.
    - split; [discriminate|]. intros H. apply Qle_bool_iff in H. congruence. }
  split.
  { intros Hle. rewrite !Hv.
    destruct (Qle_bool t (Qabs (rnd (b - a)))) eqn:E; [|discriminate].
    intros _. apply Qle_bool_iff in E.
    assert (E' : t' <= Qabs (rnd (b - a))) by (now apply Qle_trans with t).
    apply Qle_bool_iff in E'. now rewrite E'. }
  split.
  { intros Hle. rewrite Hv.
    assert (E : t <= Qabs (rnd (b - a))).
    { apply Qle_trans with 0; [exact Hle|apply Qabs_nonneg]. }
    apply Qle_bool_iff in E. now rewrite E. }
  split; [exact Hdiff'|].
  intros Hrnd.
  assert (Hopp : rnd (a - b) == - rnd (b - a)).
  { rewrite <- (Rounded.nearest_opp rnd Hrnd).
    apply (Rounded.nearest_proper rnd Hrnd). ring. }
  split.
  { intros Hra Hrb Hlt. rewrite Hv.
    destruct (Qle_bool t (Qabs (rnd (b - a)))) eqn:E; [|reflexivity].
    apply Qle_bool_iff in E. exfalso. apply (Qlt_not_le _ _ Hlt).
    apply Qle_trans with (1 := E). apply Qabs_Qle_condition.
    pose proof (nearest_integer rnd 100 Hrnd ltac:(simpl; lia)) as H100.
    pose proof (nearest_integer rnd (-100) Hrnd ltac:(simpl; lia)) as Hm100.
    split.
    - apply Qle_trans with (rnd (inject_Z (-100))).
      + rewrite Hm100. apply Qle_refl.
      + apply (Rounded.nearest_monotone rnd Hrnd).
        change (inject_Z (-100)) with (-100). lra.
    - apply Qle_trans with (rnd (inject_Z 100)).
      + apply (Rounded.nearest_monotone rnd Hrnd).
        change (inject_Z 100) with 100. lra.
      + rewrite H100. apply Qle_refl. }
  split; [exact Hopp|].
  rewrite Hdec', Hv.
  assert (Habs : Qabs (rnd (a - b)) == Qabs (rnd (b - a))).
  { rewrite <- (Qabs_opp (rnd (b - a))). apply Qabs_wd. exact Hopp. }
  assert (Hb' : Qle_bool t (Qabs (rnd (a - b)))
                = Qle_bool t (Qabs (rnd (b - a)))).
  { destruct (Qle_bool t (Qabs (rnd (a - b)))) eqn:E1,
             (Qle_bool t (Qabs (rnd (b - a)))) eqn:E2; auto.
    - apply Qle_bool_iff in E1. rewrite Habs in E1.
      apply Qle_bool_iff in E1. congruence.
    - apply Qle_bool_iff in E2. rewrite <- Habs in E2.
      apply Qle_bool_iff in E2. congruence. }
  now rewrite Hb'.
Qed.

Lemma X20_h2_verdict_and_threshold_witness :
  HypothesisTest.decision
    (HypothesisTest.test_hypothesis2 (fun _ _ => (NaN, NaN)) Binary64.round
                                     (registry_AB double_0_1 double_5_1) 0)
  = Some HypothesisTest.Supported.
Proof.
  apply (proj1 (proj2 (proj2 (X20_h2_verdict_and_threshold
                         (fun _ _ => (NaN, NaN)) Binary64.round
                         (registry_AB double_0_1 double_5_1) 0 0
                         (condition_with_noise_ratio double_0_1)
                         (condition_with_noise_ratio double_5_1)
                         double_0_1 double_5_1
                         (HypothesisFacts.registry_AB_lookup_A _ _)
                         (HypothesisFacts.registry_AB_lookup_B _ _)
                         eq_refl eq_refl)))).
  apply Qle_refl.
Defined.

Module UsageFacts.

Lemma usage_data_length (m : gmap string Stats) :
  length (HypothesisTest.usage_data m)
  = length (filter has_usage (map_to_list m)).
Proof.
  unfold HypothesisTest.usage_data.
  induction (map_to_list m) as [|[k st] l IH]; [reflexivity|].
  cbn [flat_map filter]. unfold has_usage at 1. cbn [snd].
  destruct (phone_usage_minutes st); simpl; now rewrite IH.
Qed.

Lemma two_distinct_length {A} (l : list A) (x y : A) :
  x <> y -> In x l -> In y l -> (2 <= length l)%nat.
Proof.
  intros Hxy Hx Hy. destruct l as [|a [|b l]].
  - destruct Hx.
  - destruct Hx as [<-|[]]. destruct Hy as [<-|[]]. congruence.
  - simpl. lia.
Qed.

Lemma usage_in_filter (m : gmap string Stats) (k : string) (st : Stats) :
  In (k, st) (filter has_usage (map_to_list m))
  <-> m !! k = Some st /\ phone_usage_minutes st <> None.
Proof.
  rewrite filter_In, <- list_elem_of_In, elem_of_map_to_list.
  unfold has_usage. cbn [snd].
  destruct (phone_usage_minutes st); split; intros [H1 H2]; split; auto;
    try discriminate; congruence.
Qed.

(** Two or more usage values: two different conditions carry them. *)
Lemma usage_two_iff (m : gmap string Stats) :
  (2 <= length (HypothesisTest.usage_data m))%nat
  <-> exists n1 n2 s1 s2,
        n1 <> n2
        /\ m !! n1 = Some s1 /\ phone_usage_minutes s1 <> None
        /\ m !! n2 = Some s2 /\ phone_usage_minutes s2 <> None.
Proof.
  rewrite usage_data_length. split.
  - intros Hlen.
    destruct (filter has_usage (map_to_list m)) as [|[k1 s1] [|[k2 s2] l]] eqn:E;
      simpl in Hlen; try lia.
    assert (H1 : In (k1, s1) (filter has_usage (map_to_list m)))
      by (rewrite E; now left).
    assert (H2 : In (k2, s2) (filter has_usage (map_to_list m)))
      by (rewrite E; right; now left).
    apply usage_in_filter in H1, H2.
    destruct H1 as [H1 P1], H2 as [H2 P2].
    exists k1, k2, s1, s2. repeat split; auto.
    intros ->. assert (s1 = s2) by congruence. subst s2.
    pose proof (NoDup_filter has_usage
                  (proj1 (NoDup_ListNoDup _) (NoDup_map_to_list m))) as Hnd.
    rewrite E in Hnd. inversion Hnd as [|? ? Hnotin _]; subst.
    apply Hnotin. now left.
  - intros (n1 & n2 & s1 & s2 & Hneq & H1 & P1 & H2 & P2).
    apply (two_distinct_length _ (n1, s1) (n2, s2)).
    + congruence.
    + now apply usage_in_filter.
    + now apply usage_in_filter.
Qed.

End UsageFacts.

(** X21.  What [test_hypothesis2] puts in its result: the two data
    lists have the same length; the correlation entries are present
    exactly when two different conditions carry phone usage; the
    difference and the verdict are present exactly when both "A" and
    "B" are registered, and no verdict is given otherwise. *)
Theorem X21_h2_result_keys pearsonr (rnd : Q -> Q)
  (self : HypothesisTest.t) (t : Q) :
  let r := HypothesisTest.test_hypothesis2 pearsonr rnd self t in
  length (HypothesisTest.phone_times r)
  = length (HypothesisTest.noise_ratios r)
  /\ (HypothesisTest.pearson r <> None
      <-> exists n1 n2 s1 s2,
            n1 <> n2
            /\ HypothesisTest.condition_stats self !! n1 = Some s1
            /\ phone_usage_minutes s1 <> None
            /\ HypothesisTest.condition_stats self !! n2 = Some s2
            /\ phone_usage_minutes s2 <> None)
  /\ (HypothesisTest.decision r <> None
      <-> is_Some (HypothesisTest.condition_stats self !! "A"%string)
          /\ is_Some (HypothesisTest.condition_stats self !! "B"%string))
  /\ (HypothesisTest.difference_pct_points r <> None
      <-> HypothesisTest.decision r <> None).
Proof.
  intros r. subst r. unfold HypothesisTest.test_hypothesis2.
  set (usage := HypothesisTest.usage_data (HypothesisTest.condition_stats self)).
  assert (Hp : (if (2 <=? length (map fst usage))%nat
                then Some (pearsonr (map fst usage) (map snd usage))
                else None) <> None
               <-> (2 <= length usage)%nat).
  { rewrite length_map. destruct (Nat.leb_spec 2 (length usage)).
    - split; [auto|discriminate].
    - split; [congruence|lia]. }
  destruct (HypothesisTest.condition_stats self !! "A"%string) as [sa|],
           (HypothesisTest.condition_stats self !! "B"%string) as [sb|];
    cbn [HypothesisTest.phone_times HypothesisTest.noise_ratios
         HypothesisTest.pearson HypothesisTest.decision
         HypothesisTest.difference_pct_points];
    (split; [now rewrite !length_map|]);
    (split; [rewrite Hp; apply UsageFacts.usage_two_iff|]);
    split; split; try discriminate; try congruence;
    try (intros [H1 H2]; try destruct H1; try destruct H2; discriminate);
    try (intros _; split; eexists; reflexivity).
Qed.

(** ** The labels of the phone-usage scatter *)

Module ScatterFacts.
Import Scatter.

Lemma annotate_from_returns (pts : list (Q * float64))
  (conditions : list (string * Stats)) :
  forall i,
    snd (annotate_from pts i conditions) = Return tt
    <-> forall p kv, nth_error conditions p = Some kv -> carries kv ->
                     (i + p < length pts)%nat.
Proof.
  induction conditions as [|[c st] rest IH]; intros i.
  - simpl. split; [|reflexivity]. intros _ [|p] kv; discriminate.
  - cbn [annotate_from]. destruct (phone_usage_minutes st) as [u|] eqn:Hu.
    + destruct (nth_error pts i) as [pt|] eqn:Hpt.
      * destruct (annotate_from pts (S i) rest) as [drawn r] eqn:Hrec.
        cbn [snd]. specialize (IH (S i)). rewrite Hrec in IH. cbn [snd] in IH.
        rewrite IH. split.
        -- intros H [|p] kv Hkv Hc.
           ++ rewrite Nat.add_0_r. apply nth_error_Some. congruence.
           ++ specialize (H p kv Hkv Hc). lia.
        -- intros H p kv Hkv Hc. specialize (H (S p) kv Hkv Hc). lia.
      * cbn [snd]. split; [discriminate|]. intros H.
        specialize (H 0%nat (c, st) eq_refl).
        apply nth_error_None in Hpt.
        assert (Hc : carries (c, st)) by (unfold carries; cbn; congruence).
        specialize (H Hc). lia.
    + rewrite IH. split.
      * intros H [|p] kv Hkv Hc.
        -- injection Hkv as <-. unfold carries in Hc. cbn in Hc. congruence.
        -- specialize (H p kv Hkv Hc). lia.
      * intros H p kv Hkv Hc. specialize (H (S p) kv Hkv Hc). lia.
Qed.

Lemma annotate_from_raises (pts : list (Q * float64))
  (conditions : list (string * Stats)) :
  forall i, snd (annotate_from pts i conditions) = Return tt
            \/ snd (annotate_from pts i conditions) = Raise IndexError.
Proof.
  induction conditions as [|[c st] rest IH]; intros i; cbn [annotate_from].
  - now left.
  - destruct (phone_usage_minutes st); [|apply IH].
    destruct (nth_error pts i); [|now right].
    specialize (IH (S i)).
    destruct (annotate_from pts (S i) rest). exact IH.
Qed.

Lemma annotate_from_labels (pts : list (Q * float64))
  (conditions : list (string * Stats)) :
  forall i,
    (forall p c st u, nth_error conditions p = Some (c, st) ->
                      phone_usage_minutes st = Some u ->
                      nth_error pts (i + p) = Some (point u st)) ->
    annotate_from pts i conditions = (own_labels conditions, Return tt).
Proof.
  induction conditions as [|[c st] rest IH]; intros i H; [reflexivity|].
  cbn [annotate_from own_labels flat_map snd fst].
  assert (Hrest : forall p c st u, nth_error rest p = Some (c, st) ->
                    phone_usage_minutes st = Some u ->
                    nth_error pts (S i + p) = Some (point u st)).
  { intros p c' st' u Hp Hu. specialize (H (S p) c' st' u Hp Hu).
    now replace (S i + p)%nat with (i + S p)%nat by lia. }
  specialize (IH (S i) Hrest). fold (own_labels rest).
  destruct (phone_usage_minutes st) as [u|] eqn:Hu; [|exact IH].
  specialize (H 0%nat c st u eq_refl Hu). rewrite Nat.add_0_r in H.
  rewrite H, IH. reflexivity.
Qed.

Lemma points_app (l k : list (string * Stats)) :
  points (l ++ k) = points l ++ points k.
Proof. unfold points. apply flat_map_app. Qed.

Lemma points_none (l : list (string * Stats)) :
  Forall (fun kv => phone_usage_minutes (snd kv) = None) l -> points l = [].
Proof.
  induction 1 as [|[c st] l Hx _ IH]; [reflexivity|].
  cbn [points flat_map snd] in *. cbn in Hx. now rewrite Hx.
Qed.

Lemma points_length (l : list (string * Stats)) :
  length (points l) = usage_count l.
Proof.
  unfold points, usage_count.
  induction l as [|[c st] l IH]; [reflexivity|].
  cbn [flat_map filter]. unfold has_usage at 1. cbn [snd].
  destruct (phone_usage_minutes st); simpl; now rewrite IH.
Qed.

Lemma points_all (l : list (string * Stats)) :
  Forall carries l ->
  forall p c st u, nth_error l p = Some (c, st) ->
                   phone_usage_minutes st = Some u ->
                   nth_error (points l) p = Some (point u st).
Proof.
  induction 1 as [|[c0 st0] l Hx _ IH]; intros [|p] c st u Hp Hu;
    try discriminate.
  - injection Hp as -> ->. cbn [points flat_map snd]. now rewrite Hu.
  - cbn [points flat_map snd]. unfold carries in Hx. cbn in Hx.
    destruct (phone_usage_minutes st0); [|congruence].
    apply (IH p c st u Hp Hu).
Qed.

Lemma usage_count_all (l : list (string * Stats)) :
  usage_count l = length l -> Forall carries l.
Proof.
  unfold usage_count.
  induction l as [|[c st] l IH]; intros H; [constructor|].
  cbn [filter] in H. unfold has_usage at 1 in H. cbn [snd] in H.
  pose proof (filter_length_le has_usage l).
  destruct (phone_usage_minutes st) eqn:Hu; simpl in H; [|lia].
  constructor; [unfold carries; cbn; congruence|]. apply IH. lia.
Qed.

Lemma usage_count_app (l k : list (string * Stats)) :
  usage_count (l ++ k) = (usage_count l + usage_count k)%nat.
Proof. unfold usage_count. now rewrite filter_app, length_app. Qed.

Lemma usage_count_none (l : list (string * Stats)) :
  Forall (fun kv => phone_usage_minutes (snd kv) = None) l ->
  usage_count l = 0%nat.
Proof. intros H. rewrite <- points_length, (points_none _ H). reflexivity. Qed.

Lemma usage_count_carries (l : list (string * Stats)) :
  Forall carries l -> usage_count l = length l.
Proof.
  unfold usage_count. induction 1 as [|[c st] l Hx _ IH]; [reflexivity|].
  cbn [filter]. unfold has_usage at 1. cbn [snd].
  unfold carries in Hx. cbn in Hx.
  destruct (phone_usage_minutes st); [|congruence]. simpl. now rewrite IH.
Qed.

Lemma returns_usage_first (conditions : list (string * Stats)) :
  (forall p kv, nth_error conditions p = Some kv -> carries kv ->
                (p < usage_count conditions)%nat) ->
  usage_first conditions.
Proof.
  intros H. set (k := usage_count conditions).
  exists (firstn k conditions), (skipn k conditions).
  split; [symmetry; apply firstn_skipn|].
  assert (Hlate : Forall (fun kv => phone_usage_minutes (snd kv) = None)
                         (skipn k conditions)).
  { apply Forall_forall. intros kv Hin.
    apply In_nth_error in Hin. destruct Hin as [q Hq].
    rewrite nth_error_skipn in Hq.
    destruct (phone_usage_minutes (snd kv)) eqn:Hu; [|reflexivity].
    assert (Hc : carries kv) by (unfold carries; congruence).
    specialize (H _ _ Hq Hc). fold k in H. lia. }
  split; [|exact Hlate].
  apply usage_count_all.
  pose proof (usage_count_app (firstn k conditions) (skipn k conditions)) as Happ.
  rewrite firstn_skipn, (usage_count_none _ Hlate) in Happ. fold k in Happ.
  pose proof (length_firstn k conditions) as Hlen.
  assert (Hle : (usage_count (firstn k conditions)
                 <= length (firstn k conditions))%nat)
    by apply filter_length_le.
  lia.
Qed.

End ScatterFacts.

(** X22.  The labelling loop of the phone-usage scatter indexes the
    points by the position of the condition among all conditions, not
    among those with phone usage.  It therefore completes exactly when
    the conditions with phone usage come first in the dictionary (in
    particular when all or none carry it), and then every label sits
    on its own condition's point; otherwise, that is as soon as a
    condition without phone usage precedes one with it, the loop
    raises [IndexError]. *)
Theorem X22_scatter_labels (conditions : list (string * Stats)) :
  (snd (Scatter.annotate conditions) = Return tt
   <-> Scatter.usage_first conditions)
  /\ (snd (Scatter.annotate conditions) = Return tt ->
      fst (Scatter.annotate conditions) = Scatter.own_labels conditions)
  /\ (~ Scatter.usage_first conditions ->
      snd (Scatter.annotate conditions) = Raise IndexError)
  /\ (forall before between after kv kv',
        conditions = before ++ kv :: between ++ kv' :: after ->
        phone_usage_minutes (snd kv) = None ->
        phone_usage_minutes (snd kv') <> None ->
        snd (Scatter.annotate conditions) = Raise IndexError).
Proof.
  assert (Hiff : snd (Scatter.annotate conditions) = Return tt
                 <-> Scatter.usage_first conditions).
  { unfold Scatter.annotate.
    destruct (Scatter.points conditions) as [|pt pts] eqn:Hpts.
    - cbn [snd]. split; [|reflexivity]. intros _.
      exists [], conditions. split; [reflexivity|]. split; [constructor|].
      apply Forall_forall. intros [c st] Hin.
      destruct (phone_usage_minutes st) as [u|] eqn:Hu; [|exact Hu].
      exfalso. apply in_split in Hin. destruct Hin as (l1 & l2 & ->).
      rewrite ScatterFacts.points_app in Hpts.
      cbn [Scatter.points flat_map snd] in Hpts. rewrite Hu in Hpts.
      apply app_eq_nil in Hpts. destruct Hpts as [_ Hpts]. discriminate.
    - rewrite ScatterFacts.annotate_from_returns.
      rewrite <- Hpts, ScatterFacts.points_length. cbn [Nat.add]. split.
      + apply ScatterFacts.returns_usage_first.
      + intros (U & N & -> & HU & HN) p kv Hp Hc.
        rewrite ScatterFacts.usage_count_app,
                (ScatterFacts.usage_count_none _ HN),
                (ScatterFacts.usage_count_carries _ HU), Nat.add_0_r.
        destruct (Nat.lt_ge_cases p (length U)) as [Hlt|Hge]; [exact Hlt|].
        rewrite nth_error_app2 in Hp by exact Hge.
        apply nth_error_In in Hp. rewrite Forall_forall in HN.
        specialize (HN _ Hp). unfold Scatter.carries in Hc. congruence. }
  assert (Hraise : ~ Scatter.usage_first conditions ->
                   snd (Scatter.annotate conditions) = Raise IndexError).
  { intros Hnot. unfold Scatter.annotate in *.
    destruct (Scatter.points conditions) as [|pt pts] eqn:Hpts.
    - exfalso. apply Hnot, Hiff. reflexivity.
    - destruct (ScatterFacts.annotate_from_raises (pt :: pts) conditions 0)
        as [H|H]; [|exact H].
      exfalso. apply Hnot, Hiff. exact H. }
  split; [exact Hiff|]. split; [|split; [exact Hraise|]].
  - intros Hret. apply Hiff in Hret.
    destruct Hret as (U & N & -> & HU & HN).
    unfold Scatter.annotate.
    assert (Hlab : forall pts, pts = Scatter.points (U ++ N) ->
              Scatter.annotate_from pts 0 (U ++ N)
              = (Scatter.own_labels (U ++ N), Return tt)).
    { intros pts ->. apply ScatterFacts.annotate_from_labels.
      intros p c st u Hp Hu. cbn [Nat.add].
      rewrite ScatterFacts.points_app, (ScatterFacts.points_none _ HN),
              app_nil_r.
      destruct (Nat.lt_ge_cases p (length U)) as [Hlt|Hge].
      - rewrite nth_error_app1 in Hp by exact Hlt.
        exact (ScatterFacts.points_all U HU p c st u Hp Hu).
      - rewrite nth_error_app2 in Hp by exact Hge.
        apply nth_error_In in Hp. rewrite Forall_forall in HN.
        specialize (HN _ Hp). cbn in HN. congruence. }
    destruct (Scatter.points (U ++ N)) as [|pt pts] eqn:Hpts.
    + cbn [fst]. unfold Scatter.own_labels.
      rewrite ScatterFacts.points_app in Hpts.
      apply app_eq_nil in Hpts. destruct Hpts as [HptsU _].
      pose proof (ScatterFacts.points_length U) as HlenU.
      rewrite HptsU, (ScatterFacts.usage_count_carries _ HU) in HlenU.
      destruct U; [|discriminate]. cbn [app].
      clear -HN. induction HN as [|[c st] N Hx _ IH]; [reflexivity|].
      cbn [flat_map snd fst]. cbn in Hx. now rewrite Hx.
    + now rewrite (Hlab _ eq_refl).
  - intros before between after kv kv' Hshape Hno Hyes. apply Hraise.
    intros (U & N & Heq & HU & HN).
    rewrite Hshape in Heq. clear Hshape.
    rewrite Forall_forall in HU, HN.
    (* [kv] lies in [N], [kv'] in [U]; yet [kv] comes first *)
    assert (Hpos : forall l1 l2 x, l1 ++ x :: l2 = U ++ N ->
                     (length l1 < length U)%nat -> In x U).
    { intros l1 l2 x Hx Hlt.
      assert (Hnth : nth_error (U ++ N) (length l1) = Some x).
      { rewrite <- Hx. rewrite nth_error_app2 by lia.
        now rewrite Nat.sub_diag. }
      rewrite nth_error_app1 in Hnth by exact Hlt.
      now apply nth_error_In in Hnth. }
    destruct (Nat.lt_ge_cases (length before) (length U)) as [Hlt|Hge].
    + specialize (Hpos before (between ++ kv' :: after) kv Heq Hlt).
      apply HU in Hpos. unfold Scatter.carries in Hpos. congruence.
    + assert (Hnth : nth_error (U ++ N)
                       (length (before ++ kv :: between)) = Some kv').
      { rewrite <- Heq.
        replace (before ++ kv :: between ++ kv' :: after)
          with ((before ++ kv :: between) ++ kv' :: after)
          by (now rewrite <- app_assoc).
        rewrite nth_error_app2 by lia. now rewrite Nat.sub_diag. }
      rewrite nth_error_app2 in Hnth
        by (rewrite length_app; simpl; lia).
      apply nth_error_In, HN in Hnth. congruence.
Qed.

Lemma X22_scatter_labels_witness :
  snd (Scatter.annotate
         [("A"%string, condition_with_noise_ratio 2);
          ("B"%string,
           mkStats (scalars (condition_with_noise_ratio 3))
                   None None None None (Some 30) (Some 0))])
  = Raise IndexError.
Proof.
  apply (proj2 (proj2 (proj2 (X22_scatter_labels _))) [] [] []
           ("A"%string, condition_with_noise_ratio 2)
           ("B"%string,
            mkStats (scalars (condition_with_noise_ratio 3))
                    None None None None (Some 30) (Some 0))).
  - reflexivity.
  - reflexivity.
  - discriminate.
Defined.

(** ** The best and the worst hour of the graph page *)

Module AppFacts.
Import App.

Lemma first_max_step {A} (key : A -> float64) (done : list A) (best y : A) :
  first_max key done best ->
  is_finite (key y) = true ->
  first_max key (done ++ [y]) (if fgt (key y) (key best) then y else best).
Proof.
  intros (l1 & l2 & q & -> & Hq & H1 & H2) Hy.
  destruct (key y) as [| |p] eqn:Hp; try discriminate.
  rewrite Hq. cbn [fgt]. unfold Qltb.
  destruct (Qle_bool p q) eqn:E; cbn [negb].
  - apply Qle_bool_iff in E.
    exists l1, (l2 ++ [y]), q. split; [now rewrite <- app_assoc|].
    split; [exact Hq|]. split; [exact H1|].
    intros b Hb. apply in_app_or in Hb. destruct Hb as [Hb|[<-|[]]].
    + now apply H2.
    + exists p. split; [exact Hp|exact E].
  - assert (Hlt : q < p).
    { apply Qnot_le_lt. intros H. apply Qle_bool_iff in H. congruence. }
    exists (l1 ++ best :: l2), [], p. split; [reflexivity|].
    split; [exact Hp|]. split; [|intros b []].
    intros b Hb. apply in_app_or in Hb. destruct Hb as [Hb|[<-|Hb]].
    + destruct (H1 b Hb) as (p' & Hp' & Hlt'). exists p'.
      split; [exact Hp'|]. now apply Qlt_trans with q.
    + exists q. split; [exact Hq|exact Hlt].
    + destruct (H2 b Hb) as (p' & Hp' & Hle'). exists p'.
      split; [exact Hp'|]. now apply Qle_lt_trans with q.
Qed.

Lemma first_max_fold {A} (key : A -> float64) (rest : list A) :
  forall done best,
    first_max key done best ->
    (forall a, In a rest -> is_finite (key a) = true) ->
    first_max key (done ++ rest)
      (fold_left (fun best y => if fgt (key y) (key best) then y else best)
                 rest best).
Proof.
  induction rest as [|y rest IH]; intros done best Hinv Hfin.
  - now rewrite app_nil_r.
  - cbn [fold_left].
    replace (done ++ y :: rest) with ((done ++ [y]) ++ rest)
      by (now rewrite <- app_assoc).
    apply IH.
    + apply first_max_step; [exact Hinv|]. apply Hfin. now left.
    + intros a Ha. apply Hfin. now right.
Qed.

(** [max] over a non-empty list of finite keys returns the first
    largest item. *)
Lemma py_max_first {A} (key : A -> float64) (items : list A) :
  items <> [] ->
  (forall a, In a items -> is_finite (key a) = true) ->
  exists r, py_max key items = Return r /\ first_max key items r.
Proof.
  intros Hne Hfin. destruct items as [|x rest]; [congruence|].
  eexists. split; [reflexivity|].
  apply (first_max_fold key rest [x] x).
  - destruct (key x) as [| |q] eqn:Hq;
      try (specialize (Hfin x (or_introl eq_refl)); rewrite Hq in Hfin;
           discriminate).
    exists [], [], q. split; [reflexivity|]. split; [exact Hq|].
    split; intros b [].
  - intros a Ha. apply Hfin. now right.
Qed.

(** The hourly list of a series: empty for one sample, not empty for
    more. *)
Lemma hourly_cases (values : list Q) (interval : Q) :
  values <> [] -> 0 < interval ->
  exists hq,
    hourly values interval = Return hq
    /\ (length values = 1%nat -> hq = [])
    /\ ((2 <= length values)%nat -> hq <> []).
Proof.
  intros Hne Hpos. eexists. split; [apply hourly_nonempty, Hne|]. split.
  - intros Hone. destruct values as [|x [|y t]]; try discriminate.
    reflexivity.
  - intros Hlen.
    pose proof (HourlyMore.Qceiling_positive _
                  (HourlyMore.time_last_positive _ _ Hlen Hpos)) as Hc.
    destruct (HourlyMore.range_head _ Hc) as (hs & ->). cbn [flat_map].
    destruct values as [|x t]; [congruence|].
    destruct (HourlyMore.first_sample_hour x t interval) as (rest & Hrest).
    unfold hour_entry at 1. rewrite Hrest. discriminate.
Qed.

(** The percentages of an hourly entry are finite numbers. *)
Lemma bucket_finite (values : list Q) (interval : Q) (hq : list HourBucket)
  (b : HourBucket) :
  hourly values interval = Return hq -> In b hq ->
  is_finite (hour_deep_sleep_pct b) = true
  /\ is_finite (hour_restless_pct b) = true.
Proof.
  intros Hhq Hb.
  assert (Hne : values <> []).
  { intros ->. rewrite hourly_empty in Hhq. discriminate. }
  rewrite (hourly_nonempty _ _ Hne) in Hhq. injection Hhq as <-.
  apply in_flat_map in Hb. destruct Hb as (h & _ & Hb).
  apply HourlyFacts.hour_entry_in in Hb. destruct Hb as [Hd ->].
  cbn [hour_deep_sleep_pct hour_restless_pct].
  rewrite !pct_finite by (now apply length_nonzero). split; reflexivity.
Qed.

End AppFacts.

(** X23.  The graph page takes the best and the worst hour with [max]
    over the hourly list.  For a ready analyzer of a single sample the
    list is empty and [max] raises [ValueError]; with two or more
    samples the best hour is the first entry with the largest deep
    sleep percentage and the worst hour the first entry with the
    largest restless percentage. *)
Theorem X23_best_and_worst_hour (self : SleepAnalyzer) (df : DataFrame)
  (flags : list bool) :
  ready self df flags ->
  exists st hq,
    fst (calculate_statistics self) = Return (Some st)
    /\ hourly_quality st = Some hq
    /\ (total_samples (scalars st) = 1%nat ->
        App.show_graphs_hours st = Raise ValueError)
    /\ ((2 <= total_samples (scalars st))%nat ->
        exists best worst,
          App.show_graphs_hours st = Return (Some (best, worst))
          /\ App.first_max hour_deep_sleep_pct hq best
          /\ App.first_max hour_restless_pct hq worst).
Proof.
  intros Hready.
  destruct (calculate_statistics_ready self df flags Hready)
    as (hq & Hhq & Hrun).
  destruct Hready as (_ & _ & Hne & Hpos).
  exists (stats_of df flags (measurement_interval self) hq), hq.
  rewrite Hrun. split; [reflexivity|]. split; [reflexivity|].
  destruct (AppFacts.hourly_cases _ _ Hne Hpos) as (hq' & Hhq' & Hone & Htwo).
  rewrite Hhq in Hhq'. injection Hhq' as <-.
  unfold App.show_graphs_hours.
  cbn [stats_of scalars scalar_stats total_samples hourly_quality].
  split.
  - intros H1. rewrite (Hone H1). reflexivity.
  - intros H2. specialize (Htwo H2).
    destruct (AppFacts.py_max_first hour_deep_sleep_pct hq Htwo)
      as (best & Hbest & Hfirst).
    { intros b Hb. apply (AppFacts.bucket_finite _ _ _ _ Hhq Hb). }
    destruct (AppFacts.py_max_first hour_restless_pct hq Htwo)
      as (worst & Hworst & Hfirst').
    { intros b Hb. apply (AppFacts.bucket_finite _ _ _ _ Hhq Hb). }
    exists best, worst. rewrite Hbest, Hworst. auto.
Qed.

Lemma X23_best_and_worst_hour_witness :
  exists st hq,
    fst (calculate_statistics example_analyzer) = Return (Some st)
    /\ hourly_quality st = Some hq.
Proof.
  destruct (X23_best_and_worst_hour _ _ _ example_ready)
    as (st & hq & H1 & H2 & _).
  exists st, hq. auto.
Defined.

(** ** The REM spans of the main graph *)

Module PlotFacts.
Import Plot.

Lemma time_hours_nth (n : nat) (interval : Q) (i : nat) :
  (i < n)%nat ->
  nth_error (time_hours n interval) i = Some (time_at interval i).
Proof.
  intros Hi. unfold time_hours. rewrite nth_error_map, nth_error_seq.
  destruct (Nat.ltb_spec i n); [reflexivity|lia].
Qed.

Lemma py_index_nat {A} (a : list A) (i : nat) (x : A) :
  nth_error a i = Some x -> py_index a (Z.of_nat i) = Return x.
Proof.
  intros H. unfold py_index. cbv zeta.
  destruct (Z.ltb_spec (Z.of_nat i) 0); [lia|].
  destruct (Z.ltb_spec (Z.of_nat i) 0); [lia|].
  now rewrite Nat2Z.id, H.
Qed.

Lemma py_index_pred {A} (a : list A) (i : nat) (x : A) :
  (1 <= i)%nat -> nth_error a (i - 1) = Some x ->
  py_index a (Z.of_nat i - 1) = Return x.
Proof.
  intros Hi H. replace (Z.of_nat i - 1)%Z with (Z.of_nat (i - 1)) by lia.
  now apply py_index_nat.
Qed.

Lemma py_index_last {A} (a : list A) (x : A) :
  nth_error a (length a - 1) = Some x -> py_index a (-1) = Return x.
Proof.
  intros H.
  assert (Hlen : (1 <= length a)%nat).
  { destruct a; [discriminate|simpl; lia]. }
  unfold py_index. cbv zeta.
  destruct (Z.ltb_spec (-1) 0); [|lia].
  destruct (Z.ltb_spec (Z.of_nat (length a) + -1) 0); [lia|].
  replace (Z.to_nat (Z.of_nat (length a) + -1)) with (length a - 1)%nat by lia.
  now rewrite H.
Qed.

(** The span loop draws the runs of the mask, on the time axis. *)
Lemma spans_from_runs (n : nat) (interval : Q) (mask : list bool) :
  forall i cur rs c,
    (i + length mask = n)%nat -> (cur <= i)%nat ->
    ((0 < cur)%nat -> rs = time_at interval (i - cur)) ->
    spans_from (time_hours n interval) mask i (0 <? cur)%nat rs c
    = Return (decorate (time_at interval) c (runs mask i cur)).
Proof.
  induction mask as [|m rest IH]; intros i cur rs c Hn Hcur Hrs.
  - cbn [length] in Hn. rewrite Nat.add_0_r in Hn. subst n.
    cbn [spans_from runs]. destruct (Nat.ltb_spec 0 cur) as [Hpos|Hz].
    + rewrite (py_index_last _ (time_at interval (i - 1))).
      * rewrite (Hrs Hpos). reflexivity.
      * rewrite HourlyFacts.time_hours_length. apply time_hours_nth. lia.
    + reflexivity.
  - cbn [length] in Hn. destruct m; cbn [spans_from runs andb negb].
    + destruct cur as [|k].
      * cbn [Nat.ltb Nat.leb negb].
        rewrite (py_index_nat _ i (time_at interval i))
          by (apply time_hours_nth; lia).
        apply (IH (S i) 1%nat); [lia|lia|].
        intros _. f_equal. lia.
      * change (0 <? S k)%nat with true. cbn [negb andb].
        apply (IH (S i) (S (S k))); [lia|lia|].
        intros _. rewrite Hrs by lia. f_equal.
    + destruct cur as [|k].
      * change (0 <? 0)%nat with false. cbn [app].
        apply (IH (S i) 0%nat); [lia|lia|]. intros H. lia.
      * change (0 <? S k)%nat with true. cbn [app].
        rewrite (py_index_pred _ i (time_at interval (i - 1)))
          by (try apply time_hours_nth; lia).
        assert (Hrec := IH (S i) 0%nat rs (S c) ltac:(lia) ltac:(lia)
                          ltac:(intros H; lia)).
        change (0 <? 0)%nat with false in Hrec. rewrite Hrec.
        cbn [decorate]. rewrite (Hrs ltac:(lia)). reflexivity.
Qed.

(** A position lies in a run exactly when it belongs to the run open
    at [i] or its flag is set. *)
Lemma runs_cover (mask : list bool) :
  forall i cur j,
    (cur <= i)%nat ->
    (exists a b, In (a, b) (runs mask i cur) /\ (a <= j <= b)%nat)
    <-> ((i - cur <= j < i)%nat
         \/ ((i <= j)%nat /\ nth_error mask (j - i) = Some true)).
Proof.
  induction mask as [|m rest IH]; intros i cur j Hcur.
  - cbn [runs]. destruct (Nat.ltb_spec 0 cur) as [Hpos|Hz].
    + split.
      * intros (a & b & [Heq|[]] & Hj). injection Heq as <- <-. left. lia.
      * intros [Hj|[_ Hj]].
        -- exists (i - cur)%nat, (i - 1)%nat. split; [now left|lia].
        -- destruct (j - i)%nat; discriminate.
    + split.
      * intros (a & b & [] & _).
      * intros [Hj|[_ Hj]]; [lia|]. destruct (j - i)%nat; discriminate.
  - destruct m; cbn [runs].
    + rewrite (IH (S i) (S cur) j) by lia. split.
      * intros [Hj|[Hj Hnth]].
        -- destruct (Nat.eq_dec j i) as [->|Hne].
           ++ right. split; [lia|]. now rewrite Nat.sub_diag.
           ++ left. lia.
        -- right. split; [lia|].
           replace (j - i)%nat with (S (j - S i)) by lia. exact Hnth.
      * intros [Hj|[Hj Hnth]]; [left; lia|].
        destruct (Nat.eq_dec j i) as [->|Hne]; [left; lia|].
        right. split; [lia|].
        replace (j - i)%nat with (S (j - S i)) in Hnth by lia. exact Hnth.
    + assert (Hrest : (exists a b, In (a, b) (runs rest (S i) 0)
                                   /\ (a <= j <= b)%nat)
                      <-> ((S i <= j)%nat
                           /\ nth_error rest (j - S i) = Some true)).
      { rewrite (IH (S i) 0%nat j) by lia. split.
        - intros [Hj|Hj]; [lia|exact Hj].
        - intros Hj. now right. }
      split.
      * intros (a & b & Hin & Hj). apply in_app_or in Hin.
        destruct Hin as [Hin|Hin].
        -- destruct (Nat.ltb_spec 0 cur); [|destruct Hin].
           destruct Hin as [Heq|[]]. injection Heq as <- <-. left. lia.
        -- assert (Hex : exists a b, In (a, b) (runs rest (S i) 0)
                                     /\ (a <= j <= b)%nat)
             by (exists a, b; auto).
           apply Hrest in Hex. destruct Hex as [Hj' Hnth].
           right. split; [lia|].
           replace (j - i)%nat with (S (j - S i)) by lia. exact Hnth.
      * intros [Hj|[Hj Hnth]].
        -- exists (i - cur)%nat, (i - 1)%nat. split; [|lia].
           apply in_or_app. left.
           destruct (Nat.ltb_spec 0 cur); [now left|lia].
        -- destruct (Nat.eq_dec j i) as [->|Hne].
           { rewrite Nat.sub_diag in Hnth. discriminate. }
           replace (j - i)%nat with (S (j - S i)) in Hnth by lia.
           assert (Hj' : (S i <= j)%nat) by lia.
           destruct (proj2 Hrest (conj Hj' Hnth)) as (a & b & Hin & Hab).
           exists a, b. split; [|exact Hab]. apply in_or_app. now right.
Qed.

(** The runs have the lengths the streak loop counts. *)
Lemma runs_lengths (mask : list bool) :
  forall i cur,
    (cur <= i)%nat ->
    Forall2 (fun ab len => (1 <= len)%nat
                           /\ (snd ab = fst ab + (len - 1))%nat)
            (runs mask i cur)
            (Streak.flush (fold_left Streak.step mask (cur, []))).
Proof.
  induction mask as [|m rest IH]; intros i cur Hcur.
  - cbn [runs fold_left Streak.flush].
    destruct (Nat.ltb_spec 0 cur); cbn [app]; constructor; [|constructor].
    cbn [fst snd]. lia.
  - destruct m; cbn [runs fold_left Streak.step].
    + apply IH. lia.
    + rewrite StreakFacts.flush_fold_acc. apply Forall2_app.
      * destruct (Nat.ltb_spec 0 cur); cbn [app]; constructor; [|constructor].
        cbn [fst snd]. lia.
      * apply IH. lia.
Qed.

Lemma decorate_cover (t : nat -> Q) (x : Q) (l : list (nat * nat)) :
  forall c,
    (exists sp, In sp (decorate t c l)
                /\ span_from sp <= x /\ x <= span_to sp)
    <-> (exists a b, In (a, b) l /\ t a <= x /\ x <= t b).
Proof.
  induction l as [|[a b] r IH]; intros c; cbn [decorate].
  - split; [intros (sp & [] & _)|intros (a & b & [] & _)].
  - split.
    + intros (sp & [<-|Hin] & Hx).
      * exists a, b. split; [now left|exact Hx].
      * destruct (proj1 (IH (S c))) as (a' & b' & Hin' & Hx');
          [exists sp; auto|].
        exists a', b'. split; [now right|exact Hx'].
    + intros (a' & b' & [Heq|Hin] & Hx).
      * injection Heq as <- <-. eexists. split; [now left|exact Hx].
      * destruct (proj2 (IH (S c))) as (sp & Hin' & Hx');
          [exists a', b'; auto|].
        exists sp. split; [now right|exact Hx'].
Qed.

Lemma decorate_unlabelled (t : nat -> Q) (l : list (nat * nat)) :
  forall c, (1 <= c)%nat ->
    map span_labelled (decorate t c l) = repeat false (length l).
Proof.
  induction l as [|[a b] r IH]; intros c Hc; [reflexivity|].
  cbn [decorate map length repeat span_labelled].
  rewrite (IH (S c)) by lia.
  destruct c; [lia|reflexivity].
Qed.

Lemma decorate_length (t : nat -> Q) (l : list (nat * nat)) :
  forall c, length (decorate t c l) = length l.
Proof.
  induction l as [|[a b] r IH]; intros c; [reflexivity|].
  cbn [decorate length]. now rewrite IH.
Qed.

Lemma decorate_widths (interval : Q) (l : list (nat * nat))
  (lens : list nat) :
  Forall2 (fun ab len => (1 <= len)%nat
                         /\ (snd ab = fst ab + (len - 1))%nat) l lens ->
  forall c,
    Forall2 (fun sp len =>
               (1 <= len)%nat
               /\ span_to sp - span_from sp
                  == inject_Z (Z.of_nat (len - 1)) * interval / 3600)
            (decorate (time_at interval) c l) lens.
Proof.
  induction 1 as [|[a b] len r lens' [Hlen Hab] _ IH]; intros c;
    cbn [decorate]; constructor; [|apply IH].
  split; [exact Hlen|]. cbn [span_to span_from fst snd] in *.
  rewrite Hab. unfold time_at. rewrite Nat2Z.inj_add, inject_Z_plus. field.
Qed.

Lemma time_at_le (interval : Q) (a b : nat) :
  0 < interval -> (time_at interval a <= time_at interval b <-> (a <= b)%nat).
Proof.
  intros Hpos. unfold time_at, Qdiv.
  rewrite Qmult_le_r by reflexivity.
  rewrite Qmult_le_r by exact Hpos.
  rewrite <- Zle_Qle. lia.
Qed.

End PlotFacts.

(** X24.  For a positive interval the span loop of [plot_data] never
    fails and draws one span per maximal run of REM flags: a sample is
    flagged exactly when its time lies in a drawn span; the spans are
    as many as the runs, the span of a run of [len] samples being
    [(len - 1) * interval / 3600] hours wide (so an isolated REM
    sample gets a span of width zero); and only the first span carries
    the legend label. *)
Theorem X24_rem_spans (rem_mask : list bool) (interval : Q) :
  0 < interval ->
  exists spans,
    Plot.rem_spans (time_hours (length rem_mask) interval) rem_mask
    = Return spans
    /\ (forall j, (j < length rem_mask)%nat ->
          (nth_error rem_mask j = Some true
           <-> exists sp, In sp spans
                          /\ Plot.span_from sp <= Plot.time_at interval j
                          /\ Plot.time_at interval j <= Plot.span_to sp))
    /\ Forall2 (fun sp len =>
                  (1 <= len)%nat
                  /\ Plot.span_to sp - Plot.span_from sp
                     == inject_Z (Z.of_nat (len - 1)) * interval / 3600)
               spans (Streak.consecutive_noise rem_mask)
    /\ map Plot.span_labelled spans
       = match spans with
         | [] => []
         | _ :: later => true :: repeat false (length later)
         end.
Proof.
  intros Hpos.
  exists (Plot.decorate (Plot.time_at interval) 0 (Plot.runs rem_mask 0 0)).
  split.
  { unfold Plot.rem_spans.
    apply (PlotFacts.spans_from_runs (length rem_mask) interval rem_mask
             0%nat 0%nat 0 0%nat); [reflexivity|lia|intros H; lia]. }
  split; [|split].
  - intros j Hj. rewrite PlotFacts.decorate_cover.
    assert (Hidx : (exists a b, In (a, b) (Plot.runs rem_mask 0 0)
                                /\ (a <= j <= b)%nat)
                   <-> nth_error rem_mask j = Some true).
    { rewrite (PlotFacts.runs_cover rem_mask 0%nat 0%nat j) by lia.
      replace (j - 0)%nat with j by lia. split.
      - intros [H|[_ H]]; [lia|exact H].
      - intros H. right. split; [lia|exact H]. }
    rewrite <- Hidx. split.
    + intros (a & b & Hin & Ha & Hb). exists a, b. split; [exact Hin|].
      split; now apply PlotFacts.time_at_le.
    + intros (a & b & Hin & Ha & Hb). exists a, b. split; [exact Hin|].
      split; now apply (PlotFacts.time_at_le interval).
  - apply PlotFacts.decorate_widths, PlotFacts.runs_lengths. lia.
  - destruct (Plot.runs rem_mask 0 0) as [|[a b] r]; [reflexivity|].
    cbn [Plot.decorate map Plot.span_labelled Nat.eqb length].
    rewrite (PlotFacts.decorate_unlabelled _ r 1%nat) by lia.
    now rewrite PlotFacts.decorate_length.
Qed.

Lemma X24_rem_spans_witness :
  exists spans,
    Plot.rem_spans (time_hours 5 5) [false; true; true; false; true]
    = Return spans.
Proof.
  destruct (X24_rem_spans [false; true; true; false; true] 5)
    as (spans & H & _).
  - reflexivity.
  - exists spans. exact H.
Defined.

(** ** [plot_data]: how it ends, and what the axes hold *)

Module FigureFacts.
Import Plot.




End FigureFacts.



(** ** [plot_additional_analysis]: the rolling average and the
       cumulative noise *)

Module PanelFacts.
Import Plot.

Lemma nth_error_combine {A B} (l : list A) (k : list B) :
  forall i a b,
    nth_error (combine l k) i = Some (a, b)
    <-> nth_error l i = Some a /\ nth_error k i = Some b.
Proof.
  revert k. induction l as [|x l IH]; intros [|y k] [|i] a b;
    cbn [combine nth_error]; try (split; [discriminate|intros [H1 H2]; discriminate]).
  - split; [intros H; injection H as -> ->; auto|].
    intros [H1 H2]. congruence.
  - apply IH.
Qed.

(** The window is never shorter than 100 samples. *)
Lemma rolling_window_min (interval : Q) : (100 <= rolling_window interval)%Z.
Proof. unfold rolling_window. lia. Qed.

Lemma quotient_times (interval : Q) :
  0 < interval -> 600 / interval * interval == 600.
Proof. intros Hpos. field. intros H. rewrite H in Hpos. discriminate. Qed.

(** Up to six seconds between samples the window is the number of
    whole samples in ten minutes. *)
Lemma rolling_window_short (interval : Q) :
  0 < interval -> interval <= 6 ->
  rolling_window interval = Qfloor (600 / interval)
  /\ inject_Z (rolling_window interval) * interval <= 600
  /\ 600 < (inject_Z (rolling_window interval) + 1) * interval.
Proof.
  intros Hpos Hle.
  assert (Hq : 100 <= 600 / interval).
  { apply Qle_shift_div_l; [exact Hpos|].
    apply Qle_trans with (100 * 6); [|vm_compute; discriminate].
    apply Qmult_le_l; [reflexivity|exact Hle]. }
  assert (Hfl : (100 <= Qfloor (600 / interval))%Z).
  { apply Qfloor_resp_le in Hq. exact Hq. }
  assert (Hint : int_of (600 / interval) = Qfloor (600 / interval)).
  { unfold int_of.
    destruct (Qle_bool 0 (600 / interval)) eqn:E; [reflexivity|].
    apply Qle_bool_false_lt in E. lra. }
  assert (Hw : rolling_window interval = Qfloor (600 / interval)).
  { unfold rolling_window. rewrite Hint. lia. }
  split; [exact Hw|]. rewrite Hw. split.
  - rewrite <- (quotient_times interval Hpos) at 2.
    apply Qmult_le_compat_r; [apply Qfloor_le|lra].
  - rewrite <- (quotient_times interval Hpos) at 1.
    apply Qmult_lt_compat_r; [exact Hpos|].
    rewrite <- (inject_Z_plus _ 1). apply Qlt_floor.
Qed.

(** From six seconds on it is 100 samples, which then span ten
    minutes or more. *)
Lemma rolling_window_long (interval : Q) :
  6 <= interval ->
  rolling_window interval = 100%Z
  /\ 600 <= inject_Z (rolling_window interval) * interval.
Proof.
  intros Hge.
  assert (Hpos : 0 < interval) by lra.
  assert (Hq : 600 / interval <= 100).
  { apply Qle_shift_div_r; [exact Hpos|].
    apply Qle_trans with (100 * 6); [vm_compute; discriminate|].
    apply Qmult_le_l; [reflexivity|exact Hge]. }
  assert (Hint : (int_of (600 / interval) <= 100)%Z).
  { unfold int_of.
    destruct (Qle_bool 0 (600 / interval)) eqn:E.
    - apply Qfloor_resp_le in Hq. exact Hq.
    - apply Qle_bool_false_lt in E.
      assert (0 <= 600 / interval).
      { apply Qle_shift_div_l; [exact Hpos|]. lra. }
      lra. }
  assert (Hw : rolling_window interval = 100%Z).
  { unfold rolling_window. lia. }
  split; [exact Hw|]. rewrite Hw.
  apply Qle_trans with (100 * 6); [vm_compute; discriminate|].
  apply Qmult_le_l; [reflexivity|exact Hge].
Qed.

(** The window of position [i]: the samples up to [i] while fewer
    than [w] are there, the last [w] of them afterwards. *)
Lemma trailing_window_short (w : Z) (values : list Q) (i : nat) :
  (i < length values)%nat -> (Z.of_nat i + 1 < w)%Z ->
  (Z.of_nat (length (trailing_window w values i)) <? w)%Z = true.
Proof.
  intros Hi Hw. unfold trailing_window, trailing_bounds, Rolling.clip.
  apply Z.ltb_lt. rewrite RollingFacts.slice_length by lia. lia.
Qed.

Lemma trailing_window_full (w : Z) (values : list Q) (i : nat) :
  (1 <= w)%Z -> (i < length values)%nat -> (w <= Z.of_nat i + 1)%Z ->
  trailing_window w values i
  = Rolling.slice (Z.of_nat i + 1 - w) (Z.of_nat i + 1) values
  /\ Z.of_nat (length (trailing_window w values i)) = w.
Proof.
  intros H1 Hi Hw. unfold trailing_window, trailing_bounds, Rolling.clip.
  replace (Z.min (Z.max (Z.of_nat i + 1 - w) 0) (Z.of_nat (length values)))
    with (Z.of_nat i + 1 - w)%Z by lia.
  replace (Z.min (Z.max (Z.of_nat i + 1) 0) (Z.of_nat (length values)))
    with (Z.of_nat i + 1)%Z by lia.
  split; [reflexivity|]. rewrite RollingFacts.slice_length by lia. lia.
Qed.

Lemma rolling_mean_nth (w : Z) (values : list Q) (i : nat) :
  (i < length values)%nat ->
  nth_error (rolling_mean w values) i
  = Some (if (Z.of_nat (length (trailing_window w values i)) <? w)%Z
          then NaN else Series_mean (trailing_window w values i)).
Proof.
  intros Hi. unfold rolling_mean.
  rewrite nth_error_map, nth_error_seq.
  destruct (Nat.ltb_spec i (length values)); [reflexivity|lia].
Qed.

Lemma cumsum_from_nth (flags : list bool) :
  forall acc i,
    (i < length flags)%nat ->
    nth_error (cumsum_from acc flags) i
    = Some (acc + count_true (firstn (S i) flags))%nat.
Proof.
  unfold count_true.
  induction flags as [|b flags IH]; intros acc i Hi; [simpl in Hi; lia|].
  destruct i as [|i].
  - cbn [cumsum_from nth_error firstn filter]. f_equal.
    destruct b; simpl; lia.
  - cbn [cumsum_from nth_error]. rewrite IH by (simpl in Hi; lia).
    f_equal. change (firstn (S (S i)) (b :: flags))
      with (b :: firstn (S i) flags).
    cbn [filter]. destruct b; simpl; lia.
Qed.

Lemma cumsum_from_length (flags : list bool) :
  forall acc, length (cumsum_from acc flags) = length flags.
Proof.
  induction flags as [|b flags IH]; intros acc; [reflexivity|].
  cbn [cumsum_from length]. now rewrite IH.
Qed.

Lemma count_true_firstn_mono (flags : list bool) (i j : nat) :
  (i <= j)%nat ->
  (count_true (firstn i flags) <= count_true (firstn j flags)
   <= count_true (firstn i flags) + (j - i))%nat.
Proof.
  intros Hij. replace j with (i + (j - i))%nat at 1 2 by lia.
  rewrite <- take_take_drop.
  unfold count_true. rewrite filter_app, length_app.
  pose proof (filter_length_le (fun b : bool => b)
                (firstn (j - i) (skipn i flags))) as H1.
  pose proof (length_firstn (j - i) (skipn i flags)) as H2. lia.
Qed.

End PanelFacts.

(** X26.  The rolling average of [plot_additional_analysis] uses a
    trailing window of [max(100, int(600 / interval))] samples that
    must be full.  The window has at least 100 samples; up to an
    interval of six seconds it is the number of whole samples in ten
    minutes, beyond that it stays at 100 samples and so spans ten
    minutes or more.  The first [window - 1] values of the curve are
    [nan] (a recording of fewer samples than the window plots no
    average at all); every later value is the mean of exactly the last
    [window] samples and lies between the smallest and the largest
    sample. *)
Theorem X26_rolling_average (self : SleepAnalyzer) (df : DataFrame)
  (flags : list bool) :
  data self = Some df -> is_noise df = Some flags ->
  0 < measurement_interval self ->
  let interval := measurement_interval self in
  let w := Plot.rolling_window interval in
  exists p,
    Plot.plot_additional_analysis self = Return (Some p)
    /\ (100 <= w)%Z
    /\ (interval <= 6 ->
        inject_Z w * interval <= 600 /\ 600 < (inject_Z w + 1) * interval)
    /\ (6 <= interval -> w = 100%Z /\ 600 <= inject_Z w * interval)
    /\ length (Plot.rolling_average p) = length (dB df)
    /\ (forall i t v,
          nth_error (Plot.rolling_average p) i = Some (t, v) ->
          t = Plot.time_at interval i
          /\ ((Z.of_nat i + 1 < w)%Z -> v = NaN)
          /\ ((w <= Z.of_nat i + 1)%Z ->
              let last_w :=
                Rolling.slice (Z.of_nat i + 1 - w) (Z.of_nat i + 1) (dB df) in
              Z.of_nat (length last_w) = w
              /\ v = Series_mean last_w
              /\ exists m lo hi,
                   v = Fin m
                   /\ Series_min (dB df) = Fin lo
                   /\ Series_max (dB df) = Fin hi
                   /\ lo <= m <= hi))
    /\ ((Z.of_nat (length (dB df)) < w)%Z ->
        Forall (fun tv => snd tv = NaN) (Plot.rolling_average p)).
Proof.
  intros Hdata Hnoise Hpos interval w.
  unfold Plot.plot_additional_analysis.
  rewrite Hdata, Hnoise, (Qlt_Qeq_bool_false _ Hpos).
  eexists. split; [reflexivity|]. cbn [Plot.rolling_average].
  fold interval. fold w.
  pose proof (PanelFacts.rolling_window_min interval) as Hmin. fold w in Hmin.
  split; [exact Hmin|].
  split; [intros Hle; apply (PanelFacts.rolling_window_short interval Hpos Hle)|].
  split; [intros Hge; apply (PanelFacts.rolling_window_long interval Hge)|].
  assert (Hlen : length (Plot.rolling_mean w (dB df)) = length (dB df)).
  { unfold Plot.rolling_mean. now rewrite length_map, length_seq. }
  split.
  { rewrite length_combine, HourlyFacts.time_hours_length, Hlen. lia. }
  assert (Hnth : forall i t v,
            nth_error (combine (time_hours (length (dB df)) interval)
                               (Plot.rolling_mean w (dB df))) i = Some (t, v) ->
            (i < length (dB df))%nat
            /\ t = Plot.time_at interval i
            /\ v = (if (Z.of_nat (length (Plot.trailing_window w (dB df) i))
                        <? w)%Z
                    then NaN
                    else Series_mean (Plot.trailing_window w (dB df) i))).
  { intros i t v Hi. apply PanelFacts.nth_error_combine in Hi.
    destruct Hi as [Ht Hv].
    assert (Hlt : (i < length (dB df))%nat).
    { rewrite <- Hlen. apply nth_error_Some. congruence. }
    rewrite (PlotFacts.time_hours_nth _ _ _ Hlt) in Ht.
    rewrite (PanelFacts.rolling_mean_nth _ _ _ Hlt) in Hv.
    split; [exact Hlt|]. split; congruence. }
  split.
  - intros i t v Hi. destruct (Hnth i t v Hi) as (Hlt & Ht & Hv).
    split; [exact Ht|]. split.
    + intros Hshort.
      now rewrite (PanelFacts.trailing_window_short w _ i Hlt Hshort) in Hv.
    + intros Hfull.
      set (last_w := Rolling.slice (Z.of_nat i + 1 - w) (Z.of_nat i + 1)
                                   (dB df)).
      destruct (PanelFacts.trailing_window_full w (dB df) i
                  ltac:(lia) Hlt Hfull) as [Hwin Hwlen].
      fold last_w in Hwin. rewrite Hwin in Hv, Hwlen.
      rewrite Hwlen, Z.ltb_irrefl in Hv.
      assert (Hne : last_w <> []).
      { intros Hnil. rewrite Hnil in Hwlen. simpl in Hwlen. lia. }
      assert (HdB : dB df <> []).
      { intros Hnil. rewrite Hnil in Hlt. simpl in Hlt. lia. }
      destruct (ColumnFacts.Series_min_spec _ HdB) as (lo & Hlo & _ & Hlo_all).
      destruct (ColumnFacts.Series_max_spec _ HdB) as (hi & Hhi & _ & Hhi_all).
      split; [exact Hwlen|]. split; [exact Hv|].
      exists (Qsum last_w / Qlen last_w), lo, hi.
      split; [rewrite Hv; now apply Series_mean_nonempty|].
      split; [exact Hlo|]. split; [exact Hhi|].
      apply ColumnFacts.mean_bounds; [exact Hne|].
      apply Forall_forall. intros x Hx. apply In_slice in Hx.
      rewrite Forall_forall in Hlo_all, Hhi_all. auto.
  - intros Hshort. apply Forall_forall. intros [t v] Hin.
    apply In_nth_error in Hin. destruct Hin as [i Hi].
    destruct (Hnth i t v Hi) as (Hlt & _ & Hv). cbn [snd].
    now rewrite (PanelFacts.trailing_window_short w _ i Hlt ltac:(lia)) in Hv.
Qed.

Lemma X26_rolling_average_witness :
  exists p, Plot.plot_additional_analysis example_analyzer = Return (Some p).
Proof.
  destruct (X26_rolling_average example_analyzer example_frame example_flags)
    as (p & H & _).
  - reflexivity.
  - reflexivity.
  - reflexivity.
  - exists p. exact H.
Defined.

(** X27.  [plot_additional_analysis] returns without drawing when no
    data is loaded, raises [ZeroDivisionError] for a zero interval and
    [KeyError] for a frame without the noise column.  Otherwise its
    cumulative curve has one value per sample: the number of noise
    flags up to and including that sample, so it never falls, rises by
    at most one per sample, and ends at the total noise count. *)
Theorem X27_cumulative_noise (self : SleepAnalyzer) :
  (data self = None -> Plot.plot_additional_analysis self = Return None)
  /\ (forall df,
        data self = Some df ->
        (measurement_interval self == 0 ->
         Plot.plot_additional_analysis self = Raise ZeroDivisionError)
        /\ (~ measurement_interval self == 0 -> is_noise df = None ->
            Plot.plot_additional_analysis self = Raise (KeyError "is_noise"))
        /\ (forall flags,
              ~ measurement_interval self == 0 ->
              is_noise df = Some flags ->
              length flags = length (dB df) ->
              exists p,
                Plot.plot_additional_analysis self = Return (Some p)
                /\ length (Plot.cumulative_noise p) = length (dB df)
                /\ (forall i t c,
                      nth_error (Plot.cumulative_noise p) i = Some (t, c) ->
                      t = Plot.time_at (measurement_interval self) i
                      /\ c = count_true (firstn (S i) flags))
                /\ (forall i j t c t' c',
                      nth_error (Plot.cumulative_noise p) i = Some (t, c) ->
                      nth_error (Plot.cumulative_noise p) j = Some (t', c') ->
                      (i <= j)%nat -> (c <= c' <= c + (j - i))%nat)
                /\ (dB df <> [] ->
                    exists t,
                      nth_error (Plot.cumulative_noise p)
                                (length (dB df) - 1)
                      = Some (t, count_true flags)))).
Proof.
  split.
  { intros Hdata. unfold Plot.plot_additional_analysis. now rewrite Hdata. }
  intros df Hdata. unfold Plot.plot_additional_analysis. rewrite Hdata.
  split; [|split].
  - intros Hz. apply Qeq_bool_iff in Hz. now rewrite Hz.
  - intros Hnz Hnoise.
    destruct (Qeq_bool (measurement_interval self) 0) eqn:E.
    + apply Qeq_bool_iff in E. contradiction.
    + now rewrite Hnoise.
  - intros flags Hnz Hnoise Hlen.
    destruct (Qeq_bool (measurement_interval self) 0) eqn:E.
    { apply Qeq_bool_iff in E. contradiction. }
    rewrite Hnoise. eexists. split; [reflexivity|].
    cbn [Plot.cumulative_noise]. unfold Plot.cumsum.
    assert (Hnth : forall i t c,
              nth_error (combine (time_hours (length (dB df))
                                    (measurement_interval self))
                                 (Plot.cumsum_from 0 flags)) i = Some (t, c) ->
              (i < length flags)%nat
              /\ t = Plot.time_at (measurement_interval self) i
              /\ c = count_true (firstn (S i) flags)).
    { intros i t c Hi. apply PanelFacts.nth_error_combine in Hi.
      destruct Hi as [Ht Hc].
      assert (Hlt : (i < length flags)%nat).
      { rewrite <- (PanelFacts.cumsum_from_length flags 0).
        apply nth_error_Some. congruence. }
      rewrite PlotFacts.time_hours_nth in Ht by lia.
      rewrite (PanelFacts.cumsum_from_nth _ _ _ Hlt) in Hc.
      split; [exact Hlt|]. split; [congruence|].
      injection Hc as <-. reflexivity. }
    split.
    { rewrite length_combine, HourlyFacts.time_hours_length,
              PanelFacts.cumsum_from_length. lia. }
    split; [|split].
    + intros i t c Hi. destruct (Hnth i t c Hi) as (_ & Ht & Hc). auto.
    + intros i j t c t' c' Hi Hj Hij.
      destruct (Hnth i t c Hi) as (_ & _ & ->).
      destruct (Hnth j t' c' Hj) as (_ & _ & ->).
      pose proof (PanelFacts.count_true_firstn_mono flags (S i) (S j)
                    ltac:(lia)) as H.
      replace (S j - S i)%nat with (j - i)%nat in H by lia. exact H.
    + intros Hne. pose proof (length_nonzero _ Hne) as Hn.
      exists (Plot.time_at (measurement_interval self) (length (dB df) - 1)).
      apply PanelFacts.nth_error_combine. split.
      * apply PlotFacts.time_hours_nth. lia.
      * rewrite PanelFacts.cumsum_from_nth by lia.
        replace (S (length (dB df) - 1)) with (length flags) by lia.
        now rewrite firstn_all.
Qed.

Lemma X27_cumulative_noise_witness :
  exists p, Plot.plot_additional_analysis example_analyzer = Return (Some p).
Proof.
  destruct (proj2 (X27_cumulative_noise example_analyzer)
              example_frame eq_refl) as (_ & _ & H).
  destruct (H example_flags) as (p & Hp & _).
  - discriminate.
  - reflexivity.
  - reflexivity.
  - exists p. exact Hp.
Defined.

(** ** The two durations shown to the user *)

Module DurationFacts.
Import Rounded.

Lemma within_proper (k : nat) (x x' t t' : Q) :
  x == x' -> t == t' -> within k x t -> within k x' t'.
Proof. unfold within. intros Hx Ht. now rewrite Hx, Ht. Qed.

Lemma within_div (k : nat) (x t c : Q) :
  0 < c -> within k x t -> within k (x / c) (t / c).
Proof.
  intros Hc Hw. unfold Qdiv. apply within_scale; [|exact Hw].
  apply Qlt_le_weak, Qinv_lt_0_compat, Hc.
Qed.

Lemma Qlen_nonneg (n : nat) : 0 <= inject_Z (Z.of_nat n).
Proof. change 0 with (inject_Z 0). rewrite <- Zle_Qle. lia. Qed.

Section Durations.

Variable rnd : Q -> Q.
Hypothesis Hrnd : round_to_nearest rnd.

Let Hrel := nearest_relative rnd Hrnd.

(** [len / 720], one rounding. *)
Lemma upload_within (n : nat) :
  within 1 (App.upload_hours rnd n) (inject_Z (Z.of_nat n) / 720).
Proof.
  unfold App.upload_hours.
  assert (H0 : 0 <= inject_Z (Z.of_nat n) / 720).
  { apply Qle_shift_div_l; [lra|]. pose proof (Qlen_nonneg n). lra. }
  apply (within_rnd rnd Hrel); [exact H0|apply within_exact].
Qed.

(** The product with the interval and the division by 60: two
    roundings. *)
Lemma minutes_within (n : nat) (interval : Q) :
  0 <= interval ->
  within 2 (App.duration_minutes rnd n interval)
           (inject_Z (Z.of_nat n) * interval / 60).
Proof.
  intros Hi. unfold App.duration_minutes.
  assert (H0 : 0 <= inject_Z (Z.of_nat n) * interval).
  { apply Qmult_le_0_compat; [apply Qlen_nonneg|exact Hi]. }
  apply (within_rnd rnd Hrel); [apply Qle_shift_div_l; lra|].
  apply within_div; [lra|].
  apply (within_rnd rnd Hrel); [exact H0|apply within_exact].
Qed.

(** The division by 60 again: three roundings. *)
Lemma analysis_within (n : nat) (interval : Q) :
  0 <= interval ->
  within 3 (App.analysis_hours rnd (App.duration_minutes rnd n interval))
           (inject_Z (Z.of_nat n) * interval / 3600).
Proof.
  intros Hi. unfold App.analysis_hours.
  assert (H0 : 0 <= inject_Z (Z.of_nat n) * interval).
  { apply Qmult_le_0_compat; [apply Qlen_nonneg|exact Hi]. }
  assert (Hw : within 3 (rnd (App.duration_minutes rnd n interval / 60))
                        (inject_Z (Z.of_nat n) * interval / 60 / 60)).
  { assert (H1 : 0 <= inject_Z (Z.of_nat n) * interval / 60)
      by (apply Qle_shift_div_l; lra).
    apply (within_rnd rnd Hrel);
      [apply Qle_shift_div_l; [lra|now rewrite Qmult_0_l]|].
    apply within_div; [lra|]. now apply minutes_within. }
  revert Hw. apply within_proper; [reflexivity|field].
Qed.

(** With an interval that is a whole number of seconds the product is
    exact. *)
Lemma minutes_whole_interval (n : nat) (interval : Q) (i : Z) :
  interval == inject_Z i -> (Z.abs (Z.of_nat n * i) <= 2 ^ 53)%Z ->
  App.duration_minutes rnd n interval
  == rnd (inject_Z (Z.of_nat n * i) / 60).
Proof.
  intros Hi Hsize. unfold App.duration_minutes.
  apply (nearest_proper rnd Hrnd).
  assert (H : rnd (inject_Z (Z.of_nat n) * interval)
              == inject_Z (Z.of_nat n * i)).
  { rewrite <- (nearest_integer rnd _ Hrnd Hsize).
    apply (nearest_proper rnd Hrnd). rewrite Hi, inject_Z_mult. reflexivity. }
  now rewrite H.
Qed.

End Durations.

(** The figure shown. *)
Lemma shown_tenths_proper (x y : Q) :
  x == y -> App.shown_tenths x = App.shown_tenths y.
Proof.
  intros H. unfold App.shown_tenths. apply Z.le_antisymm;
    apply Binary64Facts.nearest_even_mono; rewrite H; apply Qle_refl.
Qed.

Lemma shown_tenths_error (x : Q) :
  x * 10 - (1 # 2) <= inject_Z (App.shown_tenths x) <= x * 10 + (1 # 2).
Proof.
  pose proof (Binary64Facts.nearest_even_error (x * 10)) as H.
  apply Qabs_Qle_condition in H. unfold App.shown_tenths. split; lra.
Qed.

Lemma shown_tenths_between (x : Q) (z : Z) :
  inject_Z z - (1 # 2) < x * 10 -> x * 10 < inject_Z z + (1 # 2) ->
  App.shown_tenths x = z.
Proof.
  intros Hlo Hhi. destruct (shown_tenths_error x) as [H1 H2].
  set (s := App.shown_tenths x) in *.
  assert (Hup : inject_Z s < inject_Z (z + 1)).
  { rewrite inject_Z_plus. change (inject_Z 1) with 1. lra. }
  assert (Hdown : inject_Z z < inject_Z (s + 1)).
  { rewrite inject_Z_plus. change (inject_Z 1) with 1. lra. }
  rewrite <- Zlt_Qlt in Hup, Hdown. lia.
Qed.

(** A duration within three roundings of [N / 720] hours is shown as
    [N / 72] tenths rounded to the nearest, unless [N / 72] is half way
    between two tenths. *)
Lemma tenths_of_hours (x : Q) (N : Z) :
  (0 <= N <= 2 ^ 50)%Z -> (N mod 72 <> 36)%Z ->
  within 3 x (inject_Z N / 720) ->
  App.shown_tenths x = ((N + 36) / 72)%Z.
Proof.
  intros HN Hmod [Hlo Hhi].
  pose proof (Z.div_mod N 72 ltac:(lia)) as Hdm.
  pose proof (Z.mod_pos_bound N 72 ltac:(lia)) as Hr.
  set (q := (N / 72)%Z) in *. set (r := (N mod 72)%Z) in *.
  assert (Hq : (0 <= q)%Z) by (unfold q; apply Z.div_pos; lia).
  assert (HNq : inject_Z N == 72 * inject_Z q + inject_Z r).
  { rewrite Hdm, inject_Z_plus, inject_Z_mult. reflexivity. }
  assert (HN0 : 0 <= inject_Z N)
    by (change 0 with (inject_Z 0); rewrite <- Zle_Qle; lia).
  assert (HN50 : inject_Z N <= 1125899906842624).
  { change 1125899906842624 with (inject_Z (2 ^ 50)).
    rewrite <- Zle_Qle. lia. }
  assert (Hq0 : 0 <= inject_Z q)
    by (change 0 with (inject_Z 0); rewrite <- Zle_Qle; lia).
  assert (Hr0 : 0 <= inject_Z r)
    by (change 0 with (inject_Z 0); rewrite <- Zle_Qle; lia).
  set (t := inject_Z N / 720) in *.
  assert (Ht : t * 720 == inject_Z N) by (unfold t; field).
  unfold unit_roundoff in Hlo, Hhi. cbn [pw] in Hlo, Hhi.
  destruct (Z_lt_le_dec r 36) as [Hsmall|Hlarge].
  - assert (Hdiv : ((N + 36) / 72 = q)%Z).
    { symmetry. apply (Z.div_unique _ _ q (r + 36)); lia. }
    rewrite Hdiv.
    assert (Hr35 : inject_Z r <= 35).
    { change 35 with (inject_Z 35). rewrite <- Zle_Qle. lia. }
    apply shown_tenths_between; lra.
  - assert (Hdiv : ((N + 36) / 72 = q + 1)%Z).
    { symmetry. apply (Z.div_unique _ _ (q + 1) (r - 36)); lia. }
    rewrite Hdiv.
    assert (Hr37 : 37 <= inject_Z r).
    { change 37 with (inject_Z 37). rewrite <- Zle_Qle. lia. }
    assert (Hr71 : inject_Z r <= 71).
    { change 71 with (inject_Z 71). rewrite <- Zle_Qle. lia. }
    apply shown_tenths_between.
    + rewrite inject_Z_plus. change (inject_Z 1) with 1. lra.
    + rewrite inject_Z_plus. change (inject_Z 1) with 1. lra.
Qed.

End DurationFacts.

(** X28.  The upload page and the data-info menu show the duration as
    [len / 720] hours, the analysis page as the statistics' minutes
    over 60, each with one decimal.  On a ready analyzer, for any
    round to nearest, the first float is within one rounding of
    [len / 720] and the second within three of
    [len * interval / 3600] (the minutes stored within two of the
    exact minutes).  With a measurement interval of 5 seconds (and
    fewer than [2 ^ 50] records) the two pages show the same figure:
    [len / 72] tenths rounded to the nearest when that is not half way
    between two tenths, and the same float otherwise. *)
Theorem X28_shown_durations (self : SleepAnalyzer) (df : DataFrame)
  (flags : list bool) :
  ready self df flags ->
  exists st,
    fst (calculate_statistics self) = Return (Some st)
    /\ total_samples (scalars st) = length (dB df)
    /\ (forall rnd : Q -> Q,
          Rounded.round_to_nearest rnd ->
          let n := length (dB df) in
          let minutes :=
            App.duration_minutes rnd n (measurement_interval self) in
          let upload := App.upload_hours rnd n in
          let analysis := App.analysis_hours rnd minutes in
          Rounded.within 2 minutes (total_duration_minutes (scalars st))
          /\ Rounded.within 1 upload (inject_Z (Z.of_nat n) / 720)
          /\ Rounded.within 3 analysis
               (inject_Z (Z.of_nat n) * measurement_interval self / 3600)
          /\ (measurement_interval self == 5 ->
              (Z.of_nat n <= 2 ^ 50)%Z ->
              App.shown_tenths upload = App.shown_tenths analysis
              /\ ((Z.of_nat n mod 72 <> 36)%Z ->
                  App.shown_tenths upload = ((Z.of_nat n + 36) / 72)%Z)
              /\ ((Z.of_nat n mod 72 = 36)%Z -> upload == analysis))).
Proof.
  intros Hready.
  destruct (calculate_statistics_ready self df flags Hready)
    as (hq & _ & Hrun).
  destruct Hready as (_ & _ & Hne & Hpos).
  eexists. rewrite Hrun. split; [reflexivity|].
  cbn [stats_of scalars scalar_stats total_samples total_duration_minutes].
  split; [reflexivity|].
  intros rnd Hrnd.
  set (n := length (dB df)).
  set (i := measurement_interval self) in *.
  assert (Hi0 : 0 <= i) by lra.
  pose proof (DurationFacts.minutes_within rnd Hrnd n i Hi0) as Hmin.
  pose proof (DurationFacts.upload_within rnd Hrnd n) as Hup.
  pose proof (DurationFacts.analysis_within rnd Hrnd n i Hi0) as Han.
  cbv zeta.
  split; [exact Hmin|]. split; [exact Hup|]. split; [exact Han|].
  intros Hi Hsize.
  set (N := Z.of_nat n) in *.
  assert (HN : (0 <= N <= 2 ^ 50)%Z) by (unfold N; lia).
  assert (Ht0 : 0 <= inject_Z N / 720).
  { apply Qle_shift_div_l; [lra|]. rewrite Qmult_0_l.
    apply DurationFacts.Qlen_nonneg. }
  assert (Hup3 : Rounded.within 3 (App.upload_hours rnd n) (inject_Z N / 720)).
  { apply within_weaken; [exact Ht0|]. apply within_weaken; [exact Ht0|].
    exact Hup. }
  assert (Han3 : Rounded.within 3
                   (App.analysis_hours rnd (App.duration_minutes rnd n i))
                   (inject_Z N / 720)).
  { revert Han. apply DurationFacts.within_proper; [reflexivity|].
    rewrite Hi. field. }
  assert (Htie : (N mod 72 = 36)%Z ->
                 App.upload_hours rnd n
                 == App.analysis_hours rnd (App.duration_minutes rnd n i)).
  { intros Hmod.
    pose proof (Z.div_mod N 72 ltac:(lia)) as Hdm. rewrite Hmod in Hdm.
    set (q := (N / 72)%Z) in *.
    assert (Hq : (0 <= q)%Z) by (unfold q; apply Z.div_pos; lia).
    assert (Hminutes : App.duration_minutes rnd n i == inject_Z (6 * q + 3)).
    { rewrite (DurationFacts.minutes_whole_interval rnd Hrnd n i 5 Hi)
        by (fold N; lia).
      fold N. rewrite <- (nearest_integer rnd (6 * q + 3) Hrnd) by lia.
      apply (Rounded.nearest_proper rnd Hrnd).
      replace (N * 5)%Z with (60 * (6 * q + 3))%Z by lia.
      rewrite inject_Z_mult. change (inject_Z 60) with 60. field. }
    unfold App.upload_hours, App.analysis_hours.
    apply (Rounded.nearest_proper rnd Hrnd).
    rewrite Hminutes. fold N. rewrite Hdm at 1.
    rewrite !inject_Z_plus, !inject_Z_mult.
    change (inject_Z 72) with 72. change (inject_Z 36) with 36.
    change (inject_Z 6) with 6. change (inject_Z 3) with 3. field. }
  split; [|split; [|exact Htie]].
  - destruct (Z.eq_dec (N mod 72) 36) as [Hmod|Hmod].
    + apply DurationFacts.shown_tenths_proper. now apply Htie.
    + rewrite (DurationFacts.tenths_of_hours _ N HN Hmod Hup3).
      now rewrite (DurationFacts.tenths_of_hours _ N HN Hmod Han3).
  - intros Hmod. exact (DurationFacts.tenths_of_hours _ N HN Hmod Hup3).
Qed.

Lemma X28_shown_durations_witness :
  exists st, fst (calculate_statistics example_analyzer) = Return (Some st).
Proof.
  destruct (X28_shown_durations _ _ _ example_ready) as (st & H & _).
  exists st. exact H.
Defined.

(** Thirty-six records at the constructor's interval of 1 second, in
    binary64: the upload page shows 0.1 hours, the analysis page 0.0. *)
Lemma shown_36_records_example :
  App.shown_tenths (App.upload_hours Binary64.round 36) = 1%Z
  /\ App.shown_tenths
       (App.analysis_hours Binary64.round
          (App.duration_minutes Binary64.round 36 1)) = 0%Z.
Proof. split; vm_compute; reflexivity. Qed.

(** X30.  The web app assigns the uploaded frame to the analyzer
    without [load_data], so the measurement interval stays at the
    constructor's 1 second whatever the timestamps of the file.  For a
    non-empty upload the statistics then report [len / 60] minutes
    (rounded), and the analysis page computes about [len / 3600] hours
    where the upload page computed about [len / 720].  Shown with one
    decimal, both are 0.0 up to 35 records, and from 37 records on the
    upload page shows more than the analysis page. *)
Theorem X30_web_app_interval (threshold : Q) (column : list Q) :
  column <> [] ->
  let analyzer := App.start_analysis threshold column in
  measurement_interval analyzer = 1
  /\ threshold_db analyzer = threshold
  /\ exists st,
       fst (calculate_statistics analyzer) = Return (Some st)
       /\ total_samples (scalars st) = length column
       /\ (forall rnd : Q -> Q,
             Rounded.round_to_nearest rnd ->
             let n := length column in
             let minutes :=
               App.duration_minutes rnd n (measurement_interval analyzer) in
             let upload := App.upload_hours rnd n in
             let analysis := App.analysis_hours rnd minutes in
             ((Z.of_nat n <= 2 ^ 53)%Z ->
              minutes == rnd (inject_Z (Z.of_nat n) / 60))
             /\ Rounded.within 2 minutes (total_duration_minutes (scalars st))
             /\ Rounded.within 1 upload (inject_Z (Z.of_nat n) / 720)
             /\ Rounded.within 3 analysis (inject_Z (Z.of_nat n) / 3600)
             /\ ((n <= 35)%nat ->
                 App.shown_tenths upload = 0%Z
                 /\ App.shown_tenths analysis = 0%Z)
             /\ ((37 <= n)%nat ->
                 (App.shown_tenths analysis < App.shown_tenths upload)%Z)).
Proof.
  intros Hne analyzer. unfold analyzer, App.start_analysis.
  set (loaded := set_data (init threshold)
                          (mkDataFrame column None None None)).
  rewrite (preprocess_data_eq loaded (mkDataFrame column None None None)
             default_window_size eq_refl
             ltac:(unfold default_window_size; lia)).
  cbn [snd]. split; [reflexivity|]. split; [reflexivity|].
  destruct (calculate_statistics_ready _ _ _
              (ready_preprocessed loaded (mkDataFrame column None None None)
                 default_window_size Hne eq_refl))
    as (hq & _ & Hrun).
  eexists. rewrite Hrun. split; [reflexivity|].
  cbn [stats_of scalars scalar_stats total_samples total_duration_minutes dB].
  change (measurement_interval (preprocessed loaded
            (mkDataFrame column None None None) default_window_size)) with 1.
  split; [reflexivity|].
  intros rnd Hrnd. cbv zeta.
  set (n := length column).
  pose proof (DurationFacts.minutes_within rnd Hrnd n 1 ltac:(lra)) as Hmin.
  pose proof (DurationFacts.upload_within rnd Hrnd n) as Hup.
  pose proof (DurationFacts.analysis_within rnd Hrnd n 1 ltac:(lra)) as Han.
  assert (Han' : Rounded.within 3
                   (App.analysis_hours rnd (App.duration_minutes rnd n 1))
                   (inject_Z (Z.of_nat n) / 3600)).
  { revert Han. apply DurationFacts.within_proper; [reflexivity|field]. }
  split.
  { intros Hsize.
    rewrite (DurationFacts.minutes_whole_interval rnd Hrnd n 1 1)
      by (try reflexivity; lia).
    apply (Rounded.nearest_proper rnd Hrnd). now rewrite Z.mul_1_r. }
  split; [exact Hmin|]. split; [exact Hup|]. split; [exact Han'|].
  pose proof (DurationFacts.Qlen_nonneg n) as Hn0.
  destruct Hup as [Hup_lo Hup_hi]. destruct Han' as [Han_lo Han_hi].
  unfold Rounded.unit_roundoff in Hup_lo, Hup_hi, Han_lo, Han_hi.
  cbn [Rounded.pw] in Hup_lo, Hup_hi, Han_lo, Han_hi.
  set (up := App.upload_hours rnd n) in *.
  set (an := App.analysis_hours rnd (App.duration_minutes rnd n 1)) in *.
  set (N := inject_Z (Z.of_nat n)) in *.
  set (t := N / 720) in *. set (t' := N / 3600) in *.
  assert (Ht : t * 720 == N) by (unfold t; field).
  assert (Ht' : t' * 3600 == N) by (unfold t'; field).
  split.
  - intros Hsmall.
    assert (HN : N <= 35).
    { unfold N. change 35 with (inject_Z 35). rewrite <- Zle_Qle. lia. }
    split; apply DurationFacts.shown_tenths_between;
      change (inject_Z 0) with 0; lra.
  - intros Hlarge.
    assert (HN : 37 <= N).
    { unfold N. change 37 with (inject_Z 37). rewrite <- Zle_Qle. lia. }
    destruct (DurationFacts.shown_tenths_error up) as [Hu _].
    destruct (DurationFacts.shown_tenths_error an) as [_ Ha].
    destruct (Qlt_le_dec N 100) as [Hlt|Hge].
    + assert (Hzero : App.shown_tenths an = 0%Z).
      { apply DurationFacts.shown_tenths_between;
          change (inject_Z 0) with 0; lra. }
      rewrite Hzero.
      assert (Hpos : inject_Z 0 < inject_Z (App.shown_tenths up)).
      { change (inject_Z 0) with 0. lra. }
      now rewrite <- Zlt_Qlt in Hpos.
    + rewrite Zlt_Qlt. lra.
Qed.

Lemma X30_web_app_interval_witness :
  measurement_interval (App.start_analysis 40 example_series) = 1.
Proof.
  apply (X30_web_app_interval 40 example_series). discriminate.
Defined.

(** ** The clock of the dBMeter converter *)

(** X29.  The converter turns a 12-hour clock reading into the hour
    of the day: for the hours 1 to 12 it yields an hour from 0 to 23,
    below 12 exactly for the morning; different readings give
    different hours, and every hour of the day comes from a reading.
    An afternoon hour above 12 makes [datetime] fail (the line is
    dropped), while a morning hour from 13 to 23 is taken as it is. *)
Theorem X29_twelve_hour_clock :
  (forall am_pm h,
      (1 <= h <= 12)%Z ->
      exists k, Convert.parse_hour am_pm h = Return k
                /\ (0 <= k <= 23)%Z
                /\ (am_pm = Convert.AM <-> (k < 12)%Z))
  /\ (forall a h a' h',
        (1 <= h <= 12)%Z -> (1 <= h' <= 12)%Z ->
        Convert.parse_hour a h = Convert.parse_hour a' h' ->
        a = a' /\ h = h')
  /\ (forall k, (0 <= k <= 23)%Z ->
        exists am_pm h, (1 <= h <= 12)%Z
                        /\ Convert.parse_hour am_pm h = Return k)
  /\ (forall h, (12 < h)%Z ->
        Convert.parse_hour Convert.PM h = Raise ValueError)
  /\ (forall h, (13 <= h <= 23)%Z ->
        Convert.parse_hour Convert.AM h = Return h).
Proof.
  assert (Hval : forall am_pm h, (1 <= h <= 12)%Z ->
            Convert.parse_hour am_pm h
            = Return (Convert.to_24h am_pm h)
            /\ match am_pm with
               | Convert.AM => (0 <= Convert.to_24h am_pm h < 12)%Z
                               /\ (Convert.to_24h am_pm h = h mod 12)%Z
               | Convert.PM => (12 <= Convert.to_24h am_pm h <= 23)%Z
                               /\ (Convert.to_24h am_pm h = 12 + h mod 12)%Z
               end).
  { intros am_pm h Hh. unfold Convert.parse_hour, Convert.datetime_hour.
    assert (Hcase : h = 12%Z \/ (1 <= h < 12)%Z) by lia.
    destruct am_pm; unfold Convert.to_24h;
      destruct (Z.eqb_spec h 12) as [->|Hne]; cbn [negb].
    - split; [reflexivity|]. split; [lia|reflexivity].
    - rewrite Z.mod_small by lia.
      destruct (Z.leb_spec 0 h); [|lia].
      destruct (Z.leb_spec h 23); [|lia]. cbn [andb]. split; [reflexivity|lia].
    - split; [reflexivity|]. split; [lia|reflexivity].
    - rewrite Z.mod_small by lia.
      destruct (Z.leb_spec 0 (h + 12)); [|lia].
      destruct (Z.leb_spec (h + 12) 23); [|lia]. cbn [andb].
      split; [reflexivity|lia]. }
  split; [|split; [|split; [|split]]].
  - intros am_pm h Hh. destruct (Hval am_pm h Hh) as [Hp Hk].
    eexists. split; [exact Hp|]. destruct am_pm.
    + split; [lia|]. split; [lia|reflexivity].
    + split; [lia|]. split; [discriminate|lia].
  - intros a h a' h' Hh Hh' Heq.
    destruct (Hval a h Hh) as [Hp Hk].
    destruct (Hval a' h' Hh') as [Hp' Hk'].
    rewrite Hp, Hp' in Heq. injection Heq as Heq.
    assert (Hmod : forall x y, (1 <= x <= 12)%Z -> (1 <= y <= 12)%Z ->
                               (x mod 12 = y mod 12)%Z -> x = y).
    { intros x y Hx Hy Hxy.
      assert (Hx' : x = 12%Z \/ (1 <= x < 12)%Z) by lia.
      assert (Hy' : y = 12%Z \/ (1 <= y < 12)%Z) by lia.
      destruct Hx' as [->|Hx'], Hy' as [->|Hy']; [reflexivity| | |].
      - rewrite (Z.mod_small y) in Hxy by lia.
        change (12 mod 12)%Z with 0%Z in Hxy. lia.
      - rewrite (Z.mod_small x) in Hxy by lia.
        change (12 mod 12)%Z with 0%Z in Hxy. lia.
      - rewrite !Z.mod_small in Hxy by lia. exact Hxy. }
    destruct a, a'.
    + split; [reflexivity|]. apply Hmod; [exact Hh|exact Hh'|lia].
    + lia.
    + lia.
    + split; [reflexivity|]. apply Hmod; [exact Hh|exact Hh'|lia].
  - intros k Hk.
    assert (Hcase : k = 0%Z \/ (1 <= k <= 11)%Z \/ k = 12%Z
                    \/ (13 <= k <= 23)%Z) by lia.
    destruct Hcase as [->|[Hc| [->|Hc]]].
    + exists Convert.AM, 12%Z. split; [lia|reflexivity].
    + exists Convert.AM, k. split; [lia|].
      destruct (Hval Convert.AM k ltac:(lia)) as [Hp [_ Hk']].
      rewrite Hp, Hk', Z.mod_small by lia. reflexivity.
    + exists Convert.PM, 12%Z. split; [lia|reflexivity].
    + exists Convert.PM, (k - 12)%Z. split; [lia|].
      destruct (Hval Convert.PM (k - 12)%Z ltac:(lia)) as [Hp [_ Hk']].
      rewrite Hp, Hk', Z.mod_small by lia. f_equal. lia.
  - intros h Hh. unfold Convert.parse_hour, Convert.to_24h.
    destruct (Z.eqb_spec h 12); [lia|]. cbn [negb].
    unfold Convert.datetime_hour.
    destruct (Z.leb_spec (h + 12) 23); [lia|].
    now rewrite andb_false_r.
  - intros h Hh. unfold Convert.parse_hour, Convert.to_24h.
    destruct (Z.eqb_spec h 12); [lia|].
    unfold Convert.datetime_hour.
    destruct (Z.leb_spec 0 h); [|lia].
    destruct (Z.leb_spec h 23); [|lia]. reflexivity.
Qed.
